(** * wgconfig: a line-preserving editor for WireGuard configuration files

    Shallow embedding of [src/wgconfig/__init__.py] (class [WGConfig]) and
    the properties of its parse / mutate / serialise engine.

    Conventions of the embedding.
    - A Python [str] is a [string]; a character is a code point below 256
      (the Latin-1 range), so the classification of characters follows
      Python's tables on that range.
    - A Python [int] is a [Z].
    - A Python [dict] is an association list in insertion order.
    - A method of the class is a function of the monad [M]: it takes the
      object, and returns an outcome (a value or a raised exception)
      together with the object as the call left it.  An exception does not
      undo the assignments made before it. *)

From Stdlib Require Import List String Ascii ZArith Lia Bool DecimalString
  DecimalPos.
Import ListNotations.

Local Open Scope string_scope.
Local Open Scope list_scope.
Local Open Scope Z_scope.

(** ** Characters and the [str] methods the class uses *)

Module Py.

Definition code (c : ascii) : N := N_of_ascii c.

(** [str.isspace] on one character. *)
Definition is_space (c : ascii) : bool :=
  let n := code c in
  ((9 <=? n) && (n <=? 13) || (28 <=? n) && (n <=? 32)
   || (n =? 133) || (n =? 160))%N.

(** The characters [int()] reads as decimal digits. *)
Definition is_decimal (c : ascii) : bool :=
  let n := code c in ((48 <=? n) && (n <=? 57))%N.

(** [str.isnumeric] on one character: the decimal digits, the superscripts
    one to three and the vulgar fractions. *)
Definition is_numeric_char (c : ascii) : bool :=
  let n := code c in
  (is_decimal c || (n =? 178) || (n =? 179) || (n =? 185)
   || (n =? 188) || (n =? 189) || (n =? 190))%N.

Definition lower_char (c : ascii) : ascii :=
  let n := code c in
  if ((65 <=? n) && (n <=? 90) || (192 <=? n) && (n <=? 214)
      || (216 <=? n) && (n <=? 222))%N
  then ascii_of_N (n + 32) else c.

Definition newline : ascii := "010"%char.

Definition is_empty (s : string) : bool :=
  match s with EmptyString => true | String _ _ => false end.

Fixpoint all_chars (p : ascii -> bool) (s : string) : bool :=
  match s with
  | EmptyString => true
  | String c s' => p c && all_chars p s'
  end.

Fixpoint lstrip (s : string) : string :=
  match s with
  | EmptyString => EmptyString
  | String c s' => if is_space c then lstrip s' else s
  end.

Fixpoint rstrip (s : string) : string :=
  match s with
  | EmptyString => EmptyString
  | String c s' =>
      let r := rstrip s' in
      if is_space c && is_empty r then EmptyString else String c r
  end.

Definition strip (s : string) : string := rstrip (lstrip s).

Fixpoint lower (s : string) : string :=
  match s with
  | EmptyString => EmptyString
  | String c s' => String (lower_char c) (lower s')
  end.

Definition startswith (s p : string) : bool := String.prefix p s.

(** [s.partition(sep)] for a separator of one character. *)
Fixpoint partition (sep : ascii) (s : string) : string * string * string :=
  match s with
  | EmptyString => (EmptyString, EmptyString, EmptyString)
  | String c s' =>
      if Ascii.eqb c sep then (EmptyString, String sep EmptyString, s')
      else let '(a, m, b) := partition sep s' in (String c a, m, b)
  end.

(** [s.split(sep)] for a separator of one character. *)
Fixpoint split (sep : ascii) (s : string) : list string :=
  match s with
  | EmptyString => [EmptyString]
  | String c s' =>
      if Ascii.eqb c sep then EmptyString :: split sep s'
      else match split sep s' with
           | [] => [String c EmptyString]
           | x :: xs => String c x :: xs
           end
  end.

(** [sep.join(items)]. *)
Fixpoint join (sep : string) (items : list string) : string :=
  match items with
  | [] => EmptyString
  | [x] => x
  | x :: xs => (x ++ sep ++ join sep xs)%string
  end.

(** [s.replace(old, new)] for a non-empty [old]: occurrences are found from
    the left and do not overlap; [skip] counts the characters of a found
    occurrence still to be passed over. *)
Fixpoint replace_from (old new : string) (skip : nat) (s : string) : string :=
  match s with
  | EmptyString => EmptyString
  | String c s' =>
      match skip with
      | S k => replace_from old new k s'
      | O =>
          if String.prefix old s
          then (new ++ replace_from old new (Nat.pred (String.length old)) s')%string
          else String c (replace_from old new O s')
      end
  end.

Definition replace (old new s : string) : string := replace_from old new O s.

(** [s[1:]]. *)
Definition tail (s : string) : string :=
  match s with EmptyString => EmptyString | String _ s' => s' end.

(** [str.isnumeric]. *)
Definition isnumeric (s : string) : bool :=
  negb (is_empty s) && all_chars is_numeric_char s.

Definition digit_value (c : ascii) : Z := Z.of_N (code c) - 48.

Fixpoint int_digits (acc : Z) (s : string) : option Z :=
  match s with
  | EmptyString => Some acc
  | String c s' =>
      if is_decimal c then int_digits (10 * acc + digit_value c) s' else None
  end.

(** [int(s)] on a string without sign, blanks or underscores, which is what
    [parse_line] passes: [None] stands for the [ValueError] that [int]
    raises on a character that is not a decimal digit.  The limit an
    interpreter may put on the digits of a conversion (4300 in CPython
    from 3.11 on) is not part of it. *)
Definition int (s : string) : option Z :=
  if is_empty s then None else int_digits 0 s.

(** [str(n)] for an integer, without the limit an interpreter may put on
    the digits of a conversion. *)
Definition str_of_int (z : Z) : string := NilZero.string_of_int (Z.to_int z).

(** [fobj.readlines()] on a file object holding [text]: the lines, each with
    its line feed, the last one possibly without.  [text] is what the file
    object delivers: a file opened with newline translation delivers a
    carriage return as a line feed. *)
Fixpoint readlines (text : string) : list string :=
  match text with
  | EmptyString => []
  | String c s' =>
      if Ascii.eqb c newline then String c EmptyString :: readlines s'
      else match readlines s' with
           | [] => [String c EmptyString]
           | l :: ls => String c l :: ls
           end
  end.

(** [fobj.writelines(items)]: the items one after the other. *)
Definition writelines (items : list string) : string :=
  fold_right String.append EmptyString items.

(** *** Lists with Python's indices *)

Section Lists.
Context {A : Type}.

Definition len (l : list A) : Z := Z.of_nat (List.length l).

(** The position an index denotes: a negative index counts from the end. *)
Definition position (l : list A) (i : Z) : option nat :=
  let j := if i <? 0 then i + len l else i in
  if (0 <=? j) && (j <? len l) then Some (Z.to_nat j) else None.

(** [l[i]]; [None] stands for [IndexError]. *)
Definition index (l : list A) (i : Z) : option A :=
  match position l i with
  | Some n => nth_error l n
  | None => None
  end.

(** The bound of a slice, clamped as Python does. *)
Definition clamp (l : list A) (i : Z) : nat :=
  let j := if i <? 0 then i + len l else i in
  Z.to_nat (Z.min (Z.max 0 j) (len l)).

(** [l[a:b]]. *)
Definition slice (l : list A) (a b : Z) : list A :=
  firstn (clamp l b - clamp l a) (skipn (clamp l a) l).

(** [l[a:]]. *)
Definition slice_from (l : list A) (a : Z) : list A := skipn (clamp l a) l.

(** [l.insert(i, x)]. *)
Definition insert (l : list A) (i : Z) (x : A) : list A :=
  firstn (clamp l i) l ++ x :: skipn (clamp l i) l.

(** [del l[i]]. *)
Definition delete (l : list A) (i : Z) : option (list A) :=
  match position l i with
  | Some n => Some (firstn n l ++ skipn (S n) l)
  | None => None
  end.

(** [l[i] = x]. *)
Definition assign (l : list A) (i : Z) (x : A) : option (list A) :=
  match position l i with
  | Some n => Some (firstn n l ++ x :: skipn (S n) l)
  | None => None
  end.

End Lists.

(** [range(a, b)]. *)
Definition range (a b : Z) : list Z :=
  map (fun k => a + Z.of_nat k) (seq 0 (Z.to_nat (b - a))).

End Py.

(** ** Values, dictionaries, outcomes *)

(** The values an attribute takes: an [int] or a [str]. *)
Inductive atom : Type :=
| AInt (n : Z)
| AStr (s : string).

(** What a section record stores under a name: one value, a list of values
    (also the raw lines, a list of [str]), or the [bool] of the disabled
    flag. *)
Inductive value : Type :=
| One (a : atom)
| Many (l : list atom)
| Flag (b : bool).

Definition atom_eqb (a b : atom) : bool :=
  match a, b with
  | AInt x, AInt y => x =? y
  | AStr x, AStr y => String.eqb x y
  | _, _ => false
  end.

(** A peer is filed under the value of its key attribute, or under [None]. *)
Definition key := option atom.

Definition key_eqb (a b : key) : bool :=
  match a, b with
  | None, None => true
  | Some x, Some y => atom_eqb x y
  | _, _ => false
  end.

(** [str(x)]. *)
Definition str_of_atom (a : atom) : string :=
  match a with AInt n => Py.str_of_int n | AStr s => s end.

Definition str_of_key (k : key) : string :=
  match k with None => "None" | Some a => str_of_atom a end.

Module Dict.
Section Dict.
Context {K V : Type} (eqb : K -> K -> bool).

(** [d.get(k)]. *)
Fixpoint get (k : K) (d : list (K * V)) : option V :=
  match d with
  | [] => None
  | (k', v) :: d' => if eqb k k' then Some v else get k d'
  end.

(** [k in d]. *)
Definition mem (k : K) (d : list (K * V)) : bool :=
  match get k d with Some _ => true | None => false end.

(** [d[k] = v]: a name already there keeps its place. *)
Fixpoint set (k : K) (v : V) (d : list (K * V)) : list (K * V) :=
  match d with
  | [] => [(k, v)]
  | (k', v') :: d' =>
      if eqb k k' then (k', v) :: d' else (k', v') :: set k v d'
  end.

End Dict.
End Dict.

(** A section while it is read: every name has the list of its values. *)
Definition section_data := list (string * list atom).
(** A closed section. *)
Definition record := list (string * value).
Definition peer_map := list (key * record).

Definition sget := @Dict.get string (list atom) String.eqb.
Definition sset := @Dict.set string (list atom) String.eqb.
Definition rget := @Dict.get string value String.eqb.
Definition rset := @Dict.set string value String.eqb.
Definition pget := @Dict.get key record key_eqb.
Definition pset := @Dict.set key record key_eqb.
Definition pmem := @Dict.mem key record key_eqb.

Inductive exn : Type := KeyError | ValueError | IndexError | TypeError.

Inductive outcome (A : Type) : Type :=
| Ok (a : A)
| Raise (e : exn).
Arguments Ok {A} a.
Arguments Raise {A} e.

(** The object: [self.keyattr], [self.lines], [self._interface] and
    [self._peers]; [None] in the last two is the unbuilt state. *)
Record WGConfig : Type := mkWG {
  keyattr : string;
  lines : list string;
  _interface : option record;
  _peers : option peer_map
}.

Definition with_lines (l : list string) (w : WGConfig) : WGConfig :=
  mkWG (keyattr w) l (_interface w) (_peers w).
Definition with_interface (r : option record) (w : WGConfig) : WGConfig :=
  mkWG (keyattr w) (lines w) r (_peers w).
Definition with_peers (p : option peer_map) (w : WGConfig) : WGConfig :=
  mkWG (keyattr w) (lines w) (_interface w) p.

(** A method: from the object to an outcome and the object afterwards. *)
Definition M (A : Type) : Type := WGConfig -> outcome A * WGConfig.

Definition ret {A} (a : A) : M A := fun w => (Ok a, w).
Definition raise {A} (e : exn) : M A := fun w => (Raise e, w).
Definition bind {A B} (m : M A) (f : A -> M B) : M B :=
  fun w => match m w with
           | (Ok a, w') => f a w'
           | (Raise e, w') => (Raise e, w')
           end.
Definition gets {A} (f : WGConfig -> A) : M A := fun w => (Ok (f w), w).
Definition modify (f : WGConfig -> WGConfig) : M unit := fun w => (Ok tt, f w).

(** An operation that fails with [e] when it has no result. *)
Definition orelse {A} (e : exn) (o : option A) : M A :=
  match o with Some a => ret a | None => raise e end.

(** An outcome computed without the object. *)
Definition lift {A} (o : outcome A) : M A := fun w => (o, w).

Declare Scope wg_scope.
Delimit Scope wg_scope with wg.
Notation "x <- m ;; k" := (bind m (fun x => k))
  (at level 61, m at next level, right associativity) : wg_scope.
Notation "' p <- m ;; k" := (bind m (fun x => match x with p => k end))
  (at level 61, p pattern, m at next level, right associativity) : wg_scope.
Notation "m ;;; k" := (bind m (fun _ => k))
  (at level 61, right associativity) : wg_scope.
Local Open Scope wg_scope.

Definition obind {A B} (o : outcome A) (f : A -> outcome B) : outcome B :=
  match o with Ok a => f a | Raise e => Raise e end.

(** ** The class *)

Definition SECTION_DISABLED := "_disabled".
Definition SECTION_FIRSTLINE := "_index_firstline".
Definition SECTION_LASTLINE := "_index_lastline".
Definition SECTION_RAW := "_rawdata".
Definition MARKER := "#! ".

Definition invalidate_data : M unit :=
  modify (with_interface None) ;;; modify (with_peers None).

(** [read_from_fileobj]: the file object is the text it holds. *)
Definition read_from_fileobj (text : string) : M unit :=
  modify (with_lines (map Py.rstrip (Py.readlines text))) ;;;
  invalidate_data.

(** [write_to_fileobj]: the text the file object receives. *)
Definition write_to_fileobj : M string :=
  ls <- gets lines ;;
  ret (Py.writelines
         (map (fun line => (line ++ String Py.newline "")%string) ls)).

(** [parse_line]: the name, the values and the comment of a line. *)
Definition parse_line (line : string)
  : outcome (string * list atom * string) :=
  let '(attr, _, value) := Py.partition "=" line in
  let attr := Py.strip attr in
  let '(p0, p1, p2) := Py.partition "#" value in
  let value := Py.strip p0 in
  let comment := (p1 ++ p2)%string in
  if Py.isnumeric value then
    match Py.int value with
    | Some n => Ok (attr, [AInt n], comment)
    | None => Raise ValueError
    end
  else Ok (attr, map (fun item => AStr (Py.strip item)) (Py.split "," value),
           comment).

(** A value used as a number (in arithmetic, a comparison or as an index):
    a [bool] counts as 0 or 1, a [str] or a list raises [TypeError]. *)
Definition as_int (v : value) : outcome Z :=
  match v with
  | One (AInt n) => Ok n
  | Flag b => Ok (Z.b2z b)
  | _ => Raise TypeError
  end.

(** Python's truth value. *)
Definition truthy (v : value) : bool :=
  match v with
  | One (AInt n) => negb (n =? 0)
  | One (AStr s) => negb (Py.is_empty s)
  | Many l => match l with [] => false | _ => true end
  | Flag b => b
  end.

(** [v if len(v) > 1 else v[0]]. *)
Definition collapse (v : list atom) : outcome value :=
  match v with
  | [] => Raise IndexError
  | [a] => Ok (One a)
  | _ => Ok (Many v)
  end.

Fixpoint collapse_all (sd : section_data) : outcome record :=
  match sd with
  | [] => Ok []
  | (k, v) :: sd' =>
      obind (collapse v) (fun v' =>
      obind (collapse_all sd') (fun r => Ok ((k, v') :: r)))
  end.

(** Where [close_section] files a record.  The record filed and the local
    [section_data] are one object, so every later assignment to the local
    is an assignment to the record filed. *)
Inductive target : Type :=
| TInterface
| TPeer (k : key).

Definition store (t : target) (r : record) : M unit :=
  match t with
  | TInterface => modify (with_interface (Some r))
  | TPeer k =>
      p <- gets _peers ;;
      match p with
      | Some pm => modify (with_peers (Some (pset k r pm)))
      | None => raise TypeError
      end
  end.

(** The key a peer section is filed under: [section_data.get(self.keyattr)],
    which a list cannot be. *)
Definition peer_key (ka : string) (r : record) : outcome key :=
  match rget ka r with
  | None => Ok None
  | Some (One a) => Ok (Some a)
  | Some (Flag b) => Ok (Some (AInt (Z.b2z b)))
  | Some (Many _) => Raise TypeError
  end.

Definition close_section (section : option string) (sd : section_data)
  : M unit :=
  r <- lift (collapse_all sd) ;;
  match section with
  | None => ret tt
  | Some s =>
      t <- (if String.eqb s "interface" then ret TInterface
            else ka <- gets keyattr ;;
                 k <- lift (peer_key ka r) ;;
                 ret (TPeer k)) ;;
      store t r ;;;
      vf <- orelse KeyError (rget SECTION_FIRSTLINE r) ;;
      vl <- orelse KeyError (rget SECTION_LASTLINE r) ;;
      l <- lift (as_int vl) ;;
      f <- lift (as_int vf) ;;
      ls <- gets lines ;;
      let raw := Py.slice ls f (l + 1) in
      let r1 := rset SECTION_RAW (Many (map AStr raw)) r in
      store t r1 ;;;
      first <- orelse IndexError (Py.index raw 0) ;;
      store t (rset SECTION_DISABLED (Flag (Py.startswith first MARKER)) r1)
  end.

(** The local variables of the loop of [parse_lines]. *)
Record locals : Type := mkLocals {
  section : option string;
  data : section_data;
  last_empty_line_in_section : option Z
}.

(** One turn of the loop of [parse_lines], on line [i]. *)
Definition parse_step (i : Z) (raw : string) (loc : locals) : M locals :=
  let line := Py.strip (Py.replace MARKER "" raw) in
  if Py.is_empty line then ret (mkLocals (section loc) (data loc) (Some i))
  else if Py.startswith line "[" then
    let sd := match last_empty_line_in_section loc with
              | Some e => sset SECTION_LASTLINE [AInt (e - 1)] (data loc)
              | None => data loc
              end in
    close_section (section loc) sd ;;;
    let name := Py.lower (fst (fst (Py.partition "]" (Py.tail line)))) in
    let first := match last_empty_line_in_section loc with
                 | None => i
                 | Some e => e + 1
                 end in
    let sd' := sset SECTION_LASTLINE [AInt i]
                 (sset SECTION_FIRSTLINE [AInt first] []) in
    if String.eqb name "interface" || String.eqb name "peer"
    then ret (mkLocals (Some name) sd' None)
    else raise ValueError
  else if Py.startswith line "#" then
    ret (mkLocals (section loc) (sset SECTION_LASTLINE [AInt i] (data loc))
           (last_empty_line_in_section loc))
  else
    ' (attr, value, _) <- lift (parse_line line) ;;
    let old := match sget attr (data loc) with Some v => v | None => [] end in
    ret (mkLocals (section loc)
           (sset SECTION_LASTLINE [AInt i]
              (sset attr (old ++ value) (data loc)))
           (last_empty_line_in_section loc)).

Fixpoint parse_loop (i : Z) (ls : list string) (loc : locals) : M locals :=
  match ls with
  | [] => ret loc
  | line :: rest =>
      loc' <- parse_step i line loc ;;
      parse_loop (i + 1) rest loc'
  end.

Definition parse_lines : M unit :=
  modify (with_interface (Some [])) ;;;
  modify (with_peers (Some [])) ;;;
  ls <- gets lines ;;
  loc <- parse_loop 0 ls (mkLocals None [] (Some (-1))) ;;
  close_section (section loc) (data loc).

(** The property [interface]. *)
Definition interface : M record :=
  c <- gets _interface ;;
  match c with
  | Some r => ret r
  | None => parse_lines ;;; c' <- gets _interface ;; orelse TypeError c'
  end.

(** The property [peers]. *)
Definition peers : M peer_map :=
  c <- gets _peers ;;
  match c with
  | Some p => ret p
  | None => parse_lines ;;; c' <- gets _peers ;; orelse TypeError c'
  end.

(** [leading_comment.strip()[0] != '#'], with the [IndexError] of an empty
    or blank comment. *)
Definition check_comment (c : string) : outcome unit :=
  match Py.strip c with
  | EmptyString => Raise IndexError
  | String ch _ => if Ascii.eqb ch "#" then Ok tt else Raise ValueError
  end.

Definition append_line (line : string) : M unit :=
  modify (fun w => with_lines (lines w ++ [line]) w).

Definition handle_leading_comment (leading_comment : option string) : M unit :=
  match leading_comment with
  | None => ret tt
  | Some c => lift (check_comment c) ;;; append_line c
  end.

Definition initialize_file (leading_comment : option string) : M unit :=
  modify (with_lines []) ;;;
  handle_leading_comment leading_comment ;;;
  append_line "[Interface]" ;;;
  invalidate_data.

Definition get_filtered_dictionary (d : record) (include_details : bool)
  : record :=
  if include_details then d
  else filter (fun kv => negb (Py.startswith (fst kv) "_")) d.

Definition get_interface (include_details : bool) : M record :=
  r <- interface ;; ret (get_filtered_dictionary r include_details).

(** [get_peers]: a list of keys, or the peers with their data. *)
Definition get_peers (keys_only include_disabled include_details : bool)
  : M (list key + peer_map) :=
  p <- peers ;;
  let peerdata :=
    filter (fun kv =>
              include_disabled
              || negb (match rget SECTION_DISABLED (snd kv) with
                       | Some v => truthy v
                       | None => false
                       end)) p in
  if keys_only then ret (inl (map fst peerdata))
  else ret (inr (map (fun kv =>
                  (fst kv, get_filtered_dictionary (snd kv) include_details))
                  peerdata)).

Definition get_peer (k : key) (include_details : bool) : M record :=
  p <- peers ;;
  match pget k p with
  | Some r => ret (get_filtered_dictionary r include_details)
  | None => raise KeyError
  end.

Definition get_peer_enabled (k : key) : M bool :=
  peerdata <- get_peer k true ;;
  ret (negb (match rget SECTION_DISABLED peerdata with
             | Some v => truthy v
             | None => false
             end)).

(** *** The operations that edit the lines *)

Definition add_peer (k : key) (leading_comment : option string) : M unit :=
  p <- peers ;;
  if pmem k p then raise KeyError
  else
    append_line "" ;;;
    handle_leading_comment leading_comment ;;;
    append_line "[Peer]" ;;;
    ka <- gets keyattr ;;
    append_line (ka ++ " = " ++ str_of_key k)%string ;;;
    invalidate_data.

Definition del_peer (k : key) : M unit :=
  p <- peers ;;
  match pget k p with
  | None => raise KeyError
  | Some r =>
      vf <- orelse KeyError (rget SECTION_FIRSTLINE r) ;;
      vl <- orelse KeyError (rget SECTION_LASTLINE r) ;;
      f <- lift (as_int vf) ;;
      ls <- gets lines ;;
      f' <- (if f >? 0 then
               prev <- orelse IndexError (Py.index ls (f - 1)) ;;
               ret (if Py.is_empty prev then f - 1 else f)
             else ret f) ;;
      let head := if f' >? 0 then Py.slice ls 0 f' else [] in
      l <- lift (as_int vl) ;;
      modify (with_lines (head ++ Py.slice_from ls (l + 1))) ;;;
      invalidate_data
  end.

(** [get_sectioninfo]: the two bounds as the record has them. *)
Definition get_sectioninfo (k : key) : M (value * value) :=
  match k with
  | None =>
      r <- interface ;;
      vf <- orelse KeyError (rget SECTION_FIRSTLINE r) ;;
      vl <- orelse KeyError (rget SECTION_LASTLINE r) ;;
      ret (vf, vl)
  | Some _ =>
      p <- peers ;;
      match pget k p with
      | None => raise KeyError
      | Some r =>
          vf <- orelse KeyError (rget SECTION_FIRSTLINE r) ;;
          vl <- orelse KeyError (rget SECTION_LASTLINE r) ;;
          ret (vf, vl)
      end
  end.

(** The loop of [add_attr] over [range(first + 1, last + 1)]: the last line
    whose name is [attr]. *)
Fixpoint find_attr (attr : string) (ls : list string) (idx : list Z)
  (line_found : option Z) : outcome (option Z) :=
  match idx with
  | [] => Ok line_found
  | i :: rest =>
      match Py.index ls i with
      | None => Raise IndexError
      | Some line =>
          obind (parse_line line) (fun '(line_attr, _, _) =>
            find_attr attr ls rest
              (if String.eqb attr line_attr then Some i else line_found))
      end
  end.

(** The line [add_attr] writes in place of [line] when it adds [v] to it. *)
Definition extend_line (line : string) (v : atom) : outcome string :=
  obind (parse_line line) (fun '(line_attr, line_value, line_comment) =>
    let line_comment :=
      if Py.is_empty line_comment then line_comment
      else (" " ++ line_comment)%string in
    Ok (line_attr ++ " = "
        ++ Py.join ", " (map str_of_atom (line_value ++ [v]))
        ++ line_comment)%string).

Definition add_attr (k : key) (attr : string) (v : atom)
  (leading_comment : option string) (append_as_line : bool) : M unit :=
  ' (vf, vl) <- get_sectioninfo k ;;
  match leading_comment with
  | Some c => lift (check_comment c)
  | None => ret tt
  end ;;;
  lo <- lift (as_int vf) ;;
  hi <- lift (as_int vl) ;;
  ls <- gets lines ;;
  line_found <- lift (find_attr attr ls (Py.range (lo + 1) (hi + 1)) None) ;;
  pos <- match line_found, append_as_line with
         | Some m, false =>
             line <- orelse IndexError (Py.index ls m) ;;
             new <- lift (extend_line line v) ;;
             ls' <- orelse IndexError (Py.assign ls m new) ;;
             modify (with_lines ls') ;;;
             ret m
         | _, _ =>
             let m := match line_found with Some m => m | None => hi end in
             modify (with_lines
                       (Py.insert ls (m + 1)
                          (attr ++ " = " ++ str_of_atom v)%string)) ;;;
             ret (m + 1)
         end ;;
  match leading_comment with
  | Some c => modify (fun w => with_lines (Py.insert (lines w) pos c) w)
  | None => ret tt
  end ;;;
  invalidate_data.

(** The first loop of [del_attr]: the lines named [attr] that hold the value
    asked for. *)
Fixpoint find_matches (attr : string) (v : option atom) (ls : list string)
  (idx : list Z) : outcome (list Z) :=
  match idx with
  | [] => Ok []
  | i :: rest =>
      match Py.index ls i with
      | None => Raise IndexError
      | Some line =>
          obind (parse_line line) (fun '(line_attr, line_value, _) =>
          obind (find_matches attr v ls rest) (fun found =>
            Ok (if String.eqb attr line_attr
                   && match v with
                      | None => true
                      | Some a => existsb (atom_eqb a) line_value
                      end
                then i :: found else found)))
      end
  end.

(** [l.remove(a)]. *)
Fixpoint remove_first (a : atom) (l : list atom) : option (list atom) :=
  match l with
  | [] => None
  | x :: l' =>
      if atom_eqb x a then Some l'
      else match remove_first a l' with
           | Some r => Some (x :: r)
           | None => None
           end
  end.

(** [', '.join(l)], which raises [TypeError] on an [int]. *)
Fixpoint strings_of (l : list atom) : option (list string) :=
  match l with
  | [] => Some []
  | AStr s :: l' =>
      match strings_of l' with Some r => Some (s :: r) | None => None end
  | AInt _ :: _ => None
  end.

(** One turn of the second loop of [del_attr], on line [i]. *)
Definition del_attr_line (v : option atom) (i : Z) : M unit :=
  ls <- gets lines ;;
  match v with
  | None =>
      ls' <- orelse IndexError (Py.delete ls i) ;;
      modify (with_lines ls')
  | Some a =>
      line <- orelse IndexError (Py.index ls i) ;;
      ' (line_attr, line_value, line_comment) <- lift (parse_line line) ;;
      rest <- orelse ValueError (remove_first a line_value) ;;
      match rest with
      | _ :: _ =>
          items <- orelse TypeError (strings_of rest) ;;
          ls' <- orelse IndexError
                   (Py.assign ls i
                      (line_attr ++ " = " ++ Py.join ", " items
                       ++ line_comment)%string) ;;
          modify (with_lines ls')
      | [] =>
          ls' <- orelse IndexError (Py.delete ls i) ;;
          modify (with_lines ls')
      end
  end.

Fixpoint del_attr_lines (v : option atom) (idx : list Z) : M unit :=
  match idx with
  | [] => ret tt
  | i :: rest => del_attr_line v i ;;; del_attr_lines v rest
  end.

(** The line counts as a comment for [del_attr]: it is not empty and its
    first character is [#]. *)
Definition is_comment_line (line : string) : bool :=
  match line with
  | EmptyString => false
  | String c _ => Ascii.eqb c "#"
  end.

(** The [while i > 0] loop of [del_attr], entered with [i = n]. *)
Fixpoint remove_comments_above (n : nat) : M unit :=
  match n with
  | O => ret tt
  | S n' =>
      ls <- gets lines ;;
      line <- orelse IndexError (Py.index ls (Z.of_nat n)) ;;
      if is_comment_line line then
        ls' <- orelse IndexError (Py.delete ls (Z.of_nat n)) ;;
        modify (with_lines ls') ;;;
        remove_comments_above n'
      else ret tt
  end.

Definition del_attr (k : key) (attr : string) (v : option atom)
  (remove_leading_comments : bool) : M unit :=
  ' (vf, vl) <- get_sectioninfo k ;;
  lo <- lift (as_int vf) ;;
  hi <- lift (as_int vl) ;;
  ls <- gets lines ;;
  line_found <- lift (find_matches attr v ls (Py.range (lo + 1) (hi + 1))) ;;
  match line_found with
  | [] => raise ValueError
  | first :: _ =>
      del_attr_lines v (rev line_found) ;;;
      (if remove_leading_comments
       then remove_comments_above (Z.to_nat (first - 1))
       else ret tt) ;;;
      invalidate_data
  end.

(** [section_firstline <= i <= section_lastline], which compares with the
    last line only when the first comparison holds. *)
Definition in_section (vf vl : value) (i : Z) : outcome bool :=
  obind (as_int vf) (fun f =>
    if f <=? i then obind (as_int vl) (fun l => Ok (i <=? l))
    else Ok false).

(** The loop of [enable_peer] and [disable_peer]: [edit] on the lines of the
    section, the other lines as they are. *)
Fixpoint edit_section (edit : string -> string) (vf vl : value) (i : Z)
  (ls : list string) : outcome (list string) :=
  match ls with
  | [] => Ok []
  | line :: rest =>
      obind (in_section vf vl i) (fun b =>
      obind (edit_section edit vf vl (i + 1) rest) (fun rest' =>
        Ok ((if b then edit line else line) :: rest')))
  end.

Definition enable_peer (k : key) : M unit :=
  p <- peers ;;
  match pget k p with
  | None => raise KeyError
  | Some r =>
      vf <- orelse KeyError (rget SECTION_FIRSTLINE r) ;;
      vl <- orelse KeyError (rget SECTION_LASTLINE r) ;;
      ls <- gets lines ;;
      result <- lift (edit_section (Py.replace MARKER "") vf vl 0 ls) ;;
      modify (with_lines result) ;;;
      invalidate_data
  end.

Definition disable_peer (k : key) : M unit :=
  p <- peers ;;
  if negb (pmem k p) then raise KeyError
  else
    enabled <- get_peer_enabled k ;;
    if negb enabled then ret tt
    else
      match pget k p with
      | None => raise KeyError
      | Some r =>
          vf <- orelse KeyError (rget SECTION_FIRSTLINE r) ;;
          vl <- orelse KeyError (rget SECTION_LASTLINE r) ;;
          ls <- gets lines ;;
          result <- lift (edit_section (String.append MARKER) vf vl 0 ls) ;;
          modify (with_lines result) ;;;
          invalidate_data
      end.

(** [WGConfig(keyattr=ka)]: the object as [__init__] leaves it. *)
Definition new_object (ka : string) : WGConfig :=
  snd (initialize_file None (mkWG ka [] None None)).

(** Load a text, read the interface (which builds the records), write. *)
Definition parse_and_write (text : string) : M string :=
  read_from_fileobj text ;;;
  _ <- interface ;;
  write_to_fileobj.

(** ** The vocabulary of the properties *)

(** A method that leaves [self.lines] and [self.keyattr] as they are. *)
Definition frame {A} (m : M A) : Prop :=
  forall w, lines (snd (m w)) = lines w /\ keyattr (snd (m w)) = keyattr w.

Definition add_newline (line : string) : string :=
  (line ++ String Py.newline "")%string.

Definition no_newline (s : string) : bool :=
  Py.all_chars (fun c => negb (Ascii.eqb c Py.newline)) s.

(** A line as [readlines] gives it: no line feed but, possibly, a last one. *)
Definition read_line (s : string) : Prop :=
  exists b, no_newline b = true /\ (s = b \/ s = add_newline b).

Definition sample_lines : list string :=
  ["[Interface]"; "PrivateKey = AAA="; ""; "[Peer]"; "PublicKey = BBB=";
   "AllowedIPs = 10.0.0.2/32"].

(** The sample with blanks at the end of its first line and no line feed
    after its last. *)
Definition sample_text : string :=
  (add_newline "[Interface]  "
   ++ Py.writelines (map add_newline (firstn 4 (List.tl sample_lines)))
   ++ "AllowedIPs = 10.0.0.2/32")%string.

Definition unbuilt (w : WGConfig) : Prop :=
  _interface w = None /\ _peers w = None.

(** The operations that edit the lines, with their arguments. *)
Inductive operation : Type :=
| InitializeFile (leading_comment : option string)
| ReadFromFileobj (text : string)
| AddPeer (k : key) (leading_comment : option string)
| DelPeer (k : key)
| AddAttr (k : key) (attr : string) (v : atom)
    (leading_comment : option string) (append_as_line : bool)
| DelAttr (k : key) (attr : string) (v : option atom)
    (remove_leading_comments : bool)
| EnablePeer (k : key)
| DisablePeer (k : key).

Definition run (op : operation) : M unit :=
  match op with
  | InitializeFile c => initialize_file c
  | ReadFromFileobj text => read_from_fileobj text
  | AddPeer k c => add_peer k c
  | DelPeer k => del_peer k
  | AddAttr k attr v c b => add_attr k attr v c b
  | DelAttr k attr v b => del_attr k attr v b
  | EnablePeer k => enable_peer k
  | DisablePeer k => disable_peer k
  end.

(** A method that, when it returns, has left the records unbuilt. *)
Definition invalidates (m : M unit) : Prop :=
  forall w w', m w = (Ok tt, w') -> unbuilt w'.

(** A configuration whose only peer is disabled. *)
Definition disabled_config : WGConfig :=
  mkWG "PublicKey" ["[Interface]"; ""; "#! [Peer]"; "#! PublicKey = k"]
    None None.

Definition unsupported_config : WGConfig :=
  mkWG "PublicKey"
    ["[Interface]"; "ListenPort = 1"; ""; "[Peer]"; "PublicKey = k"; "";
     "[Foo]"]
    None None.

(** The value part of a line, as [parse_line] cuts it. *)
Definition value_part (line : string) : string :=
  let '(_, _, value) := Py.partition "=" line in
  let '(p0, _, _) := Py.partition "#" value in
  Py.strip p0.

Definition name_part (line : string) : string :=
  let '(attr, _, _) := Py.partition "=" line in Py.strip attr.

Definition comment_part (line : string) : string :=
  let '(_, _, value) := Py.partition "=" line in
  let '(_, p1, p2) := Py.partition "#" value in
  (p1 ++ p2)%string.

(** The vulgar fraction one half, U+00BD. *)
Definition one_half : ascii := "189"%char.

(** Two objects on which a lookup by [k] finds the same thing: they have the
    same lines, their records are built, and [k] leads to the same record
    (or to none) in both. *)
Definition same_lookup (k : key) (w1 w2 : WGConfig) : Prop :=
  lines w1 = lines w2
  /\ exists p1 p2, _peers w1 = Some p1 /\ _peers w2 = Some p2
                   /\ pget k p1 = pget k p2.

(** The disabled flag of a record, as [get_peer_enabled] reads it. *)
Definition is_disabled (r : record) : bool :=
  match rget SECTION_DISABLED r with
  | Some v => truthy v
  | None => false
  end.

Definition keyless_config : WGConfig :=
  mkWG "PublicKey" ["[Interface]"; ""; "[Peer]"; "AllowedIPs = 10.0.0.2/32"]
    None None.

Definition comment_at (l : list string) (j : nat) : Prop :=
  exists line, nth_error l j = Some line /\ is_comment_line line = true.

Definition no_comment_at (l : list string) (j : nat) : Prop :=
  exists line, nth_error l j = Some line /\ is_comment_line line = false.

(** Line [i] of [ls] is named [attr] and, when a value is asked for, holds
    it: the test of the first loop of [del_attr]. *)
Definition line_matches (attr : string) (v : option atom) (ls : list string)
  (i : Z) : bool :=
  match Py.index ls i with
  | Some line =>
      match parse_line line with
      | Ok (line_attr, line_value, _) =>
          String.eqb attr line_attr
          && match v with
             | None => true
             | Some a => existsb (atom_eqb a) line_value
             end
      | Raise _ => false
      end
  | None => false
  end.

(** The lines [del_attr] matched: those of [range(first + 1, last + 1)] that
    pass the test, in ascending order, [m] being the first of them. *)
Definition first_matched_line (k : key) (attr : string) (v : option atom)
  (w : WGConfig) (m : Z) : Prop :=
  exists vf vl w0 lo hi rest,
    get_sectioninfo k w = (Ok (vf, vl), w0)
    /\ as_int vf = Ok lo /\ as_int vl = Ok hi
    /\ filter (line_matches attr v (lines w)) (Py.range (lo + 1) (hi + 1))
       = m :: rest.

(** Line [i] of [ls] exists and [parse_line] reads it. *)
Definition decodable (ls : list string) (i : Z) : Prop :=
  exists line r, Py.index ls i = Some line /\ parse_line line = Ok r.

(** Line [i] of [ls] is named [attr]: the test of the loop of [add_attr]. *)
Definition name_is (attr : string) (ls : list string) (i : Z) : bool :=
  match Py.index ls i with
  | Some line =>
      match parse_line line with
      | Ok (line_attr, _, _) => String.eqb attr line_attr
      | Raise _ => false
      end
  | None => false
  end.



(** The line written for a name, its values and its comment. *)
Definition encode (name : string) (values : list atom) (comment : string)
  : string :=
  (name ++ " = " ++ Py.join ", " (map str_of_atom values)
   ++ (if Py.is_empty comment then "" else " " ++ comment))%string.

Definition attr_line (attr : string) (v : atom) : string :=
  (attr ++ " = " ++ str_of_atom v)%string.


(** What the loop of [parse_lines] sees of a line. *)
Definition normal (line : string) : string :=
  Py.strip (Py.replace MARKER "" line).

(** Two records that agree on every name but the raw lines and the flag. *)
Definition similar (r r1 : record) : Prop :=
  forall name, name <> SECTION_RAW -> name <> SECTION_DISABLED ->
               rget name r = rget name r1.

Definition opt_rel {A} (P : A -> A -> Prop) (a b : option A) : Prop :=
  match a, b with
  | Some x, Some y => P x y
  | None, None => True
  | _, _ => False
  end.

Definition peers_similar (p p1 : peer_map) : Prop :=
  forall k, opt_rel similar (pget k p) (pget k p1).

(** Two objects with the same key attribute, as many lines, and similar
    records. *)
Definition related (w w1 : WGConfig) : Prop :=
  keyattr w = keyattr w1
  /\ List.length (lines w) = List.length (lines w1)
  /\ opt_rel similar (_interface w) (_interface w1)
  /\ opt_rel peers_similar (_peers w) (_peers w1).

(** Two methods that, on related objects, have the same outcome and leave
    related objects. *)
Definition sim {A} (m m1 : M A) : Prop :=
  forall w w1, related w w1 ->
               fst (m w) = fst (m1 w1) /\ related (snd (m w)) (snd (m1 w1)).

(** The end of [close_section], from the slice of the raw lines on. *)
Definition stamp (t : target) (r : record) (f l : Z) (ls : list string)
  : M unit :=
  let raw := Py.slice ls f (l + 1) in
  let r1 := rset SECTION_RAW (Many (map AStr raw)) r in
  store t r1 ;;;
  first <- orelse IndexError (Py.index raw 0) ;;
  store t (rset SECTION_DISABLED (Flag (Py.startswith first MARKER)) r1).

Definition cleared (w : WGConfig) : WGConfig :=
  with_peers (Some []) (with_interface (Some []) w).

Definition start : locals := mkLocals None [] (Some (-1)).

(** A record built from the lines [ls]: integer bounds [0 <= f <= l], the
    raw lines they delimit, and the flag read off the first of them. *)
Definition good (ls : list string) (r : record) : Prop :=
  exists f l first,
    rget SECTION_FIRSTLINE r = Some (One (AInt f))
    /\ rget SECTION_LASTLINE r = Some (One (AInt l))
    /\ 0 <= f <= l
    /\ Py.index (Py.slice ls f (l + 1)) 0 = Some first
    /\ rget SECTION_RAW r = Some (Many (map AStr (Py.slice ls f (l + 1))))
    /\ rget SECTION_DISABLED r = Some (Flag (Py.startswith first MARKER)).

Definition peers_good (w : WGConfig) : Prop :=
  forall p k r, _peers w = Some p -> pget k p = Some r -> good (lines w) r.

(** The bounds a section has while it is read: its first line is an integer
    [f0] that nothing appended to the list can remove, its last line is at
    or after its first. *)
Definition bounded (sd : section_data) : Prop :=
  exists f0 rest l0,
    sget SECTION_FIRSTLINE sd = Some (AInt f0 :: rest)
    /\ sget SECTION_LASTLINE sd = Some [AInt l0]
    /\ 0 <= f0 <= l0.

(** The locals before line [i]: the cursor of empty lines is below [i], and
    an open section has its header at some line [h] below [i], at or after
    its first line, at or before its last line, and before the cursor. *)
Definition open_section (i : Z) (loc : locals) : Prop :=
  (0 <= i /\ forall e, last_empty_line_in_section loc = Some e -> -1 <= e < i)
  /\ (section loc <> None ->
      exists f0 rest l0 h,
        sget SECTION_FIRSTLINE (data loc) = Some (AInt f0 :: rest)
        /\ sget SECTION_LASTLINE (data loc) = Some [AInt l0]
        /\ 0 <= f0 <= h /\ h <= l0 /\ h < i
        /\ forall e, last_empty_line_in_section loc = Some e -> h < e).

(** [edit] on the lines [f..l], counted from [i]. *)
Fixpoint map_section (edit : string -> string) (f l i : Z) (ls : list string)
  : list string :=
  match ls with
  | [] => []
  | x :: rest =>
      (if (f <=? i) && (i <=? l) then edit x else x)
      :: map_section edit f l (i + 1) rest
  end.

(** The raw lines of a record. *)
Definition raw_lines (r : record) : list atom :=
  match rget SECTION_RAW r with
  | Some (Many l) => l
  | _ => []
  end.

(** The object after the lines of a section were edited. *)
Definition edited (edit : string -> string) (f l : Z) (wp : WGConfig)
  : WGConfig :=
  with_peers None
    (with_interface None (with_lines (map_section edit f l 0 (lines wp)) wp)).

(** A method that leaves the peer map built when it finds it built. *)
Definition keeps_built {A} (m : M A) : Prop :=
  forall w, _peers w <> None -> _peers (snd (m w)) <> None.

(** An object in step with its lines: its records are unbuilt, or they are
    what a parse of its lines has just built. *)
Definition coherent (w : WGConfig) : Prop :=
  unbuilt w \/ exists w0, unbuilt w0 /\ parse_lines w0 = (Ok tt, w).

(** The raw lines of the peer [k], as a query reads them. *)
Definition peer_raw_lines (k : key) (w : WGConfig) : list atom :=
  match fst (get_peer k true w) with
  | Ok r => raw_lines r
  | Raise _ => []
  end.

(** A peer that is enabled, with a disable marker inside a comment. *)
Definition marked_config : WGConfig :=
  mkWG "PublicKey"
    ["[Interface]"; ""; "[Peer]"; "PublicKey = k";
     "AllowedIPs = 10.0.0.2/32 #! temp"]
    None None.

Definition sample_object : WGConfig := mkWG "PublicKey" sample_lines None None.

(** ** The rest of the class *)

(** [os.path.basename(p)]: what follows the last slash of [p]. *)
Definition has_slash (p : string) : bool :=
  negb (Py.all_chars (fun c => negb (Ascii.eqb c "/")) p).

Fixpoint basename (p : string) : string :=
  match p with
  | EmptyString => EmptyString
  | String c p' =>
      if Ascii.eqb c "/" || has_slash p' then basename p' else p
  end.

(** [s.endswith(suffix)]. *)
Fixpoint endswith (s suffix : string) : bool :=
  String.eqb s suffix
  || match s with
     | EmptyString => false
     | String _ s' => endswith s' suffix
     end.

(** [os.path.join(a, b)] on POSIX. *)
Definition path_join (a b : string) : string :=
  if Py.startswith b "/" then b
  else if Py.is_empty a || endswith a "/" then (a ++ b)%string
  else (a ++ "/" ++ b)%string.

(** [file2filename]: a bare name becomes a path in [/etc/wireguard]. *)
Definition file2filename (file : option string) : option string :=
  match file with
  | None => None
  | Some f =>
      if String.eqb (basename f) f then
        let f := if negb (endswith f ".conf") then (f ++ ".conf")%string
                 else f in
        Some (path_join "/etc/wireguard" f)
      else Some f
  end.

(** A line of a buffer that [write_to_fileobj] and [read_from_fileobj] give
    back as it is: no blank at its end, no line feed. *)
Definition clean_line (s : string) : Prop :=
  Py.rstrip s = s /\ no_newline s = true.

(** A record whose section lies in the buffer [ls]: integer bounds
    [0 <= f <= l < len(ls)], the raw lines [ls[f:l+1]], all [l + 1 - f] of
    them, and the flag read off line [f]. *)
Definition in_buffer (ls : list string) (r : record) : Prop :=
  exists f l first,
    rget SECTION_FIRSTLINE r = Some (One (AInt f))
    /\ rget SECTION_LASTLINE r = Some (One (AInt l))
    /\ 0 <= f <= l /\ l < Py.len ls
    /\ nth_error ls (Z.to_nat f) = Some first
    /\ rget SECTION_RAW r = Some (Many (map AStr (Py.slice ls f (l + 1))))
    /\ Py.len (Py.slice ls f (l + 1)) = l + 1 - f
    /\ rget SECTION_DISABLED r = Some (Flag (Py.startswith first MARKER)).

(** The interface record is empty (no interface section was met) or lies in
    the buffer, and so does every peer record. *)
Definition records_in_buffer (w : WGConfig) : Prop :=
  (forall r, _interface w = Some r -> r = [] \/ in_buffer (lines w) r)
  /\ (forall p k r, _peers w = Some p -> pget k p = Some r ->
                    in_buffer (lines w) r).

(** The last line of the open section is below line [i]. *)
Definition last_below (i : Z) (loc : locals) : Prop :=
  section loc <> None ->
  forall l0, sget SECTION_LASTLINE (data loc) = Some [AInt l0] -> l0 < i.

(** The peer map a read of [peers] gives, or an empty one when it raises. *)
Definition peers_of (w : WGConfig) : peer_map :=
  match fst (peers w) with Ok p => p | Raise _ => [] end.

(** The record of the peer [k] in a peer map, or an empty one. *)
Definition record_of (k : key) (p : peer_map) : record :=
  match pget k p with Some r => r | None => [] end.

(** The name of the section a header line opens, as [parse_lines] takes
    it. *)
Definition section_name (line : string) : string :=
  Py.lower (fst (fst (Py.partition "]" (Py.tail (normal line))))).

(** A header line of a section that is neither [interface] nor [peer]. *)
Definition unsupported_header (line : string) : Prop :=
  Py.is_empty (normal line) = false
  /\ Py.startswith (normal line) "[" = true
  /\ String.eqb (section_name line) "interface"
     || String.eqb (section_name line) "peer" = false.

(** A line that is no header and that [parse_line] reads. *)
Definition plain_line (line : string) : Prop :=
  Py.startswith (normal line) "[" = false
  /\ exists r, parse_line (normal line) = Ok r.

(** Every name of a section being read has at least one value. *)
Definition all_valued (sd : section_data) : Prop :=
  Forall (fun kv => snd kv <> []) sd.

(** The character [c] does not occur in [s]. *)
Definition lacks (c : ascii) (s : string) : bool :=
  Py.all_chars (fun x => negb (Ascii.eqb x c)) s.

(** A value that [encode] and [parse_line] give back as it is: not empty,
    without blanks around it, without comma and without [#]. *)
Definition plain_value (x : string) : Prop :=
  x <> "" /\ Py.strip x = x /\ lacks "," x = true /\ lacks "#" x = true.

(** The peer map of [w], when built, has one entry per key. *)
Definition distinct_keys (w : WGConfig) : Prop :=
  forall p, _peers w = Some p -> NoDup (map fst p).

(** A method that keeps the peer map at one entry per key. *)
Definition keeps_distinct {A} (m : M A) : Prop :=
  forall w, distinct_keys w -> distinct_keys (snd (m w)).

(** An interface and two peers, the first of them disabled. *)
Definition two_peers_config : WGConfig :=
  mkWG "PublicKey"
    ["[Interface]"; "ListenPort = 51820"; "";
     "#! [Peer]"; "#! PublicKey = k1"; "";
     "[Peer]"; "PublicKey = k2"; "AllowedIPs = 10.0.0.2/32"]
    None None.

(** A value as [parse_line] returns it: an integer that is not negative, or
    a string without blanks around it, without comma and without [#]. *)
Definition parsed_atom (a : atom) : Prop :=
  match a with
  | AInt n => 0 <= n
  | AStr s => Py.strip s = s /\ lacks "," s = true /\ lacks "#" s = true
  end.

(** The lines of [ls], counted from [i], without those whose index passes
    the test [P]. *)
Fixpoint drop_where (P : Z -> bool) (i : Z) (ls : list string) : list string :=
  match ls with
  | [] => []
  | x :: rest =>
      if P i then drop_where P (i + 1) rest
      else x :: drop_where P (i + 1) rest
  end.

(** The target [close_section] files a section named [s] under. *)
Definition target_of (s ka : string) (r : record) : outcome target :=
  if String.eqb s "interface" then Ok TInterface
  else obind (peer_key ka r) (fun k => Ok (TPeer k)).

(** The object can file a record under [t]: for a peer, the peer map is
    built. *)
Definition can_file (t : target) (w : WGConfig) : Prop :=
  match t with TInterface => True | TPeer _ => _peers w <> None end.

(** The object after [r] was filed under [t]. *)
Definition filed (t : target) (r : record) (w : WGConfig) : WGConfig :=
  match t with
  | TInterface => with_interface (Some r) w
  | TPeer k => with_peers (option_map (pset k r) (_peers w)) w
  end.

(** The record [close_section] files for [r]: [r] with the raw lines
    [ls[f:l+1]] and the flag read off [first]. *)
Definition closed_record (r : record) (ls : list string) (f l : Z)
  (first : string) : record :=
  rset SECTION_DISABLED (Flag (Py.startswith first MARKER))
    (rset SECTION_RAW (Many (map AStr (Py.slice ls f (l + 1)))) r).

(** A name of the key attribute that a line can start with and that no
    query hides: not empty, without blanks around it, without [=] and [#],
    and starting neither with [[] nor with an underscore. *)
Definition plain_name (ka : string) : Prop :=
  ka <> "" /\ Py.strip ka = ka /\ lacks "=" ka = true /\ lacks "#" ka = true
  /\ Py.startswith ka "[" = false /\ Py.startswith ka "_" = false.

(** ** Lines as the loop of [parse_lines] tells them apart *)

Inductive line_kind : Type :=
| Blank
| Header (name : string)
| Comment
| Attr (name : string) (values : list atom).

(** The branch of the loop of [parse_lines] that a line takes, with the
    name of the section it opens or the name and the values it holds;
    [None] when [parse_line] raises on it. *)
Definition classify (line : string) : option line_kind :=
  let n := normal line in
  if Py.is_empty n then Some Blank
  else if Py.startswith n "[" then Some (Header (section_name line))
  else if Py.startswith n "#" then Some Comment
  else match parse_line n with
       | Ok (a, v, _) => Some (Attr a v)
       | Raise _ => None
       end.

(** The section data [close_section] is called with at a header. *)
Definition closing_data (loc : locals) : section_data :=
  match last_empty_line_in_section loc with
  | Some e => sset SECTION_LASTLINE [AInt (e - 1)] (data loc)
  | None => data loc
  end.

(** The locals after the header of a section named [name], at line [i]. *)
Definition opened (i : Z) (loc : locals) (name : string) : locals :=
  mkLocals (Some name)
    (sset SECTION_LASTLINE [AInt i]
       (sset SECTION_FIRSTLINE
          [AInt (match last_empty_line_in_section loc with
                 | None => i
                 | Some e => e + 1
                 end)] []))
    None.

(** The locals after an attribute line at line [i]. *)
Definition extended (i : Z) (loc : locals) (a : string) (v : list atom)
  : locals :=
  mkLocals (section loc)
    (sset SECTION_LASTLINE [AInt i]
       (sset a
          ((match sget a (data loc) with Some x => x | None => [] end) ++ v)
          (data loc)))
    (last_empty_line_in_section loc).

(** The digits an interpreter converts at most (CPython from 3.11 on). *)
Definition max_str_digits : nat := 4300.

(** Lines that [parse_lines] reads without raising, from a line on: blank
    lines, comments, headers of sections named [interface] or [peer], and
    attribute lines that [parse_line] reads, of at most [max_str_digits]
    characters (so that a number in them is within the limit of a
    conversion), whose name does not start with an underscore and, in a
    peer section, is the key attribute at most once, with one value.
    [peer] tells that the section being read is a peer section, [keyed]
    that it has its key already. *)
Fixpoint well_formed_from (ka : string) (peer keyed : bool)
  (ls : list string) : bool :=
  match ls with
  | [] => true
  | line :: rest =>
      match classify line with
      | Some Blank => well_formed_from ka peer keyed rest
      | Some Comment => well_formed_from ka peer keyed rest
      | Some (Header name) =>
          (String.eqb name "interface" || String.eqb name "peer")
          && well_formed_from ka (String.eqb name "peer") false rest
      | Some (Attr a v) =>
          (String.length line <=? max_str_digits)%nat
          && negb (Py.startswith a "_")
          && (if peer && String.eqb a ka
              then negb keyed && (List.length v =? 1)%nat
              else true)
          && well_formed_from ka peer (keyed || String.eqb a ka) rest
      | None => false
      end
  end.

Definition well_formed (ka : string) (ls : list string) : bool :=
  well_formed_from ka false false ls.

(** The lines [read_from_fileobj] makes of a text. *)
Definition file_lines (text : string) : list string :=
  map Py.rstrip (Py.readlines text).

Definition carriage_return : ascii := "013"%char.

(** A text every line of which ends with a line feed and has no blank
    before it. *)
Definition tidy_text (text : string) : Prop :=
  exists ls, Forall clean_line ls
             /\ text = Py.writelines (map add_newline ls).

(** The locals while well-formed lines are read: every list of values has
    a value; an open section has one integer for first line, is a peer
    section exactly when [peer] says so, and then has at most one value
    under the key attribute, none before the key was read. *)
Definition tidy (ka : string) (peer keyed : bool) (loc : locals) : Prop :=
  all_valued (data loc)
  /\ forall s, section loc = Some s ->
       (exists f0, sget SECTION_FIRSTLINE (data loc) = Some [AInt f0])
       /\ String.eqb s "interface" = negb peer
       /\ (peer = true ->
           (sget ka (data loc) = None
            \/ exists a, sget ka (data loc) = Some [a])
           /\ (keyed = false -> Py.startswith ka "_" = false ->
               sget ka (data loc) = None)).

(** The object while a buffer is parsed: both records are built, and the
    peer records are those of sections of the buffer. *)
Definition parsing (w : WGConfig) : Prop :=
  _peers w <> None /\ _interface w <> None /\ peers_good w.

(** A line of a section that gives the section no key: a blank line, a
    comment, or an attribute other than the key attribute. *)
Definition keyless_line (ka : string) (line : string) : Prop :=
  match classify line with
  | Some Blank => True
  | Some Comment => True
  | Some (Attr a _) => a <> ka
  | _ => False
  end.

(** Where the lines of a section end: at the end of the buffer, or at the
    header of the next section. *)
Definition section_end (post : list string) : Prop :=
  match post with
  | [] => True
  | h :: _ => exists name, classify h = Some (Header name)
  end.

(** Every peer section of the lines has a line of the key attribute.
    [peer] tells that the section being read is a peer section, [keyed]
    that a line of the key attribute was read in it. *)
Fixpoint keyed_sections (ka : string) (peer keyed : bool) (ls : list string)
  : bool :=
  match ls with
  | [] => negb peer || keyed
  | line :: rest =>
      match classify line with
      | Some (Header name) =>
          (negb peer || keyed)
          && keyed_sections ka (negb (String.eqb name "interface")) false rest
      | Some (Attr a _) =>
          keyed_sections ka peer (keyed || String.eqb a ka) rest
      | _ => keyed_sections ka peer keyed rest
      end
  end.

(** The peer map without the entry of [k]. *)
Definition without (k : key) (p : peer_map) : peer_map :=
  filter (fun kv => negb (key_eqb (fst kv) k)) p.

(** Every peer record is filed under the value of its key attribute: under
    [None] exactly when it has none. *)
Definition filed_by_key (w : WGConfig) : Prop :=
  forall p k r, _peers w = Some p -> pget k p = Some r ->
    (k = None <-> rget (keyattr w) r = None).

(** The peer map has a record under [None]. *)
Definition has_keyless (w : WGConfig) : Prop :=
  exists p r, _peers w = Some p /\ pget None p = Some r.

(** The locals while the lines of a peer section without key are read,
    its header being line [n]: no value under the key attribute, a first
    line at or before [n], a last line at or after it, and the cursor of
    empty lines after it. *)
Definition keyless_open (ka : string) (n : Z) (loc : locals) : Prop :=
  section loc = Some "peer"
  /\ sget ka (data loc) = None
  /\ exists f0 rest l0,
       sget SECTION_FIRSTLINE (data loc) = Some (AInt f0 :: rest)
       /\ sget SECTION_LASTLINE (data loc) = Some [AInt l0]
       /\ f0 <= n <= l0
       /\ forall e, last_empty_line_in_section loc = Some e -> n < e.

(** The locals while sections that have their key are read. *)
Definition keyed_open (ka : string) (peer keyed : bool) (loc : locals)
  : Prop :=
  exists s, section loc = Some s
            /\ String.eqb s "interface" = negb peer
            /\ (keyed = true -> sget ka (data loc) <> None).

(** A line that every way of opening a file gives back as it was written:
    no blank at its end, no line feed and no carriage return. *)
Definition portable_line (s : string) : Prop :=
  clean_line s /\ lacks carriage_return s = true.

(** A peer without key attribute, then a peer with its key. *)
Definition keyless_then_keyed : WGConfig :=
  mkWG "PublicKey"
    ["[Interface]"; ""; "[Peer]"; "AllowedIPs = 10.0.0.2/32"; "";
     "[Peer]"; "PublicKey = k"]
    None None.

(** Two peers without key attribute. *)
Definition two_keyless : WGConfig :=
  mkWG "PublicKey"
    ["[Interface]"; ""; "[Peer]"; "AllowedIPs = 10.0.0.2/32"; "";
     "[Peer]"; "AllowedIPs = 10.0.0.3/32"]
    None None.

(** * Properties *)

(** ** The [str] methods and the codec on examples *)

Example strip_ex : Py.strip "  a b  " = "a b".
Proof. reflexivity. Qed.
Example split_ex : Py.split "," "a,,b" = ["a"; ""; "b"].
Proof. reflexivity. Qed.
Example replace_ex : Py.replace "#! " "" "#! #! a#! b#!" = "ab#!".
Proof. reflexivity. Qed.
Example partition_ex : Py.partition "=" "a = b=c" = ("a ", "=", " b=c").
Proof. reflexivity. Qed.
Example int_ex : Py.int "0051" = Some 51.
Proof. reflexivity. Qed.
Example str_ex : Py.str_of_int (-51) = "-51".
Proof. reflexivity. Qed.
Example range_ex : Py.range 2 5 = [2; 3; 4].
Proof. reflexivity. Qed.
Example readlines_ex :
  Py.readlines (String "a" (String Py.newline (String Py.newline "b")))
  = [String "a" (String Py.newline ""); String Py.newline ""; "b"].
Proof. reflexivity. Qed.

Example parse_line_ex1 :
  parse_line "AllowedIPs = 10.0.0.1, 10.0.0.2  # two"
  = Ok ("AllowedIPs", [AStr "10.0.0.1"; AStr "10.0.0.2"], "# two").
Proof. reflexivity. Qed.
Example parse_line_ex2 :
  parse_line "ListenPort=51820" = Ok ("ListenPort", [AInt 51820], "").
Proof. reflexivity. Qed.
Example parse_line_ex3 : parse_line "[Peer]" = Ok ("[Peer]", [AStr ""], "").
Proof. reflexivity. Qed.

(** ** Reasoning about methods *)

Lemma bind_ok {A B} (m : M A) (f : A -> M B) w b w' :
  bind m f w = (Ok b, w') ->
  exists a w1, m w = (Ok a, w1) /\ f a w1 = (Ok b, w').
Proof.
  unfold bind. destruct (m w) as [[a|e] w1]; intros H.
  - exists a, w1. split; [reflexivity | exact H].
  - discriminate H.
Qed.

Lemma bind_run {A B} (m : M A) (f : A -> M B) w a w1 :
  m w = (Ok a, w1) -> bind m f w = f a w1.
Proof. unfold bind. intros ->. reflexivity. Qed.

Lemma lift_ok {A} (o : outcome A) w a w' :
  lift o w = (Ok a, w') -> o = Ok a /\ w' = w.
Proof. unfold lift. intros H. inversion H. split; reflexivity. Qed.

Lemma orelse_ok {A} e (o : option A) w a w' :
  orelse e o w = (Ok a, w') -> o = Some a /\ w' = w.
Proof.
  destruct o; cbn; intros H; inversion H. split; reflexivity.
Qed.

Lemma modify_ok f w u w' : modify f w = (Ok u, w') -> w' = f w.
Proof. unfold modify. intros H. inversion H. reflexivity. Qed.

Lemma gets_ok {A} (f : WGConfig -> A) w a w' :
  gets f w = (Ok a, w') -> a = f w /\ w' = w.
Proof. unfold gets. intros H. inversion H. split; reflexivity. Qed.

Lemma ret_ok {A} (x : A) w a w' : ret x w = (Ok a, w') -> a = x /\ w' = w.
Proof. unfold ret. intros H. inversion H. split; reflexivity. Qed.

Lemma lift_run {A} (o : outcome A) a w : o = Ok a -> lift o w = (Ok a, w).
Proof. intros ->. reflexivity. Qed.

Lemma orelse_run {A} e (o : option A) a w :
  o = Some a -> orelse e o w = (Ok a, w).
Proof. intros ->. reflexivity. Qed.

Lemma gets_run {A} (f : WGConfig -> A) w : gets f w = (Ok (f w), w).
Proof. reflexivity. Qed.

Ltac run_with H := rewrite (bind_run _ _ _ _ _ H); cbv beta iota.

Lemma frame_ret {A} (a : A) : frame (ret a).
Proof. intros w. split; reflexivity. Qed.

Lemma frame_raise {A} e : frame (@raise A e).
Proof. intros w. split; reflexivity. Qed.

Lemma frame_lift {A} (o : outcome A) : frame (lift o).
Proof. intros w. split; reflexivity. Qed.

Lemma frame_orelse {A} e (o : option A) : frame (orelse e o).
Proof. destruct o; intros w; split; reflexivity. Qed.

Lemma frame_gets {A} (f : WGConfig -> A) : frame (gets f).
Proof. intros w. split; reflexivity. Qed.

Lemma frame_with_interface r : frame (modify (with_interface r)).
Proof. intros w. split; reflexivity. Qed.

Lemma frame_with_peers p : frame (modify (with_peers p)).
Proof. intros w. split; reflexivity. Qed.

Lemma frame_bind {A B} (m : M A) (f : A -> M B) :
  frame m -> (forall a, frame (f a)) -> frame (bind m f).
Proof.
  intros Hm Hf w. unfold bind. specialize (Hm w).
  destruct (m w) as [[a|e] w1]; cbn in Hm.
  - destruct (Hf a w1) as [H1 H2]. destruct Hm as [H3 H4].
    split; congruence.
  - exact Hm.
Qed.

Create HintDb frame.
#[local] Hint Resolve frame_ret frame_raise frame_lift frame_orelse frame_gets
  frame_with_interface frame_with_peers : frame.

Ltac frame_steps :=
  repeat first
    [ apply frame_bind; [ | intros ? ]
    | solve [ auto with frame ]
    | match goal with
      | |- frame (match ?x with _ => _ end) => destruct x
      | |- frame (if ?x then _ else _) => destruct x
      end ].

Lemma frame_invalidate_data : frame invalidate_data.
Proof. unfold invalidate_data. frame_steps. Qed.

Lemma frame_store t r : frame (store t r).
Proof. unfold store. destruct t; frame_steps. Qed.
#[local] Hint Resolve frame_store frame_invalidate_data : frame.

Lemma frame_close_section s sd : frame (close_section s sd).
Proof. unfold close_section. frame_steps. Qed.
#[local] Hint Resolve frame_close_section : frame.

Lemma frame_parse_step i raw loc : frame (parse_step i raw loc).
Proof. unfold parse_step. frame_steps. Qed.
#[local] Hint Resolve frame_parse_step : frame.

Lemma frame_parse_loop ls : forall i loc, frame (parse_loop i ls loc).
Proof.
  induction ls as [|line rest IH]; intros i loc; cbn [parse_loop].
  - auto with frame.
  - apply frame_bind; [auto with frame | intros loc'; apply IH].
Qed.
#[local] Hint Resolve frame_parse_loop : frame.

Lemma frame_parse_lines : frame parse_lines.
Proof. unfold parse_lines. frame_steps. Qed.
#[local] Hint Resolve frame_parse_lines : frame.

Lemma frame_interface : frame interface.
Proof. unfold interface. frame_steps. Qed.

Lemma frame_peers : frame peers.
Proof. unfold peers. frame_steps. Qed.
#[local] Hint Resolve frame_interface frame_peers : frame.

(** ** Reading and writing *)

Lemma readlines_line (s rest : string) :
  no_newline s = true ->
  Py.readlines (add_newline s ++ rest)%string
  = add_newline s :: Py.readlines rest.
Proof.
  induction s as [|c s IH]; intros Hs.
  - reflexivity.
  - cbn in Hs. apply andb_true_iff in Hs as [Hc Hs].
    apply negb_true_iff in Hc.
    change (add_newline (String c s) ++ rest)%string
      with (String c (add_newline s ++ rest)).
    cbn [Py.readlines]. rewrite Hc, (IH Hs). reflexivity.
Qed.

Lemma readlines_writelines (l : list string) :
  Forall (fun s => no_newline s = true) l ->
  Py.readlines (Py.writelines (map add_newline l)) = map add_newline l.
Proof.
  induction 1 as [|s l Hs _ IH]; [reflexivity|].
  cbn [map Py.writelines fold_right].
  change (fold_right String.append "" (map add_newline l))
    with (Py.writelines (map add_newline l)).
  rewrite (readlines_line _ _ Hs), IH. reflexivity.
Qed.

Lemma rstrip_add_newline s : Py.rstrip (add_newline s) = Py.rstrip s.
Proof.
  induction s as [|c s IH]; [reflexivity|].
  unfold add_newline in *. cbn. rewrite IH. reflexivity.
Qed.

Lemma rstrip_idempotent s : Py.rstrip (Py.rstrip s) = Py.rstrip s.
Proof.
  induction s as [|c s IH]; [reflexivity|].
  cbn. destruct (Py.is_space c && Py.is_empty (Py.rstrip s)) eqn:E.
  - reflexivity.
  - cbn. rewrite IH, E. reflexivity.
Qed.

Lemma all_chars_rstrip p s :
  Py.all_chars p s = true -> Py.all_chars p (Py.rstrip s) = true.
Proof.
  induction s as [|c s IH]; [reflexivity|].
  cbn. intros H. apply andb_true_iff in H as [Hc Hs].
  destruct (Py.is_space c && Py.is_empty (Py.rstrip s)); [reflexivity|].
  cbn. rewrite Hc, (IH Hs). reflexivity.
Qed.

Lemma readlines_read_line text : Forall read_line (Py.readlines text).
Proof.
  induction text as [|c s IH]; [constructor|].
  cbn. destruct (Ascii.eqb c Py.newline) eqn:E.
  - apply Ascii.eqb_eq in E. subst c. constructor; [|exact IH].
    exists "". split; [reflexivity | right; reflexivity].
  - destruct (Py.readlines s) as [|l ls].
    + constructor; [|constructor].
      exists (String c ""). split; [cbn; rewrite E; reflexivity | left; reflexivity].
    + inversion IH as [|? ? [b [Hb Hl]] Hls]; subst.
      constructor; [|exact Hls].
      exists (String c b). split.
      * cbn. rewrite E. exact Hb.
      * destruct Hl as [-> | ->]; [left | right]; reflexivity.
Qed.

Lemma read_line_rstrip s :
  read_line s ->
  no_newline (Py.rstrip s) = true /\ Py.rstrip (Py.rstrip s) = Py.rstrip s.
Proof.
  intros [b [Hb [-> | ->]]]; rewrite ?rstrip_add_newline;
    (split; [apply all_chars_rstrip; exact Hb | apply rstrip_idempotent]).
Qed.

(** Reading back what was written from lines that were read gives the same
    lines. *)
Lemma read_write_read text :
  let l := map Py.rstrip (Py.readlines text) in
  map Py.rstrip (Py.readlines (Py.writelines (map add_newline l))) = l.
Proof.
  intros l.
  assert (H : Forall (fun s => no_newline s = true /\ Py.rstrip s = s) l).
  { unfold l. apply Forall_map.
    eapply Forall_impl; [|apply readlines_read_line].
    intros s Hs. apply read_line_rstrip. exact Hs. }
  rewrite readlines_writelines.
  - rewrite map_map. clear -H. induction H as [|s l' [_ Hs] _ IH]; [reflexivity|].
    cbn. rewrite rstrip_add_newline, Hs, IH. reflexivity.
  - eapply Forall_impl; [|exact H]. intros s [Hs _]. exact Hs.
Qed.

(** For a text that is parsed without error, writing what was parsed
    gives a text [out] that parses and writes to itself: the second round
    trip reproduces [out] exactly, and leaves the object as the first did. *)
Lemma roundtrip_again (w : WGConfig) (text out : string) (w' : WGConfig) :
  parse_and_write text w = (Ok out, w') ->
  parse_and_write out w = (Ok out, w').
Proof.
  unfold parse_and_write. intros H.
  apply bind_ok in H as (u & w1 & H1 & H).
  apply bind_ok in H as (r & w2 & H2 & H).
  assert (L2 : lines w2 = lines w1).
  { pose proof (frame_interface w1) as [F _]. rewrite H2 in F. exact F. }
  assert (L1 : lines w1 = map Py.rstrip (Py.readlines text)).
  { unfold read_from_fileobj, invalidate_data, bind, modify in H1.
    inversion H1. reflexivity. }
  assert (O : out = Py.writelines (map add_newline (lines w1))).
  { rewrite <- L2. unfold write_to_fileobj, gets, bind, ret in H.
    inversion H. reflexivity. }
  assert (R : read_from_fileobj out w = (Ok tt, w1)).
  { destruct u. rewrite <- H1, O, L1.
    unfold read_from_fileobj, invalidate_data, bind, modify. cbn.
    do 2 f_equal. unfold with_peers, with_interface, with_lines; cbn.
    f_equal. apply read_write_read. }
  rewrite (bind_run _ _ _ _ _ R).
  rewrite (bind_run _ _ _ _ _ H2). exact H.
Qed.

(** ** Invalidation of the derived records *)

Lemma invalidates_bind {A} (m : M A) (f : A -> M unit) :
  (forall a, invalidates (f a)) -> invalidates (bind m f).
Proof.
  intros Hf w w' H. apply bind_ok in H as (a & w1 & _ & H).
  exact (Hf a w1 w' H).
Qed.

Lemma invalidates_raise e : invalidates (raise e).
Proof. intros w w' H. discriminate H. Qed.

Lemma invalidates_invalidate_data : invalidates invalidate_data.
Proof. intros w w' H. inversion H. split; reflexivity. Qed.

Ltac invalidates_steps :=
  repeat first
    [ apply invalidates_invalidate_data
    | apply invalidates_raise
    | apply invalidates_bind; intros ?
    | match goal with
      | |- invalidates (match ?x with _ => _ end) => destruct x
      | |- invalidates (if ?x then _ else _) => destruct x
      end ].

Lemma invalidates_initialize_file c : invalidates (initialize_file c).
Proof. unfold initialize_file. invalidates_steps. Qed.

Lemma invalidates_read_from_fileobj text : invalidates (read_from_fileobj text).
Proof. unfold read_from_fileobj. invalidates_steps. Qed.

Lemma invalidates_add_peer k c : invalidates (add_peer k c).
Proof. unfold add_peer. invalidates_steps. Qed.

Lemma invalidates_del_peer k : invalidates (del_peer k).
Proof. unfold del_peer. invalidates_steps. Qed.

Lemma invalidates_add_attr k attr v c b : invalidates (add_attr k attr v c b).
Proof. unfold add_attr. invalidates_steps. Qed.

Lemma invalidates_del_attr k attr v b : invalidates (del_attr k attr v b).
Proof. unfold del_attr. invalidates_steps. Qed.

Lemma invalidates_enable_peer k : invalidates (enable_peer k).
Proof. unfold enable_peer. invalidates_steps. Qed.

(** [disable_peer] either returns early, on a peer that is disabled, with
    the object as the read of [peers] left it, or leaves the records
    unbuilt. *)
Lemma disable_peer_returns k w w' :
  disable_peer k w = (Ok tt, w') ->
  unbuilt w'
  \/ (exists p, peers w = (Ok p, w')
                /\ get_peer_enabled k w' = (Ok false, w')).
Proof.
  unfold disable_peer. intros H.
  apply bind_ok in H as (p & w1 & Hp & H).
  destruct (negb (pmem k p)); [discriminate H|].
  apply bind_ok in H as (en & w2 & Hen & H).
  assert (E : w2 = w1).
  { unfold get_peer_enabled, get_peer in Hen.
    assert (Hc : peers w1 = (Ok p, w1)).
    { unfold peers, bind, gets in Hp |- *.
      destruct (_peers w) as [p0|] eqn:Ew.
      - inversion Hp; subst. rewrite Ew. reflexivity.
      - fold (bind parse_lines (fun _ => c' <- gets _peers ;; orelse TypeError c')) in Hp.
        apply bind_ok in Hp as (u & w3 & _ & Hp).
        unfold bind, gets in Hp. destruct (_peers w3) as [p3|] eqn:E3;
          cbn in Hp; inversion Hp; subst. rewrite E3. reflexivity. }
    apply bind_ok in Hen as (r & w3 & Hr & Hen).
    rewrite (bind_run _ _ _ _ _ Hc) in Hr.
    destruct (pget k p); inversion Hr; subst. inversion Hen. reflexivity. }
  subst w2. destruct en; cbn [negb] in H.
  - left. revert H. generalize w1 w'. fold (invalidates
      (match pget k p with
       | None => raise KeyError
       | Some r =>
           vf <- orelse KeyError (rget SECTION_FIRSTLINE r) ;;
           vl <- orelse KeyError (rget SECTION_LASTLINE r) ;;
           ls <- gets lines ;;
           result <- lift (edit_section (String.append MARKER) vf vl 0 ls) ;;
           modify (with_lines result) ;;; invalidate_data
       end)).
    invalidates_steps.
  - right. inversion H; subst. exists p. split; assumption.
Qed.

(** C2, as stated, fails: [disable_peer] on a peer that is already disabled
    returns with the records built. *)
Lemma disable_peer_keeps_records :
  ~ (forall op w w', run op w = (Ok tt, w') -> unbuilt w').
Proof.
  intros H.
  specialize (H (DisablePeer (Some (AStr "k"))) disabled_config _ eq_refl).
  destruct H as [_ H]. vm_compute in H. discriminate H.
Qed.

(** C2 (amended). Every operation that edits the lines and returns has left
    the interface and peer records unbuilt, so that the next read builds
    them from the lines; the one exception is [disable_peer] on a peer that
    is already disabled, which returns with the lines untouched and the
    records as its own read of [peers] left them. *)
Theorem mutators_invalidate (op : operation) (w w' : WGConfig) :
  run op w = (Ok tt, w') ->
  unbuilt w'
  \/ (exists k p, op = DisablePeer k
                  /\ peers w = (Ok p, w')
                  /\ lines w' = lines w
                  /\ get_peer_enabled k w' = (Ok false, w')).
Proof.
  destruct op; cbn [run]; intros H.
  - left. exact (invalidates_initialize_file _ _ _ H).
  - left. exact (invalidates_read_from_fileobj _ _ _ H).
  - left. exact (invalidates_add_peer _ _ _ _ H).
  - left. exact (invalidates_del_peer _ _ _ H).
  - left. exact (invalidates_add_attr _ _ _ _ _ _ _ H).
  - left. exact (invalidates_del_attr _ _ _ _ _ _ H).
  - left. exact (invalidates_enable_peer _ _ _ H).
  - destruct (disable_peer_returns _ _ _ H) as [U | (p & Hp & He)].
    + left. exact U.
    + right. exists k, p. repeat split; try assumption.
      pose proof (frame_peers w) as [F _]. rewrite Hp in F. exact F.
Qed.

Lemma mutators_invalidate_witness :
  let w := mkWG "PublicKey" sample_lines None None in
  let op := AddAttr None "ListenPort" (AInt 51820) None false in
  run op w = (Ok tt, snd (run op w))
  /\ (unbuilt (snd (run op w))
      \/ (exists k p, op = DisablePeer k
                      /\ peers w = (Ok p, snd (run op w))
                      /\ lines (snd (run op w)) = lines w
                      /\ get_peer_enabled k (snd (run op w))
                         = (Ok false, snd (run op w)))).
Proof.
  intros w op. split.
  - vm_compute. reflexivity.
  - apply (mutators_invalidate op w). vm_compute. reflexivity.
Defined.

(** With the records unbuilt, the object is its lines and its key
    attribute: what a read builds depends on nothing else. *)
Lemma unbuilt_object w :
  unbuilt w -> w = mkWG (keyattr w) (lines w) None None.
Proof. destruct w; unfold unbuilt; cbn. intros [-> ->]. reflexivity. Qed.

(** ** Failures *)

(** C3 (the code at the failing input). The read that meets [[Foo]] raises
    [ValueError]; the object is left with the records of the sections closed
    before it, and the next queries return them without raising. *)
Theorem parse_failure_leaves_partial_model :
  exists w1,
    get_peers true false false unsupported_config = (Raise ValueError, w1)
    /\ fst (get_peers true false false w1) = Ok (inl [Some (AStr "k")])
    /\ fst (get_interface false w1) = Ok [("ListenPort", One (AInt 1))].
Proof.
  eexists. split; [vm_compute; reflexivity|].
  split; vm_compute; reflexivity.
Qed.

(** C4 (the code at the failing input). [add_peer] with a leading comment
    that does not start with [#] raises [ValueError] after it has appended
    the empty separator line. *)
Theorem add_peer_bad_comment_appends_blank :
  let w := mkWG "PublicKey" ["[Interface]"] None None in
  exists w1,
    add_peer (Some (AStr "k")) (Some "note") w = (Raise ValueError, w1)
    /\ lines w1 = ["[Interface]"; ""].
Proof.
  eexists. split; vm_compute; reflexivity.
Qed.

(** The same on every object: whenever the peer is new and the comment is
    refused, the lines have grown by the separator. *)
Lemma add_peer_bad_comment k c e w p w0 :
  peers w = (Ok p, w0) -> pmem k p = false ->
  check_comment c = Raise e ->
  exists w1, add_peer k (Some c) w = (Raise e, w1)
             /\ lines w1 = lines w ++ [""].
Proof.
  intros Hp Hk Hc. unfold add_peer.
  rewrite (bind_run _ _ _ _ _ Hp), Hk.
  unfold handle_leading_comment, append_line, bind, modify, lift.
  rewrite Hc. eexists. split; [reflexivity|]. cbn.
  pose proof (frame_peers w) as [F _]. rewrite Hp in F. cbn in F.
  rewrite F. reflexivity.
Qed.

(** ** The attribute codec *)

(** C8 (the code at the failing input). The value part made of the one
    character U+00BD passes [isnumeric], is not a decimal digit, and
    [parse_line] raises [ValueError] instead of keeping it as a string. *)
Theorem parse_line_fraction_raises :
  let line := ("MTU = " ++ String one_half "")%string in
  value_part line = String one_half ""
  /\ Py.all_chars Py.is_decimal (value_part line) = false
  /\ parse_line line = Raise ValueError.
Proof. repeat split. Qed.

Lemma int_digits_some s : forall acc,
  Py.all_chars Py.is_decimal s = true -> exists n, Py.int_digits acc s = Some n.
Proof.
  induction s as [|c s IH]; intros acc H; cbn in *.
  - eauto.
  - apply andb_true_iff in H as [Hc Hs]. rewrite Hc. apply IH, Hs.
Qed.

Lemma all_decimal_numeric s :
  Py.all_chars Py.is_decimal s = true ->
  Py.all_chars Py.is_numeric_char s = true.
Proof.
  induction s as [|c s IH]; cbn; [reflexivity|]. intros H.
  apply andb_true_iff in H as [Hc Hs]. rewrite (IH Hs).
  unfold Py.is_numeric_char. rewrite Hc. reflexivity.
Qed.

(** Outside that case the codec does what C8 says: a value part of decimal
    digits is one integer, a value part that [isnumeric] refuses is split on
    commas into trimmed strings. *)
Lemma parse_line_values line :
  (Py.is_empty (value_part line) = false ->
   Py.all_chars Py.is_decimal (value_part line) = true ->
   exists n, Py.int (value_part line) = Some n
             /\ parse_line line
                = Ok (name_part line, [AInt n], comment_part line))
  /\ (Py.isnumeric (value_part line) = false ->
      parse_line line
      = Ok (name_part line,
            map (fun item => AStr (Py.strip item))
              (Py.split "," (value_part line)),
            comment_part line)).
Proof.
  unfold parse_line, value_part, name_part, comment_part.
  destruct (Py.partition "=" line) as [[attr m] value].
  destruct (Py.partition "#" value) as [[p0 p1] p2].
  split.
  - intros Hne Hd. unfold Py.isnumeric, Py.int. rewrite Hne.
    rewrite (all_decimal_numeric _ Hd). cbn.
    destruct (int_digits_some _ 0 Hd) as [n Hn]. rewrite Hn.
    exists n. split; reflexivity.
  - intros ->. reflexivity.
Qed.

(** ** Dictionaries *)

Lemma atom_eqb_eq a b : atom_eqb a b = true <-> a = b.
Proof.
  destruct a, b; cbn; split; intros H; try discriminate; try congruence.
  - apply Z.eqb_eq in H. congruence.
  - inversion H. apply Z.eqb_refl.
  - apply String.eqb_eq in H. congruence.
  - inversion H. apply String.eqb_refl.
Qed.

Lemma key_eqb_eq a b : key_eqb a b = true <-> a = b.
Proof.
  destruct a, b; cbn; split; intros H; try discriminate; try congruence.
  - apply atom_eqb_eq in H. congruence.
  - inversion H. apply atom_eqb_eq. reflexivity.
Qed.

Section DictFacts.
Context {K V : Type} (eqb : K -> K -> bool).
Hypothesis eqb_eq : forall a b, eqb a b = true <-> a = b.

Lemma eqb_refl a : eqb a a = true.
Proof. apply eqb_eq. reflexivity. Qed.

Lemma eqb_neq a b : a <> b -> eqb a b = false.
Proof.
  intros H. destruct (eqb a b) eqn:E; [|reflexivity].
  apply eqb_eq in E. contradiction.
Qed.

Lemma get_set_same k (v : V) d : Dict.get eqb k (Dict.set eqb k v d) = Some v.
Proof.
  induction d as [|[k' v'] d IH]; cbn.
  - rewrite eqb_refl. reflexivity.
  - destruct (eqb k k') eqn:E; cbn; rewrite E; [reflexivity | exact IH].
Qed.

Lemma get_set_other k k' (v : V) d :
  k <> k' -> Dict.get eqb k (Dict.set eqb k' v d) = Dict.get eqb k d.
Proof.
  intros N. induction d as [|[k0 v0] d IH]; cbn.
  - rewrite (eqb_neq _ _ N). reflexivity.
  - destruct (eqb k' k0) eqn:E; cbn.
    + apply eqb_eq in E. subst k0. rewrite (eqb_neq _ _ N). reflexivity.
    + rewrite IH. reflexivity.
Qed.

Lemma set_set k (v v' : V) d :
  Dict.set eqb k v' (Dict.set eqb k v d) = Dict.set eqb k v' d.
Proof.
  induction d as [|[k0 v0] d IH]; cbn.
  - rewrite eqb_refl. reflexivity.
  - destruct (eqb k k0) eqn:E; cbn; rewrite E; [reflexivity|].
    rewrite IH. reflexivity.
Qed.

End DictFacts.

Lemma rget_rset_same k v d : rget k (rset k v d) = Some v.
Proof. apply (get_set_same String.eqb String.eqb_eq). Qed.

Lemma rget_rset_other k k' v d : k <> k' -> rget k (rset k' v d) = rget k d.
Proof. apply (get_set_other String.eqb String.eqb_eq). Qed.

Lemma sget_sset_same k v d : sget k (sset k v d) = Some v.
Proof. apply (get_set_same String.eqb String.eqb_eq). Qed.

Lemma sget_sset_other k k' v d : k <> k' -> sget k (sset k' v d) = sget k d.
Proof. apply (get_set_other String.eqb String.eqb_eq). Qed.

Lemma pget_pset_same k v d : pget k (pset k v d) = Some v.
Proof. apply (get_set_same key_eqb key_eqb_eq). Qed.

Lemma pget_pset_other k k' v d : k <> k' -> pget k (pset k' v d) = pget k d.
Proof. apply (get_set_other key_eqb key_eqb_eq). Qed.

Lemma pset_pset k v v' d : pset k v' (pset k v d) = pset k v' d.
Proof. apply (set_set key_eqb key_eqb_eq). Qed.

(** Reading [peers] when the records are built (or once they have been). *)
Lemma peers_built w p : _peers w = Some p -> peers w = (Ok p, w).
Proof. intros H. unfold peers, bind, gets. rewrite H. reflexivity. Qed.

Lemma peers_ok w p w1 : peers w = (Ok p, w1) -> _peers w1 = Some p.
Proof.
  unfold peers. intros H. apply bind_ok in H as (c & w0 & Hc & H).
  inversion Hc; subst. destruct (_peers w0) as [p0|] eqn:E.
  - inversion H; subst. exact E.
  - apply bind_ok in H as (u & w2 & _ & H).
    apply bind_ok in H as (c' & w3 & Hc' & H). inversion Hc'; subst.
    destruct (_peers w3) eqn:E3; inversion H; subst. exact E3.
Qed.

(** ** Peers without a key *)

Ltac run_methods :=
  unfold bind, orelse, lift, gets, modify, ret, raise, invalidate_data;
  cbn.

Ltac innermost_case :=
  match goal with
  | |- context [match ?x with _ => _ end] =>
      lazymatch x with
      | context [match _ with _ => _ end] => fail
      | _ => destruct x eqn:?
      end
  end.

Ltac split_matches :=
  repeat (innermost_case; cbn; try (split; reflexivity); try reflexivity).

Lemma get_peer_enabled_built k w p r :
  _peers w = Some p -> pget k p = Some r ->
  get_peer_enabled k w = (Ok (negb (is_disabled r)), w).
Proof.
  intros H E. unfold get_peer_enabled, get_peer.
  unfold bind at 1. rewrite (bind_run _ _ _ _ _ (peers_built _ _ H)), E.
  reflexivity.
Qed.

Lemma same_lookup_get_peer k d w1 w2 :
  same_lookup k w1 w2 -> fst (get_peer k d w1) = fst (get_peer k d w2).
Proof.
  intros (_ & p1 & p2 & H1 & H2 & E). unfold get_peer.
  rewrite (bind_run _ _ _ _ _ (peers_built _ _ H1)).
  rewrite (bind_run _ _ _ _ _ (peers_built _ _ H2)).
  rewrite E. destruct (pget k p2); reflexivity.
Qed.

Lemma same_lookup_get_peer_enabled k w1 w2 :
  same_lookup k w1 w2 ->
  fst (get_peer_enabled k w1) = fst (get_peer_enabled k w2).
Proof.
  intros (_ & p1 & p2 & H1 & H2 & E). unfold get_peer_enabled, get_peer.
  unfold bind at 1 3.
  rewrite (bind_run _ _ _ _ _ (peers_built _ _ H1)).
  rewrite (bind_run _ _ _ _ _ (peers_built _ _ H2)).
  rewrite E. destruct (pget k p2); reflexivity.
Qed.

Lemma same_lookup_del_peer k w1 w2 :
  same_lookup k w1 w2 ->
  fst (del_peer k w1) = fst (del_peer k w2)
  /\ lines (snd (del_peer k w1)) = lines (snd (del_peer k w2)).
Proof.
  intros (L & p1 & p2 & H1 & H2 & E). unfold del_peer.
  rewrite (bind_run _ _ _ _ _ (peers_built _ _ H1)).
  rewrite (bind_run _ _ _ _ _ (peers_built _ _ H2)).
  rewrite E. destruct (pget k p2) as [r|]; [|split; [reflexivity | exact L]].
  destruct w1 as [ka1 l1 i1 q1], w2 as [ka2 l2 i2 q2]; cbn in L; subst l2.
  run_methods. split_matches.
Qed.

Lemma same_lookup_enable_peer k w1 w2 :
  same_lookup k w1 w2 ->
  fst (enable_peer k w1) = fst (enable_peer k w2)
  /\ lines (snd (enable_peer k w1)) = lines (snd (enable_peer k w2)).
Proof.
  intros (L & p1 & p2 & H1 & H2 & E). unfold enable_peer.
  rewrite (bind_run _ _ _ _ _ (peers_built _ _ H1)).
  rewrite (bind_run _ _ _ _ _ (peers_built _ _ H2)).
  rewrite E. destruct (pget k p2) as [r|]; [|split; [reflexivity | exact L]].
  destruct w1 as [ka1 l1 i1 q1], w2 as [ka2 l2 i2 q2]; cbn in L; subst l2.
  run_methods. split_matches.
Qed.

Lemma same_lookup_disable_peer k w1 w2 :
  same_lookup k w1 w2 ->
  fst (disable_peer k w1) = fst (disable_peer k w2)
  /\ lines (snd (disable_peer k w1)) = lines (snd (disable_peer k w2)).
Proof.
  intros (L & p1 & p2 & H1 & H2 & E). unfold disable_peer.
  rewrite (bind_run _ _ _ _ _ (peers_built _ _ H1)).
  rewrite (bind_run _ _ _ _ _ (peers_built _ _ H2)).
  unfold pmem, Dict.mem. fold pget. rewrite E.
  destruct (pget k p2) as [r|] eqn:E2; cbn [negb];
    [|split; [reflexivity | exact L]].
  rewrite (bind_run _ _ _ _ _ (get_peer_enabled_built _ _ _ _ H1 E)).
  rewrite (bind_run _ _ _ _ _ (get_peer_enabled_built _ _ _ _ H2 E2)).
  destruct (negb (is_disabled r)); cbn [negb]; [|split; [reflexivity | exact L]].
  destruct w1 as [ka1 l1 i1 q1], w2 as [ka2 l2 i2 q2]; cbn in L; subst l2.
  run_methods. split_matches.
Qed.

(** C9, as stated, fails: the key [None] is a key the lookups accept, and it
    leads to the peer without a key attribute. *)
Lemma null_key_lookup_matches :
  fst (get_peer None false keyless_config)
  = Ok [("AllowedIPs", One (AStr "10.0.0.2/32"))]
  /\ fst (get_peer_enabled None keyless_config) = Ok true
  /\ del_peer None keyless_config
     = (Ok tt, mkWG "PublicKey" ["[Interface]"] None None)
  /\ fst (enable_peer None keyless_config) = Ok tt
  /\ disable_peer None keyless_config
     = (Ok tt,
        mkWG "PublicKey"
          ["[Interface]"; ""; "#! [Peer]"; "#! AllowedIPs = 10.0.0.2/32"]
          None None).
Proof. repeat split. Qed.

(** ** Indices that are positions *)

Lemma position_nat {A} (l : list A) (n : nat) :
  Py.position l (Z.of_nat n)
  = if (n <? List.length l)%nat then Some n else None.
Proof.
  unfold Py.position, Py.len.
  destruct (Z.of_nat n <? 0) eqn:E; [apply Z.ltb_lt in E; lia|].
  destruct (n <? List.length l)%nat eqn:E2.
  - apply Nat.ltb_lt in E2.
    replace (0 <=? Z.of_nat n) with true by (symmetry; apply Z.leb_le; lia).
    replace (Z.of_nat n <? Z.of_nat (List.length l)) with true
      by (symmetry; apply Z.ltb_lt; lia).
    cbn. rewrite Nat2Z.id. reflexivity.
  - apply Nat.ltb_ge in E2.
    replace (Z.of_nat n <? Z.of_nat (List.length l)) with false
      by (symmetry; apply Z.ltb_ge; lia).
    rewrite andb_false_r. reflexivity.
Qed.

Lemma index_nat {A} (l : list A) (n : nat) :
  Py.index l (Z.of_nat n) = nth_error l n.
Proof.
  unfold Py.index. rewrite position_nat.
  destruct (n <? List.length l)%nat eqn:E; [reflexivity|].
  apply Nat.ltb_ge in E. symmetry. apply nth_error_None. exact E.
Qed.

Lemma delete_nat {A} (l : list A) (n : nat) l' :
  Py.delete l (Z.of_nat n) = Some l' ->
  (n < List.length l)%nat /\ l' = firstn n l ++ skipn (S n) l.
Proof.
  unfold Py.delete. rewrite position_nat.
  destruct (n <? List.length l)%nat eqn:E; [|discriminate].
  apply Nat.ltb_lt in E. intros H. inversion H. split; [exact E | reflexivity].
Qed.

(** ** Leading comments in [del_attr] *)

(** The loop entered at line [n] removes a run of [run] comment lines that
    ends at [n]; the run never includes line 0, and it stops above line 0
    only at a line that is not a comment. *)
Lemma remove_comments_above_spec (n : nat) : forall w w',
  remove_comments_above n w = (Ok tt, w') ->
  exists run : nat,
    (run <= n)%nat
    /\ lines w' = firstn (S n - run) (lines w) ++ skipn (S n) (lines w)
    /\ (forall j, (S n - run <= j <= n)%nat -> comment_at (lines w) j)
    /\ ((run < n)%nat -> no_comment_at (lines w) (n - run)).
Proof.
  induction n as [|n IH]; intros w w' H.
  - apply ret_ok in H as [_ ->]. exists O. split; [lia|]. split.
    + cbn [Nat.sub]. symmetry. apply firstn_skipn.
    + split; [intros j Hj; lia | intros Hj; lia].
  - cbn [remove_comments_above] in H.
    apply bind_ok in H as (ls & w0 & Hls & H).
    apply gets_ok in Hls as [-> ->].
    apply bind_ok in H as (line & w0 & Hl & H).
    apply orelse_ok in Hl as [Hl ->]. rewrite index_nat in Hl.
    destruct (is_comment_line line) eqn:Hc.
    + apply bind_ok in H as (ls' & w0 & Hd & H).
      apply orelse_ok in Hd as [Hd ->].
      apply delete_nat in Hd as [Hlen ->].
      apply bind_ok in H as (u & w1 & Hm & H). apply modify_ok in Hm as ->.
      apply IH in H as (run & Hr & HL & Hcs & Hmax).
      change (lines (with_lines ?l w)) with l in *.
      assert (F : forall j, (j <= n)%nat ->
                  nth_error (firstn (S n) (lines w) ++ skipn (S (S n)) (lines w)) j
                  = nth_error (lines w) j).
      { intros j Hj. rewrite nth_error_app1 by (rewrite length_firstn; lia).
        rewrite nth_error_firstn.
        replace (j <? S n)%nat with true by (symmetry; apply Nat.ltb_lt; lia).
        reflexivity. }
      exists (S run). split; [lia|]. split; [|split].
      * rewrite HL. f_equal.
        -- rewrite firstn_app, firstn_firstn, length_firstn.
           replace (S n - run - Nat.min (S n) (List.length (lines w)))%nat
             with O by lia.
           cbn [firstn]. rewrite app_nil_r. f_equal. lia.
        -- rewrite skipn_app, length_firstn.
           replace (S n - Nat.min (S n) (List.length (lines w)))%nat
             with O by lia.
           rewrite skipn_firstn_comm. replace (S n - S n)%nat with O by lia.
           reflexivity.
      * intros j Hj. destruct (Nat.eq_dec j (S n)) as [->|Nj].
        -- exists line. split; assumption.
        -- destruct (Hcs j ltac:(lia)) as (x & Hx & Cx).
           exists x. split; [|exact Cx]. rewrite <- F by lia. exact Hx.
      * intros Hlt. destruct (Hmax ltac:(lia)) as (x & Hx & Cx).
        exists x. split; [|exact Cx].
        replace (S n - S run)%nat with (n - run)%nat by lia.
        rewrite <- F by lia. exact Hx.
    + apply ret_ok in H as [_ ->]. exists O. split; [lia|]. split; [|split].
      * replace (S (S n) - 0)%nat with (S (S n)) by lia.
        symmetry. apply firstn_skipn.
      * intros j Hj. lia.
      * intros _. exists line. split; [|exact Hc].
        replace (S n - 0)%nat with (S n) by lia. exact Hl.
Qed.

Lemma frame_get_sectioninfo k : frame (get_sectioninfo k).
Proof.
  unfold get_sectioninfo. destruct k; frame_steps.
Qed.

Lemma find_matches_filter attr v ls idx : forall found,
  find_matches attr v ls idx = Ok found ->
  found = filter (line_matches attr v ls) idx.
Proof.
  induction idx as [|i idx IH]; intros found H; cbn in H.
  - inversion H. reflexivity.
  - cbn [filter]. unfold line_matches at 1.
    destruct (Py.index ls i) as [line|]; [|discriminate].
    destruct (parse_line line) as [[[a vs] c]|]; [|discriminate]. cbn in H.
    destruct (find_matches attr v ls idx) as [found'|]; [|discriminate].
    cbn in H. inversion H. rewrite (IH found' eq_refl). reflexivity.
Qed.

(** C10. When [del_attr] is asked to remove the leading comments, it first
    edits the matched lines as it does without that request, then removes
    the run of comment lines that ends right above the place [m] of the
    first matched line. The run is as long as it can be, except that it
    never reaches line 0 of the buffer: line 0 stays, even when it is a
    comment directly above the first matched line. *)
Theorem del_attr_leading_comments
  (k : key) (attr : string) (v : option atom) (w w' : WGConfig) :
  del_attr k attr v true w = (Ok tt, w') ->
  exists (wb : WGConfig) (m : Z) (run : nat),
    del_attr k attr v false w = (Ok tt, wb)
    /\ first_matched_line k attr v w m
    /\ let n := Z.to_nat (m - 1) in
       (run <= n)%nat
       /\ lines w' = firstn (S n - run) (lines wb) ++ skipn (S n) (lines wb)
       /\ (forall j, (S n - run <= j <= n)%nat -> comment_at (lines wb) j)
       /\ ((run < n)%nat -> no_comment_at (lines wb) (n - run))
       /\ nth_error (lines w') 0 = nth_error (lines wb) 0.
Proof.
  unfold del_attr. intros H.
  apply bind_ok in H as ([vf vl] & w0 & Hs & H).
  apply bind_ok in H as (lo & w1 & Hlo & H). apply lift_ok in Hlo as [Hlo ->].
  apply bind_ok in H as (hi & w1 & Hhi & H). apply lift_ok in Hhi as [Hhi ->].
  apply bind_ok in H as (ls & w1 & Hls & H). apply gets_ok in Hls as [-> ->].
  apply bind_ok in H as (found & w1 & Hf & H). apply lift_ok in Hf as [Hf ->].
  destruct found as [|m rest]; [discriminate H|].
  apply bind_ok in H as (u1 & w1 & Hd & H).
  apply bind_ok in H as (u2 & w2 & Hr & H). destruct u2.
  apply remove_comments_above_spec in Hr as (run & Hrn & HL & Hcs & Hmax).
  assert (E' : lines w' = lines w2).
  { unfold invalidate_data, bind, modify in H. inversion H. reflexivity. }
  assert (F : lines w0 = lines w).
  { pose proof (frame_get_sectioninfo k w) as [F _]. rewrite Hs in F. exact F. }
  exists (with_peers None (with_interface None w1)), m, run.
  split; [|split].
  - rewrite (bind_run _ _ _ _ _ Hs). unfold bind at 1, lift at 1. rewrite Hlo.
    unfold bind at 1, lift at 1. rewrite Hhi.
    unfold bind at 1, gets at 1. unfold bind at 1, lift at 1. rewrite Hf.
    rewrite (bind_run _ _ _ _ _ Hd). destruct u1. reflexivity.
  - exists vf, vl, w0, lo, hi, rest. repeat split; try assumption.
    rewrite <- F. symmetry. apply find_matches_filter. exact Hf.
  - cbn zeta. change (lines (with_peers None (with_interface None w1)))
      with (lines w1).
    rewrite E'. repeat split; try assumption.
    rewrite HL. destruct (lines w1) as [|x l]; [|].
    + rewrite firstn_nil, skipn_nil. reflexivity.
    + destruct (S (Z.to_nat (m - 1)) - run)%nat as [|q] eqn:Q; [lia|].
      reflexivity.
Qed.

Lemma del_attr_leading_comments_witness :
  let w := mkWG "PublicKey" ["# about A"; "A = 1"; "[Interface]"] None None in
  let w' := mkWG "PublicKey" ["# about A"; "[Interface]"] None None in
  del_attr None "A" None true w = (Ok tt, w')
  /\ exists wb m run,
       del_attr None "A" None false w = (Ok tt, wb)
       /\ first_matched_line None "A" None w m
       /\ let n := Z.to_nat (m - 1) in
          (run <= n)%nat
          /\ lines w' = firstn (S n - run) (lines wb) ++ skipn (S n) (lines wb)
          /\ (forall j, (S n - run <= j <= n)%nat -> comment_at (lines wb) j)
          /\ ((run < n)%nat -> no_comment_at (lines wb) (n - run))
          /\ nth_error (lines w') 0 = nth_error (lines wb) 0.
Proof.
  intros w w'. split.
  - vm_compute. reflexivity.
  - apply (del_attr_leading_comments None "A" None w w').
    vm_compute. reflexivity.
Defined.

(** ** Adding a value *)

Lemma range_nil a b : b <= a -> Py.range a b = [].
Proof.
  intros H. unfold Py.range. replace (Z.to_nat (b - a)) with O by lia.
  reflexivity.
Qed.


Lemma range_In a b j : In j (Py.range a b) <-> a <= j < b.
Proof.
  unfold Py.range. rewrite in_map_iff. split.
  - intros (k & <- & Hk). apply in_seq in Hk. lia.
  - intros H. exists (Z.to_nat (j - a)). split; [lia|].
    apply in_seq. lia.
Qed.




Lemma position_in {A} (l : list A) (i : Z) :
  0 <= i < Py.len l -> Py.position l i = Some (Z.to_nat i).
Proof.
  intros H. unfold Py.position.
  replace (i <? 0) with false by (symmetry; apply Z.ltb_ge; lia).
  replace (0 <=? i) with true by (symmetry; apply Z.leb_le; lia).
  replace (i <? Py.len l) with true by (symmetry; apply Z.ltb_lt; lia).
  reflexivity.
Qed.

Lemma clamp_in {A} (l : list A) (i : Z) :
  0 <= i <= Py.len l -> Py.clamp l i = Z.to_nat i.
Proof.
  intros H. unfold Py.clamp.
  replace (i <? 0) with false by (symmetry; apply Z.ltb_ge; lia).
  f_equal. lia.
Qed.


Lemma index_split {A} (l : list A) (i : Z) (x : A) :
  0 <= i -> Py.index l i = Some x ->
  exists pre post, l = pre ++ x :: post /\ Py.len pre = i.
Proof.
  intros Hi H. unfold Py.index in H.
  destruct (Py.position l i) as [n|] eqn:P; [|discriminate].
  unfold Py.position in P.
  replace (i <? 0) with false in P by (symmetry; apply Z.ltb_ge; lia).
  destruct ((0 <=? i) && (i <? Py.len l)); inversion P; subst n.
  destruct (nth_error_split _ _ H) as (pre & post & E & L).
  exists pre, post. split; [exact E|]. unfold Py.len. lia.
Qed.






(** ** Parsing two buffers that differ by disable markers *)

Lemma similar_refl r : similar r r.
Proof. intros name _ _. reflexivity. Qed.

Lemma similar_rset_raw r r1 v v1 :
  similar r r1 -> similar (rset SECTION_RAW v r) (rset SECTION_RAW v1 r1).
Proof.
  intros H name N1 N2. rewrite !rget_rset_other by exact N1. apply H; assumption.
Qed.

Lemma similar_rset_disabled r r1 v v1 :
  similar r r1 ->
  similar (rset SECTION_DISABLED v r) (rset SECTION_DISABLED v1 r1).
Proof.
  intros H name N1 N2. rewrite !rget_rset_other by exact N2. apply H; assumption.
Qed.

Lemma peers_similar_pset k r r1 p p1 :
  similar r r1 -> peers_similar p p1 ->
  peers_similar (pset k r p) (pset k r1 p1).
Proof.
  intros Hr Hp k'. destruct (key_eqb k' k) eqn:E.
  - apply key_eqb_eq in E. subst k'. rewrite !pget_pset_same. exact Hr.
  - assert (N : k' <> k).
    { intros ->. rewrite (proj2 (key_eqb_eq k k) eq_refl) in E. discriminate. }
    rewrite !pget_pset_other by exact N. apply Hp.
Qed.

Lemma sim_ret {A} (a : A) : sim (ret a) (ret a).
Proof. intros w w1 H. split; [reflexivity | exact H]. Qed.

Lemma sim_raise {A} e : sim (@raise A e) (raise e).
Proof. intros w w1 H. split; [reflexivity | exact H]. Qed.

Lemma sim_lift {A} (o : outcome A) : sim (lift o) (lift o).
Proof. intros w w1 H. split; [reflexivity | exact H]. Qed.

Lemma sim_orelse {A} e (o : option A) : sim (orelse e o) (orelse e o).
Proof. destruct o; intros w w1 H; (split; [reflexivity | exact H]). Qed.

Lemma sim_keyattr : sim (gets keyattr) (gets keyattr).
Proof.
  intros w w1 H. split; [|exact H]. cbn. destruct H as [H _]. rewrite H.
  reflexivity.
Qed.

Lemma sim_bind {A B} (m m1 : M A) (f f1 : A -> M B) :
  sim m m1 -> (forall a, sim (f a) (f1 a)) -> sim (bind m f) (bind m1 f1).
Proof.
  intros Hm Hf w w1 H. unfold bind. destruct (Hm w w1 H) as [E H'].
  destruct (m w) as [[a|e] w']; destruct (m1 w1) as [[a1|e1] w1'];
    cbn in E, H'; try discriminate.
  - inversion E. subst a1. apply Hf, H'.
  - inversion E. subst e1. split; [reflexivity | exact H'].
Qed.

Lemma sim_store t r r1 : similar r r1 -> sim (store t r) (store t r1).
Proof.
  intros Hr w w1 (Hk & Hl & Hi & Hp). destruct t as [|k]; cbn.
  - split; [reflexivity|]. repeat split; assumption.
  - unfold store, bind, gets, modify, raise.
    destruct (_peers w) as [p|] eqn:E, (_peers w1) as [p1|] eqn:E1;
      cbn in Hp; try contradiction; cbn.
    + split; [reflexivity|]. repeat split; try assumption. cbn.
      apply peers_similar_pset; assumption.
    + split; [reflexivity|]. repeat split; try assumption; cbn.
      * rewrite E, E1. exact I.
Qed.

Lemma clamp_length {A} (l l1 : list A) i :
  List.length l = List.length l1 -> Py.clamp l i = Py.clamp l1 i.
Proof. intros H. unfold Py.clamp, Py.len. rewrite H. reflexivity. Qed.

Lemma slice_length {A} (l l1 : list A) a b :
  List.length l = List.length l1 ->
  List.length (Py.slice l a b) = List.length (Py.slice l1 a b).
Proof.
  intros H. unfold Py.slice. rewrite !length_firstn, !length_skipn.
  rewrite (clamp_length l l1 a H), (clamp_length l l1 b H), H. reflexivity.
Qed.

Lemma sim_stamp t r f l ls ls1 :
  List.length ls = List.length ls1 ->
  sim (stamp t r f l ls) (stamp t r f l ls1).
Proof.
  intros H. unfold stamp.
  apply sim_bind; [apply sim_store, similar_rset_raw, similar_refl|]. intros _.
  pose proof (slice_length ls ls1 f (l + 1) H) as HL.
  destruct (Py.slice ls f (l + 1)) as [|x raw];
    destruct (Py.slice ls1 f (l + 1)) as [|x1 raw1]; try discriminate HL.
  - apply sim_bind; [apply sim_orelse | intros a; apply sim_store, similar_refl].
  - change (Py.index (x :: raw) 0) with (Some x).
    change (Py.index (x1 :: raw1) 0) with (Some x1).
    intros w w1 Hw. unfold bind at 1 2, orelse, ret.
    apply sim_store; [|exact Hw].
    apply similar_rset_disabled, similar_rset_raw, similar_refl.
Qed.

Lemma close_section_stamp s sd :
  close_section s sd
  = (r <- lift (collapse_all sd) ;;
     match s with
     | None => ret tt
     | Some s =>
         t <- (if String.eqb s "interface" then ret TInterface
               else ka <- gets keyattr ;;
                    k <- lift (peer_key ka r) ;;
                    ret (TPeer k)) ;;
         store t r ;;;
         vf <- orelse KeyError (rget SECTION_FIRSTLINE r) ;;
         vl <- orelse KeyError (rget SECTION_LASTLINE r) ;;
         l <- lift (as_int vl) ;;
         f <- lift (as_int vf) ;;
         ls <- gets lines ;;
         stamp t r f l ls
     end).
Proof. reflexivity. Qed.

Lemma sim_close_section s sd : sim (close_section s sd) (close_section s sd).
Proof.
  rewrite close_section_stamp.
  apply sim_bind; [apply sim_lift|]. intros r.
  destruct s as [s|]; [|apply sim_ret].
  apply sim_bind.
  { destruct (String.eqb s "interface"); [apply sim_ret|].
    apply sim_bind; [apply sim_keyattr|]. intros ka.
    apply sim_bind; [apply sim_lift | intros k; apply sim_ret]. }
  intros t. apply sim_bind; [apply sim_store, similar_refl|]. intros _.
  apply sim_bind; [apply sim_orelse|]. intros vf.
  apply sim_bind; [apply sim_orelse|]. intros vl.
  apply sim_bind; [apply sim_lift|]. intros l.
  apply sim_bind; [apply sim_lift|]. intros f.
  intros w w1 Hw. unfold bind at 1 2, gets.
  apply sim_stamp; [|exact Hw]. apply Hw.
Qed.

Lemma sim_parse_step i raw loc :
  sim (parse_step i raw loc) (parse_step i raw loc).
Proof.
  unfold parse_step.
  destruct (Py.is_empty _); [apply sim_ret|].
  destruct (Py.startswith _ "[").
  - apply sim_bind; [apply sim_close_section|]. intros _.
    destruct (_ || _); [apply sim_ret | apply sim_raise].
  - destruct (Py.startswith _ "#"); [apply sim_ret|].
    apply sim_bind; [apply sim_lift|]. intros [[a v] c]. apply sim_ret.
Qed.

Lemma parse_step_normal i raw raw1 loc :
  normal raw = normal raw1 -> parse_step i raw loc = parse_step i raw1 loc.
Proof.
  unfold parse_step. fold (normal raw) (normal raw1). intros ->. reflexivity.
Qed.

Lemma sim_parse_loop ls ls1 :
  Forall2 (fun a b => normal a = normal b) ls ls1 ->
  forall i loc, sim (parse_loop i ls loc) (parse_loop i ls1 loc).
Proof.
  induction 1 as [|a b ls ls1 Hab _ IH]; intros i loc; cbn [parse_loop].
  - apply sim_ret.
  - rewrite (parse_step_normal i a b loc Hab).
    apply sim_bind; [apply sim_parse_step | intros loc'; apply IH].
Qed.

Lemma parse_lines_loop w :
  parse_lines w
  = (loc <- parse_loop 0 (lines w) start ;;
     close_section (section loc) (data loc)) (cleared w).
Proof. reflexivity. Qed.

(** Two buffers whose lines are the same for the parser are parsed with the
    same outcome, into similar records. *)
Lemma parse_lines_normal w w1 :
  keyattr w = keyattr w1 ->
  Forall2 (fun a b => normal a = normal b) (lines w) (lines w1) ->
  fst (parse_lines w) = fst (parse_lines w1)
  /\ related (snd (parse_lines w)) (snd (parse_lines w1)).
Proof.
  intros Hk HF. rewrite !parse_lines_loop.
  apply sim_bind.
  - apply sim_parse_loop, HF.
  - intros loc. apply sim_close_section.
  - repeat split; cbn; try assumption. apply (Forall2_length HF).
Qed.

(** ** What a successful parse leaves in the peer records *)

Lemma collapse_all_get sd : forall r name v,
  collapse_all sd = Ok r -> sget name sd = Some v ->
  exists v', collapse v = Ok v' /\ rget name r = Some v'.
Proof.
  induction sd as [|[k x] sd IH]; intros r name v H G; cbn in *.
  - discriminate.
  - destruct (collapse x) as [x'|] eqn:Ex; [|discriminate]. cbn in H.
    destruct (collapse_all sd) as [r'|] eqn:Er; [|discriminate]. cbn in H.
    inversion H; subst r. unfold rget, sget in *. cbn.
    destruct (String.eqb name k).
    + inversion G; subst. exists x'. split; [exact Ex | reflexivity].
    + apply (IH r' name v eq_refl G).
Qed.

Lemma store_interface_ok r w u w' :
  store TInterface r w = (Ok u, w') -> w' = with_interface (Some r) w.
Proof. cbn. apply modify_ok. Qed.

Lemma store_peer_ok k r w u w' :
  store (TPeer k) r w = (Ok u, w') ->
  exists p, _peers w = Some p /\ w' = with_peers (Some (pset k r p)) w.
Proof.
  unfold store, bind, gets. destruct (_peers w) as [p|]; [|discriminate].
  intros H. apply modify_ok in H. exists p. split; [reflexivity | exact H].
Qed.

Lemma names_distinct :
  SECTION_FIRSTLINE <> SECTION_LASTLINE
  /\ SECTION_FIRSTLINE <> SECTION_RAW
  /\ SECTION_FIRSTLINE <> SECTION_DISABLED
  /\ SECTION_LASTLINE <> SECTION_RAW
  /\ SECTION_LASTLINE <> SECTION_DISABLED
  /\ SECTION_RAW <> SECTION_DISABLED.
Proof. repeat split; discriminate. Qed.

Lemma close_section_good s sd w w' :
  peers_good w ->
  (s <> None -> bounded sd) ->
  close_section s sd w = (Ok tt, w') ->
  peers_good w'.
Proof.
  intros G B H. rewrite close_section_stamp in H.
  apply bind_ok in H as (r & w0 & Hr & H). apply lift_ok in Hr as [Hr ->].
  destruct s as [s|]; [|apply ret_ok in H as [_ ->]; exact G].
  destruct (B ltac:(discriminate)) as (f0 & rest & l0 & HF & HL & Hb).
  destruct (collapse_all_get _ _ _ _ Hr HF) as (cf & Hcf & Rf).
  destruct (collapse_all_get _ _ _ _ Hr HL) as (cl & Hcl & Rl).
  cbn in Hcl. inversion Hcl; subst cl. clear Hcl.
  apply bind_ok in H as (t & w1 & Ht & H).
  assert (E1 : w1 = w).
  { destruct (String.eqb s "interface").
    - apply ret_ok in Ht as [_ ->]. reflexivity.
    - apply bind_ok in Ht as (ka & w2 & Hka & Ht).
      apply gets_ok in Hka as [-> ->].
      apply bind_ok in Ht as (k & w2 & Hk & Ht). apply lift_ok in Hk as [_ ->].
      apply ret_ok in Ht as [_ ->]. reflexivity. }
  subst w1. clear Ht.
  apply bind_ok in H as (u1 & w1 & S1 & H).
  apply bind_ok in H as (vf & w2 & Hvf & H). apply orelse_ok in Hvf as [Hvf ->].
  apply bind_ok in H as (vl & w2 & Hvl & H). apply orelse_ok in Hvl as [Hvl ->].
  apply bind_ok in H as (l & w2 & Hl & H). apply lift_ok in Hl as [Hl ->].
  apply bind_ok in H as (f & w2 & Hf & H). apply lift_ok in Hf as [Hf ->].
  apply bind_ok in H as (ls & w2 & Hls & H). apply gets_ok in Hls as [-> ->].
  rewrite Rf in Hvf. inversion Hvf; subst vf. clear Hvf.
  rewrite Rl in Hvl. inversion Hvl; subst vl. clear Hvl.
  cbn in Hl. inversion Hl; subst l. clear Hl.
  assert (Ef : cf = One (AInt f0) /\ f = f0).
  { destruct rest; cbn in Hcf; inversion Hcf; subst cf; cbn in Hf;
      [inversion Hf; split; reflexivity | discriminate]. }
  destruct Ef as [-> ->]. clear Hcf Hf.
  unfold stamp in H.
  apply bind_ok in H as (u2 & w2 & S2 & H).
  apply bind_ok in H as (first & w3 & Hfirst & H).
  apply orelse_ok in Hfirst as [Hfirst ->].
  destruct names_distinct as (N1 & N2 & N3 & N4 & N5 & N6).
  destruct t as [|k].
  - apply store_interface_ok in S1, S2, H. subst.
    intros p k r0 Hp Hk. exact (G p k r0 Hp Hk).
  - apply store_peer_ok in S1 as (p0 & P0 & ->).
    apply store_peer_ok in S2 as (p1 & P1 & ->).
    apply store_peer_ok in H as (p2 & P2 & ->).
    cbn in P1. inversion P1; subst p1. clear P1.
    cbn in P2. inversion P2; subst p2. clear P2.
    cbn [lines with_peers] in *.
    intros p k' r0 Hp Hk. cbn in Hp. inversion Hp; subst p. clear Hp.
    rewrite !pset_pset in Hk.
    destruct (key_eqb k' k) eqn:E.
    + apply key_eqb_eq in E. subst k'. rewrite pget_pset_same in Hk.
      inversion Hk; subst r0. clear Hk.
      exists f0, l0, first. repeat split; try lia.
      * rewrite !rget_rset_other by assumption. exact Rf.
      * rewrite !rget_rset_other by assumption. exact Rl.
      * exact Hfirst.
      * rewrite rget_rset_other by assumption. apply rget_rset_same.
      * apply rget_rset_same.
    + assert (N : k' <> k).
      { intros ->. rewrite (proj2 (key_eqb_eq k k) eq_refl) in E.
        discriminate. }
      rewrite pget_pset_other in Hk by exact N.
      exact (G p0 k' r0 P0 Hk).
Qed.

Lemma parse_step_good i raw loc w loc' w' :
  peers_good w -> open_section i loc ->
  parse_step i raw loc w = (Ok loc', w') ->
  peers_good w' /\ open_section (i + 1) loc'.
Proof.
  intros G [[Hi Hcur] Hopen] H. unfold parse_step in H.
  destruct names_distinct as (N1 & _).
  destruct (Py.is_empty _).
  { (* an empty line *)
    apply ret_ok in H as [-> ->]. split; [exact G|]. split; cbn.
    - split; [lia|]. intros e He. inversion He. lia.
    - intros Hs. destruct (Hopen Hs) as (f0 & rest & l0 & h & A & B & C & D & E & _).
      exists f0, rest, l0, h. repeat split; try assumption; try lia.
      intros e He. inversion He. lia. }
  destruct (Py.startswith _ "[").
  { (* a section header *)
    apply bind_ok in H as (u & w1 & Hc & H). destruct u.
    assert (G1 : peers_good w1).
    { apply (close_section_good _ _ _ _ G) in Hc; [exact Hc|].
      intros Hs. destruct (Hopen Hs) as (f0 & rest & l0 & h & A & B & C & D & E & F0).
      destruct (last_empty_line_in_section loc) as [e|].
      - exists f0, rest, (e - 1). split; [|split].
        + unfold sget, sset in *. rewrite sget_sset_other by exact N1. exact A.
        + apply sget_sset_same.
        + specialize (F0 e eq_refl). lia.
      - exists f0, rest, l0. repeat split; try assumption; lia. }
    destruct (_ || _); [|discriminate H].
    apply ret_ok in H as [-> ->]. split; [exact G1|]. split; cbn.
    - split; [lia|]. intros e He. discriminate He.
    - intros _.
      exists (match last_empty_line_in_section loc with
              | Some e => e + 1
              | None => i
              end), [], i, i.
      split; [reflexivity|]. split; [reflexivity|].
      split; [|split; [lia | split; [lia | intros e He; discriminate He]]].
      destruct (last_empty_line_in_section loc) as [e|]; [|lia].
      specialize (Hcur e eq_refl). lia. }
  assert (Keep : forall sd,
    (section loc <> None ->
     exists f0 rest l0 h,
       sget SECTION_FIRSTLINE sd = Some (AInt f0 :: rest)
       /\ sget SECTION_LASTLINE (data loc) = Some [AInt l0]
       /\ 0 <= f0 <= h /\ h <= l0 /\ h < i
       /\ forall e, last_empty_line_in_section loc = Some e -> h < e) ->
    open_section (i + 1)
      (mkLocals (section loc) (sset SECTION_LASTLINE [AInt i] sd)
         (last_empty_line_in_section loc))).
  { intros sd Hsd. split; cbn.
    - split; [lia|]. intros e He. specialize (Hcur e He). lia.
    - intros Hs. destruct (Hsd Hs) as (f0 & rest & l0 & h & A & B & C & D & E & F0).
      exists f0, rest, i, h. split; [|split].
      + unfold sget, sset in *. rewrite sget_sset_other by exact N1. exact A.
      + apply sget_sset_same.
      + repeat split; try lia. exact F0. }
  destruct (Py.startswith _ "#").
  { (* a comment *)
    apply ret_ok in H as [-> ->]. split; [exact G|]. apply Keep, Hopen. }
  (* an attribute *)
  apply bind_ok in H as ([[attr value] c] & w1 & Hp & H).
  apply lift_ok in Hp as [Hp ->]. apply ret_ok in H as [-> ->].
  split; [exact G|]. apply Keep. intros Hs.
  destruct (Hopen Hs) as (f0 & rest & l0 & h & A & B & C & D & E & F0).
  destruct (String.eqb SECTION_FIRSTLINE attr) eqn:Ea.
  - apply String.eqb_eq in Ea. subst attr.
    exists f0, (rest ++ value), l0, h. split.
    + unfold sget, sset in *. rewrite sget_sset_same, A. reflexivity.
    + repeat split; try assumption; lia.
  - apply String.eqb_neq in Ea.
    exists f0, rest, l0, h. split.
    + unfold sget, sset in *. rewrite sget_sset_other by exact Ea. exact A.
    + repeat split; try assumption; lia.
Qed.

Lemma parse_loop_good ls : forall i loc w loc' w',
  peers_good w -> open_section i loc ->
  parse_loop i ls loc w = (Ok loc', w') ->
  peers_good w' /\ open_section (i + Py.len ls) loc'.
Proof.
  induction ls as [|line ls IH]; intros i loc w loc' w' G O H;
    cbn [parse_loop] in H.
  - apply ret_ok in H as [-> ->]. split; [exact G|].
    unfold Py.len. cbn. rewrite Z.add_0_r. exact O.
  - apply bind_ok in H as (loc1 & w1 & H1 & H).
    destruct (parse_step_good _ _ _ _ _ _ G O H1) as [G1 O1].
    destruct (IH _ _ _ _ _ G1 O1 H) as [G2 O2]. split; [exact G2|].
    replace (i + Py.len (line :: ls)) with (i + 1 + Py.len ls);
      [exact O2 | unfold Py.len; cbn [List.length]; lia].
Qed.

(** After a parse that returns, every peer record is built from the lines. *)
Lemma parse_lines_good w w' :
  parse_lines w = (Ok tt, w') -> peers_good w'.
Proof.
  rewrite parse_lines_loop. intros H.
  apply bind_ok in H as (loc & w1 & Hl & H).
  assert (G0 : peers_good (cleared w)).
  { intros p k r Hp Hk. cbn in Hp. inversion Hp; subst p. discriminate Hk. }
  assert (O0 : open_section 0 start).
  { split; cbn.
    - split; [lia|]. intros e He. inversion He. lia.
    - intros Hs. contradiction. }
  destruct (parse_loop_good _ _ _ _ _ _ G0 O0 Hl) as [G1 [_ O1]].
  apply (close_section_good _ _ _ _ G1) in H; [exact H|].
  intros Hs. destruct (O1 Hs) as (f0 & rest & l0 & h & A & B & C & D & _).
  exists f0, rest, l0. repeat split; try assumption; lia.
Qed.

(** ** Enabling and disabling a peer *)

Lemma edit_section_int edit f l ls : forall i,
  edit_section edit (One (AInt f)) (One (AInt l)) i ls
  = Ok (map_section edit f l i ls).
Proof.
  induction ls as [|x ls IH]; intros i; cbn [edit_section map_section].
  - reflexivity.
  - rewrite IH. unfold in_section. cbn. destruct (f <=? i); reflexivity.
Qed.

Lemma map_section_normal edit f l ls :
  (forall x, normal (edit x) = normal x) ->
  forall i, Forall2 (fun a b => normal a = normal b) ls
              (map_section edit f l i ls).
Proof.
  intros He. induction ls as [|x ls IH]; intros i; cbn; constructor.
  - destruct (_ && _); [symmetry; apply He | reflexivity].
  - apply IH.
Qed.

Lemma map_section_nth edit f l ls : forall i j,
  nth_error (map_section edit f l i ls) j
  = option_map
      (fun x => if (f <=? i + Z.of_nat j) && (i + Z.of_nat j <=? l)
                then edit x else x)
      (nth_error ls j).
Proof.
  induction ls as [|x ls IH]; intros i j.
  - destruct j; reflexivity.
  - destruct j as [|j]; cbn [map_section nth_error option_map].
    + rewrite Z.add_0_r. reflexivity.
    + rewrite IH. replace (i + 1 + Z.of_nat j) with (i + Z.of_nat (S j)) by lia.
      reflexivity.
Qed.

Lemma map_section_inverse g e f l ls : forall i,
  (forall j x, nth_error ls j = Some x -> f <= i + Z.of_nat j <= l ->
               g (e x) = x) ->
  map_section g f l i (map_section e f l i ls) = ls.
Proof.
  induction ls as [|x ls IH]; intros i H; cbn; [reflexivity|].
  f_equal.
  - destruct ((f <=? i) && (i <=? l)) eqn:E; [|reflexivity].
    apply andb_true_iff in E as [E1 E2].
    apply Z.leb_le in E1. apply Z.leb_le in E2.
    apply (H O x eq_refl). lia.
  - apply IH. intros j y Hy Hj. apply (H (S j) y Hy). lia.
Qed.

Lemma replace_marker x :
  Py.replace MARKER "" (MARKER ++ x)%string = Py.replace MARKER "" x.
Proof. unfold Py.replace, MARKER. cbn. destruct x; reflexivity. Qed.

Lemma normal_marker x : normal (MARKER ++ x)%string = normal x.
Proof. unfold normal. rewrite replace_marker. reflexivity. Qed.

Lemma startswith_marker x : Py.startswith (MARKER ++ x)%string MARKER = true.
Proof. unfold Py.startswith, MARKER. cbn. destruct x; reflexivity. Qed.

Lemma clamp_low {A} (ls : list A) (f : Z) :
  0 <= f -> (Z.to_nat f < List.length ls)%nat \/ Py.clamp ls f = List.length ls.
Proof.
  intros Hf. unfold Py.clamp, Py.len.
  replace (f <? 0) with false by (symmetry; apply Z.ltb_ge; lia). lia.
Qed.

Lemma slice_first (ls : list string) (f b : Z) (x : string) :
  0 <= f -> Py.index (Py.slice ls f b) 0 = Some x ->
  nth_error ls (Z.to_nat f) = Some x.
Proof.
  intros Hf H. change 0 with (Z.of_nat 0) in H. rewrite index_nat in H.
  unfold Py.slice in H. rewrite nth_error_firstn in H.
  destruct (0 <? _)%nat; [|discriminate].
  rewrite nth_error_skipn, Nat.add_0_r in H.
  destruct (clamp_low ls f Hf) as [Hlt | E].
  - rewrite clamp_in in H by (unfold Py.len; lia). exact H.
  - rewrite E in H. pose proof (nth_error_None ls (List.length ls)) as [_ N].
    rewrite N in H by lia. discriminate.
Qed.

Lemma in_slice (ls : list string) (f l : Z) (j : nat) (x : string) :
  0 <= f -> nth_error ls j = Some x -> f <= Z.of_nat j <= l ->
  In x (Py.slice ls f (l + 1)).
Proof.
  intros Hf Hx Hj.
  assert (Hlen : (j < List.length ls)%nat).
  { apply nth_error_Some. rewrite Hx. discriminate. }
  apply (nth_error_In _ (j - Z.to_nat f)). unfold Py.slice.
  rewrite (clamp_in ls f) by (unfold Py.len; lia).
  assert (Hb : (j < Py.clamp ls (l + 1))%nat).
  { unfold Py.clamp, Py.len.
    replace (l + 1 <? 0) with false by (symmetry; apply Z.ltb_ge; lia). lia. }
  rewrite nth_error_firstn.
  replace (j - Z.to_nat f <? Py.clamp ls (l + 1) - Z.to_nat f)%nat with true
    by (symmetry; apply Nat.ltb_lt; lia).
  rewrite nth_error_skipn.
  replace (Z.to_nat f + (j - Z.to_nat f))%nat with j by lia. exact Hx.
Qed.

(** Reading [peers] on an object whose records are unbuilt is parsing. *)
Lemma peers_unbuilt w p wp :
  _peers w = None ->
  (peers w = (Ok p, wp) <-> parse_lines w = (Ok tt, wp) /\ _peers wp = Some p).
Proof.
  intros U. unfold peers. unfold bind at 1, gets at 1. rewrite U. split.
  - intros H. apply bind_ok in H as ([] & w1 & H1 & H).
    apply bind_ok in H as (c & w2 & Hc & H). apply gets_ok in Hc as [-> ->].
    apply orelse_ok in H as [H ->]. split; assumption.
  - intros [H1 H2]. run_with H1. run_with (gets_run _peers wp).
    rewrite H2. reflexivity.
Qed.

(** [disable_peer] once the peer map is read and the peer found. *)
Lemma disable_peer_found k w p wp r :
  peers w = (Ok p, wp) -> pget k p = Some r ->
  disable_peer k w
  = if is_disabled r then (Ok tt, wp)
    else (vf <- orelse KeyError (rget SECTION_FIRSTLINE r) ;;
          vl <- orelse KeyError (rget SECTION_LASTLINE r) ;;
          ls <- gets lines ;;
          result <- lift (edit_section (String.append MARKER) vf vl 0 ls) ;;
          modify (with_lines result) ;;;
          invalidate_data) wp.
Proof.
  intros Hp Hk. unfold disable_peer. run_with Hp.
  unfold pmem, Dict.mem. fold pget. rewrite Hk. cbn [negb].
  run_with (get_peer_enabled_built k wp p r (peers_ok _ _ _ Hp) Hk).
  destruct (is_disabled r); reflexivity.
Qed.

Lemma disable_peer_missing k w p wp :
  peers w = (Ok p, wp) -> pget k p = None ->
  disable_peer k w = (Raise KeyError, wp).
Proof.
  intros Hp Hk. unfold disable_peer. run_with Hp.
  unfold pmem, Dict.mem. fold pget. rewrite Hk. reflexivity.
Qed.

Lemma enable_peer_found k w p wp r :
  peers w = (Ok p, wp) -> pget k p = Some r ->
  enable_peer k w
  = (vf <- orelse KeyError (rget SECTION_FIRSTLINE r) ;;
     vl <- orelse KeyError (rget SECTION_LASTLINE r) ;;
     ls <- gets lines ;;
     result <- lift (edit_section (Py.replace MARKER "") vf vl 0 ls) ;;
     modify (with_lines result) ;;;
     invalidate_data) wp.
Proof.
  intros Hp Hk. unfold enable_peer. run_with Hp. rewrite Hk. reflexivity.
Qed.

Lemma edit_run edit f l r wp :
  rget SECTION_FIRSTLINE r = Some (One (AInt f)) ->
  rget SECTION_LASTLINE r = Some (One (AInt l)) ->
  (vf <- orelse KeyError (rget SECTION_FIRSTLINE r) ;;
   vl <- orelse KeyError (rget SECTION_LASTLINE r) ;;
   ls <- gets lines ;;
   result <- lift (edit_section edit vf vl 0 ls) ;;
   modify (with_lines result) ;;;
   invalidate_data) wp
  = (Ok tt, edited edit f l wp).
Proof.
  intros Hf Hl. rewrite Hf, Hl.
  run_with (orelse_run KeyError _ _ wp (eq_refl (Some (One (AInt f))))).
  run_with (orelse_run KeyError _ _ wp (eq_refl (Some (One (AInt l))))).
  run_with (gets_run lines wp).
  run_with (lift_run _ _ wp (edit_section_int edit f l (lines wp) 0)).
  reflexivity.
Qed.

Lemma keeps_built_bind {A B} (m : M A) (f : A -> M B) :
  keeps_built m -> (forall a, keeps_built (f a)) -> keeps_built (bind m f).
Proof.
  intros Hm Hf w H. unfold bind. specialize (Hm w H).
  destruct (m w) as [[a|e] w1]; cbn in Hm; [apply Hf, Hm | exact Hm].
Qed.

Lemma keeps_built_lift {A} (o : outcome A) : keeps_built (lift o).
Proof. intros w H. exact H. Qed.

Lemma keeps_built_ret {A} (a : A) : keeps_built (ret a).
Proof. intros w H. exact H. Qed.

Lemma keeps_built_raise {A} e : keeps_built (@raise A e).
Proof. intros w H. exact H. Qed.

Lemma keeps_built_gets {A} (f : WGConfig -> A) : keeps_built (gets f).
Proof. intros w H. exact H. Qed.

Lemma keeps_built_orelse {A} e (o : option A) : keeps_built (orelse e o).
Proof. destruct o; intros w H; exact H. Qed.

Ltac keeps_built_steps :=
  repeat first
    [ apply keeps_built_lift | apply keeps_built_ret | apply keeps_built_raise
    | apply keeps_built_gets | apply keeps_built_orelse
    | apply keeps_built_bind; [ | intros ? ]
    | match goal with
      | |- keeps_built (match ?x with _ => _ end) => destruct x
      | |- keeps_built (if ?x then _ else _) => destruct x
      end ].

Lemma keeps_built_store t r : keeps_built (store t r).
Proof.
  intros w H. destruct t as [|k]; cbn; [exact H|].
  unfold bind, gets. destruct (_peers w) eqn:E; cbn;
    [discriminate | rewrite E; exact H].
Qed.

Lemma keeps_built_close_section s sd : keeps_built (close_section s sd).
Proof.
  unfold close_section.
  repeat (keeps_built_steps; try apply keeps_built_store).
Qed.

Lemma keeps_built_parse_step i raw loc : keeps_built (parse_step i raw loc).
Proof.
  unfold parse_step.
  repeat (keeps_built_steps; try apply keeps_built_store).
Qed.

Lemma keeps_built_parse_loop ls : forall i loc,
  keeps_built (parse_loop i ls loc).
Proof.
  induction ls as [|line ls IH]; intros i loc; cbn [parse_loop].
  - intros w H. exact H.
  - apply keeps_built_bind; [apply keeps_built_parse_step | intros a; apply IH].
Qed.

(** A parse leaves the peer map built, whatever its outcome. *)
Lemma parse_lines_built w : _peers (snd (parse_lines w)) <> None.
Proof.
  rewrite parse_lines_loop.
  apply (keeps_built_bind _ _ (keeps_built_parse_loop _ _ _)
           (fun loc => keeps_built_close_section _ _)).
  discriminate.
Qed.

Lemma coherent_peers w p wp :
  coherent w -> peers w = (Ok p, wp) ->
  exists w0, parse_lines w0 = (Ok tt, wp) /\ lines wp = lines w.
Proof.
  intros [[_ U] | (w0 & _ & Hparse)] Hp.
  - exists w. split.
    + apply (proj1 (peers_unbuilt w p wp U) Hp).
    + pose proof (frame_peers w) as [F _]. rewrite Hp in F. exact F.
  - pose proof (parse_lines_built w0) as B. rewrite Hparse in B. cbn in B.
    destruct (_peers w) as [p'|] eqn:E; [|contradiction].
    rewrite (peers_built _ _ E) in Hp. injection Hp as _ <-.
    exists w0. split; [exact Hparse | reflexivity].
Qed.

(** After the lines [f..l] of a parsed buffer were edited in a way the
    parser does not see, the buffer parses again, and the peer found under
    [k] is found again, with the same bounds. *)
Lemma reparse_after_edit edit k w p wp r f l :
  (forall x, normal (edit x) = normal x) ->
  parse_lines w = (Ok tt, wp) -> _peers wp = Some p -> pget k p = Some r ->
  rget SECTION_FIRSTLINE r = Some (One (AInt f)) ->
  rget SECTION_LASTLINE r = Some (One (AInt l)) ->
  exists p1 wp1 r1,
    peers (edited edit f l wp) = (Ok p1, wp1)
    /\ pget k p1 = Some r1
    /\ good (lines wp1) r1
    /\ rget SECTION_FIRSTLINE r1 = Some (One (AInt f))
    /\ rget SECTION_LASTLINE r1 = Some (One (AInt l))
    /\ lines wp1 = map_section edit f l 0 (lines wp).
Proof.
  intros He Hparse Hp Hk Rf Rl.
  set (w1 := edited edit f l wp).
  pose proof (frame_parse_lines w) as [Fl Fk]. rewrite Hparse in Fl, Fk.
  cbn [snd] in Fl, Fk.
  destruct (parse_lines_normal w w1) as [E Rel].
  { rewrite <- Fk. reflexivity. }
  { rewrite <- Fl. apply map_section_normal, He. }
  rewrite Hparse in E, Rel. cbn [fst snd] in E, Rel.
  destruct (parse_lines w1) as [o wp1] eqn:Hparse1. cbn [fst snd] in E, Rel.
  subst o. destruct Rel as (_ & _ & _ & Rp). rewrite Hp in Rp.
  destruct (_peers wp1) as [p1|] eqn:Hp1; [|contradiction].
  cbn in Rp. specialize (Rp k) as Rk. rewrite Hk in Rk.
  destruct (pget k p1) as [r1|] eqn:Hk1; [|contradiction]. cbn in Rk.
  destruct names_distinct as (N1 & N2 & N3 & N4 & N5 & N6).
  exists p1, wp1, r1. split; [|split; [|split; [|split; [|split]]]].
  - apply peers_unbuilt; [reflexivity | split; assumption].
  - exact Hk1.
  - exact (parse_lines_good _ _ Hparse1 p1 k r1 Hp1 Hk1).
  - rewrite <- (Rk _ N2 N3). exact Rf.
  - rewrite <- (Rk _ N4 N5). exact Rl.
  - pose proof (frame_parse_lines w1) as [F1 _]. rewrite Hparse1 in F1.
    exact F1.
Qed.

(** C6. On an object in step with its lines, a [disable_peer] that returns
    can be followed by a second one, which returns too, leaves the lines as
    the first left them, and has nothing to do because the peer reads as
    disabled. *)
Theorem disable_peer_idempotent (k : key) (w w1 : WGConfig) :
  coherent w ->
  disable_peer k w = (Ok tt, w1) ->
  exists w2,
    disable_peer k w1 = (Ok tt, w2)
    /\ lines w2 = lines w1
    /\ get_peer_enabled k w2 = (Ok false, w2).
Proof.
  intros C H.
  assert (Hp : exists p wp, peers w = (Ok p, wp)).
  { unfold disable_peer in H. apply bind_ok in H as (p & wp & Hp & _).
    exists p, wp. exact Hp. }
  destruct Hp as (p & wp & Hp).
  destruct (pget k p) as [r|] eqn:Hk;
    [|rewrite (disable_peer_missing _ _ _ _ Hp Hk) in H; discriminate H].
  rewrite (disable_peer_found _ _ _ _ _ Hp Hk) in H.
  pose proof (peers_ok _ _ _ Hp) as Hc.
  destruct (is_disabled r) eqn:Hd.
  - (* the peer was disabled already *)
    inversion H; subst w1. exists wp.
    rewrite (disable_peer_found _ _ _ _ _ (peers_built _ _ Hc) Hk), Hd.
    rewrite (get_peer_enabled_built _ _ _ _ Hc Hk), Hd.
    repeat split; reflexivity.
  - (* the peer was enabled: its lines got the marker *)
    destruct (coherent_peers _ _ _ C Hp) as (w0 & Hparse & _).
    destruct (parse_lines_good _ _ Hparse p k r Hc Hk)
      as (f & l & first & Rf & Rl & Hb & _).
    rewrite (edit_run _ f l r wp Rf Rl) in H. injection H as <-.
    destruct (reparse_after_edit (String.append MARKER) k w0 p wp r f l
                normal_marker Hparse Hc Hk Rf Rl)
      as (p1 & wp1 & r1 & Hp1 & Hk1 & G1 & Rf1 & Rl1 & L1).
    destruct G1 as (f' & l' & first1 & Rf' & Rl' & _ & Hfirst & _ & Rdis).
    rewrite Rf1 in Rf'. inversion Rf'; subst f'.
    rewrite Rl1 in Rl'. inversion Rl'; subst l'.
    apply slice_first in Hfirst; [|lia].
    rewrite L1, map_section_nth in Hfirst.
    destruct (nth_error (lines wp) (Z.to_nat f)) as [x|]; [|discriminate].
    cbn [option_map] in Hfirst.
    assert (In_range : (f <=? 0 + Z.of_nat (Z.to_nat f))
                       && (0 + Z.of_nat (Z.to_nat f) <=? l) = true)
      by (apply andb_true_iff; split; apply Z.leb_le; lia).
    rewrite In_range in Hfirst. inversion Hfirst; subst first1.
    assert (Hd1 : is_disabled r1 = true).
    { unfold is_disabled. rewrite Rdis. apply startswith_marker. }
    pose proof (peers_ok _ _ _ Hp1) as Hc1.
    pose proof (disable_peer_found _ _ _ _ _ Hp1 Hk1) as Q.
    rewrite Hd1 in Q.
    exists wp1. split; [exact Q|]. split; [exact L1|].
    rewrite (get_peer_enabled_built _ _ _ _ Hc1 Hk1), Hd1. reflexivity.
Qed.

(** C5 (amended). On an object in step with its lines, for a peer that
    is enabled and whose raw lines hold no disable marker, [disable_peer]
    returns, [enable_peer] after it returns, and the lines are then what
    they were: not only those of the peer, but the whole buffer. *)
Theorem disable_then_enable
  (k : key) (w wp : WGConfig) (p : peer_map) (r : record) :
  coherent w ->
  peers w = (Ok p, wp) -> pget k p = Some r ->
  is_disabled r = false ->
  (forall s, In (AStr s) (raw_lines r) -> Py.replace MARKER "" s = s) ->
  exists w1 w2,
    disable_peer k w = (Ok tt, w1)
    /\ enable_peer k w1 = (Ok tt, w2)
    /\ lines w2 = lines w.
Proof.
  intros C Hp Hk Hd Hfree.
  pose proof (peers_ok _ _ _ Hp) as Hc.
  destruct (coherent_peers _ _ _ C Hp) as (w0 & Hparse & Fl).
  destruct (parse_lines_good _ _ Hparse p k r Hc Hk)
    as (f & l & first & Rf & Rl & Hb & _ & Rraw & _).
  destruct (reparse_after_edit (String.append MARKER) k w0 p wp r f l
              normal_marker Hparse Hc Hk Rf Rl)
    as (p1 & wp1 & r1 & Hp1 & Hk1 & _ & Rf1 & Rl1 & L1).
  exists (edited (String.append MARKER) f l wp),
         (edited (Py.replace MARKER "") f l wp1).
  split; [|split].
  - rewrite (disable_peer_found _ _ _ _ _ Hp Hk), Hd.
    apply edit_run; assumption.
  - rewrite (enable_peer_found _ _ _ _ _ Hp1 Hk1).
    apply edit_run; assumption.
  - cbn [edited lines with_peers with_interface with_lines]. rewrite L1.
    rewrite <- Fl. apply map_section_inverse. intros j x Hx Hj.
    change (MARKER ++ x)%string with (String.append MARKER x).
    rewrite replace_marker. apply Hfree.
    unfold raw_lines. rewrite Rraw. apply in_map.
    apply (in_slice _ f l j); [lia | exact Hx | lia].
Qed.

(** C5, as stated, fails: [enable_peer] removes every disable marker of a
    line, also one the line had before the peer was disabled. *)
Lemma enable_strips_inner_markers :
  let k := Some (AStr "k") in
  get_peer_enabled k marked_config
  = (Ok true, snd (parse_lines marked_config))
  /\ peer_raw_lines k marked_config
     = [AStr "[Peer]"; AStr "PublicKey = k";
        AStr "AllowedIPs = 10.0.0.2/32 #! temp"]
  /\ exists w1 w2,
       disable_peer k marked_config = (Ok tt, w1)
       /\ enable_peer k w1 = (Ok tt, w2)
       /\ peer_raw_lines k w2
          = [AStr "[Peer]"; AStr "PublicKey = k";
             AStr "AllowedIPs = 10.0.0.2/32 temp"].
Proof.
  split; [vm_compute; reflexivity|]. split; [vm_compute; reflexivity|].
  eexists. eexists. split; [vm_compute; reflexivity|].
  split; vm_compute; reflexivity.
Qed.

Lemma disable_then_enable_witness :
  exists w1 w2,
    disable_peer (Some (AStr "BBB=")) sample_object = (Ok tt, w1)
    /\ enable_peer (Some (AStr "BBB=")) w1 = (Ok tt, w2)
    /\ lines w2 = lines sample_object.
Proof.
  eapply (disable_then_enable (Some (AStr "BBB=")) sample_object).
  - left. split; reflexivity.
  - vm_compute. reflexivity.
  - vm_compute. reflexivity.
  - reflexivity.
  - intros s Hs. vm_compute in Hs.
    repeat (destruct Hs as [Hs | Hs]; [inversion Hs; reflexivity|]).
    destruct Hs.
Defined.

Lemma disable_peer_idempotent_witness :
  let k := Some (AStr "BBB=") in
  let w1 := snd (disable_peer k sample_object) in
  exists w2,
    disable_peer k w1 = (Ok tt, w2)
    /\ lines w2 = lines w1
    /\ get_peer_enabled k w2 = (Ok false, w2).
Proof.
  intros k w1. apply (disable_peer_idempotent k sample_object w1).
  - left. split; reflexivity.
  - vm_compute. reflexivity.
Defined.


(** * Further properties *)

(** ** File names *)

Lemma basename_length p :
  (String.length (basename p) <= String.length p)%nat.
Proof.
  induction p as [|c p IH]; cbn; [lia|].
  destruct (Ascii.eqb c "/" || has_slash p); cbn; lia.
Qed.

Lemma basename_no_slash p : has_slash p = false -> basename p = p.
Proof.
  unfold has_slash. induction p as [|c p IH]; cbn; [reflexivity|].
  intros H. apply negb_false_iff in H. apply andb_true_iff in H as [Hc Hp].
  apply negb_true_iff in Hc. rewrite Hc.
  unfold has_slash. rewrite Hp. reflexivity.
Qed.

Lemma basename_slash p : has_slash p = true -> basename p <> p.
Proof.
  intros H E. destruct p as [|c p]; [discriminate H|].
  cbn in E. unfold has_slash in H. cbn in H.
  destruct (Ascii.eqb c "/") eqn:Ec; cbn in H, E.
  - pose proof (basename_length p) as L. rewrite E in L. cbn in L. lia.
  - fold (has_slash p) in H. rewrite H in E.
    pose proof (basename_length p) as L. rewrite E in L. cbn in L. lia.
Qed.

Lemma startswith_char c g d :
  Py.startswith (String c g) (String d "") = Ascii.eqb c d.
Proof.
  unfold Py.startswith. cbn [String.prefix].
  destruct (ascii_dec d c) as [->|N].
  - rewrite Ascii.eqb_refl. destruct g; reflexivity.
  - symmetry. apply Ascii.eqb_neq. congruence.
Qed.

Lemma has_slash_app a b : has_slash (a ++ b) = has_slash a || has_slash b.
Proof.
  unfold has_slash. induction a as [|c a IH]; cbn; [reflexivity|].
  destruct (Ascii.eqb c "/"); cbn; [reflexivity | exact IH].
Qed.

(** X1. [file2filename] leaves [None] and every name with a slash as they
    are, puts a name without a slash under [/etc/wireguard/], with [.conf]
    added unless the name ends with it, and applying it twice is applying it
    once. *)
Theorem file2filename_spec (file : string) :
  file2filename None = None
  /\ (has_slash file = true -> file2filename (Some file) = Some file)
  /\ (has_slash file = false ->
      file2filename (Some file)
      = Some ("/etc/wireguard/"
              ++ (if endswith file ".conf" then file else file ++ ".conf"))%string)
  /\ match file2filename (Some file) with
     | Some f => file2filename (Some f) = Some f
     | None => False
     end.
Proof.
  assert (A : has_slash file = true -> file2filename (Some file) = Some file).
  { intros H. unfold file2filename.
    destruct (String.eqb (basename file) file) eqn:E; [|reflexivity].
    apply String.eqb_eq in E. destruct (basename_slash _ H E). }
  assert (B : has_slash file = false ->
      file2filename (Some file)
      = Some ("/etc/wireguard/"
              ++ (if endswith file ".conf" then file else file ++ ".conf"))%string).
  { intros H. unfold file2filename.
    rewrite (basename_no_slash _ H), String.eqb_refl.
    assert (P : forall g, has_slash g = false ->
                path_join "/etc/wireguard" g = ("/etc/wireguard/" ++ g)%string).
    { intros g Hg. unfold path_join.
      destruct g as [|c g]; [reflexivity|].
      rewrite startswith_char.
      unfold has_slash in Hg. cbn in Hg.
      destruct (Ascii.eqb c "/") eqn:Ec; [discriminate Hg | reflexivity]. }
    destruct (endswith file ".conf"); cbn [negb].
    - rewrite (P _ H). reflexivity.
    - rewrite P; [reflexivity|]. rewrite has_slash_app, H. reflexivity. }
  split; [reflexivity|]. split; [exact A|]. split; [exact B|].
  destruct (has_slash file) eqn:H.
  - rewrite (A eq_refl). exact (A eq_refl).
  - rewrite (B eq_refl). unfold file2filename.
    destruct (String.eqb _ _) eqn:E; [|reflexivity].
    apply String.eqb_eq in E. exfalso. revert E. apply basename_slash.
    reflexivity.
Qed.

(** ** Queries *)

Lemma frame_get_peer k d : frame (get_peer k d).
Proof. unfold get_peer. frame_steps. Qed.

(** X2. No query changes the lines or the key attribute, whatever it
    returns or raises: [get_interface], [get_peers], [get_peer] and
    [get_peer_enabled] only build the records. *)
Theorem queries_keep_lines (k : key) (a b c : bool) :
  frame (get_interface a) /\ frame (get_peers a b c)
  /\ frame (get_peer k a) /\ frame (get_peer_enabled k).
Proof.
  split; [unfold get_interface; frame_steps|].
  split; [unfold get_peers; frame_steps|].
  split; [apply frame_get_peer|].
  unfold get_peer_enabled. apply frame_bind; [apply frame_get_peer|].
  intros r. apply frame_ret.
Qed.

Lemma filter_rget (d : record) name :
  Py.startswith name "_" = false ->
  rget name (filter (fun kv => negb (Py.startswith (fst kv) "_")) d)
  = rget name d.
Proof.
  intros H. induction d as [|[n v] d IH]; [reflexivity|].
  cbn [filter fst]. unfold rget in *. cbn [Dict.get].
  destruct (String.eqb name n) eqn:E.
  - apply String.eqb_eq in E. subst n. rewrite H. cbn [negb Dict.get].
    rewrite String.eqb_refl. reflexivity.
  - destruct (Py.startswith n "_"); cbn [negb Dict.get]; [exact IH|].
    rewrite E. exact IH.
Qed.

Lemma filter_rget_hidden (d : record) name :
  Py.startswith name "_" = true ->
  rget name (filter (fun kv => negb (Py.startswith (fst kv) "_")) d) = None.
Proof.
  intros H. induction d as [|[n v] d IH]; [reflexivity|].
  cbn [filter fst]. destruct (Py.startswith n "_") eqn:En; cbn [negb];
    [exact IH|].
  unfold rget in *. cbn [Dict.get].
  destruct (String.eqb name n) eqn:E; [|exact IH].
  apply String.eqb_eq in E. subst n. rewrite H in En. discriminate.
Qed.

(** X3. Without details, [get_filtered_dictionary] hides every name that
    starts with an underscore (the bounds, the raw lines and the flag among
    them) and keeps every other name with its value; with details it is the
    record itself. *)
Theorem get_filtered_dictionary_spec (d : record) (name : string) :
  get_filtered_dictionary d true = d
  /\ rget name (get_filtered_dictionary d false)
     = if Py.startswith name "_" then None else rget name d.
Proof.
  split; [reflexivity|]. unfold get_filtered_dictionary.
  destruct (Py.startswith name "_") eqn:E.
  - apply filter_rget_hidden, E.
  - apply filter_rget, E.
Qed.

(** ** Loading and saving a buffer *)

(** X4. After [read_from_fileobj] every line of the buffer is without blanks
    at its end and without line feed, and the records are unbuilt. *)
Theorem read_from_fileobj_clean (text : string) (w : WGConfig) :
  exists w',
    read_from_fileobj text w = (Ok tt, w')
    /\ Forall clean_line (lines w') /\ unbuilt w'
    /\ keyattr w' = keyattr w.
Proof.
  eexists. split; [reflexivity|]. cbn. split; [|split; [split|]; reflexivity].
  apply Forall_map. eapply Forall_impl; [|apply readlines_read_line].
  intros s Hs. destruct (read_line_rstrip s Hs) as [H1 H2].
  split; assumption.
Qed.

(** X5. A buffer of lines without blank at their end, line feed or
    carriage return, written by one object and read by another, is the
    buffer of the other: [read_from_fileobj] gives the reader the lines the
    writer had, whatever lines and records the reader had before. *)
Theorem write_then_read (w w0 : WGConfig) :
  Forall portable_line (lines w) ->
  exists out w2,
    write_to_fileobj w = (Ok out, w)
    /\ read_from_fileobj out w0 = (Ok tt, w2)
    /\ lines w2 = lines w /\ keyattr w2 = keyattr w0 /\ unbuilt w2.
Proof.
  intros H. eexists. eexists.
  split; [reflexivity|]. split; [reflexivity|]. cbn.
  split; [|split; [reflexivity | split; reflexivity]].
  change (fun line : string => (line ++ String Py.newline "")%string)
    with add_newline.
  rewrite readlines_writelines.
  - rewrite map_map. induction H as [|s l [[Hs _] _] _ IH]; [reflexivity|].
    cbn. rewrite rstrip_add_newline, Hs, IH. reflexivity.
  - eapply Forall_impl; [|exact H]. intros s [[_ Hs] _]. exact Hs.
Qed.

Lemma write_then_read_witness :
  exists out w2,
    write_to_fileobj sample_object = (Ok out, sample_object)
    /\ read_from_fileobj out disabled_config = (Ok tt, w2)
    /\ lines w2 = lines sample_object
    /\ keyattr w2 = keyattr disabled_config /\ unbuilt w2.
Proof.
  apply (write_then_read sample_object disabled_config).
  repeat constructor.
Defined.

(** ** Operations that fail before they edit *)

Lemma get_sectioninfo_missing k w p wp :
  k <> None -> peers w = (Ok p, wp) -> pget k p = None ->
  get_sectioninfo k w = (Raise KeyError, wp).
Proof.
  intros N Hp Hk. destruct k as [a|]; [|contradiction].
  unfold get_sectioninfo. run_with Hp. rewrite Hk. reflexivity.
Qed.

(** X6. When the peer map has no peer under [k], every lookup and every
    edit of that peer raises [KeyError] and leaves the object as the read
    of the peer map left it, with the lines it had. *)
Theorem missing_peer_raises
  (k : key) (w wp : WGConfig) (p : peer_map) (d : bool)
  (attr : string) (v : atom) (c : option string) (b : bool)
  (vo : option atom) (rm : bool) :
  peers w = (Ok p, wp) -> pget k p = None ->
  lines wp = lines w
  /\ get_peer k d w = (Raise KeyError, wp)
  /\ get_peer_enabled k w = (Raise KeyError, wp)
  /\ del_peer k w = (Raise KeyError, wp)
  /\ enable_peer k w = (Raise KeyError, wp)
  /\ disable_peer k w = (Raise KeyError, wp)
  /\ (k <> None ->
      add_attr k attr v c b w = (Raise KeyError, wp)
      /\ del_attr k attr vo rm w = (Raise KeyError, wp)).
Proof.
  intros Hp Hk.
  assert (G : forall d, get_peer k d w = (Raise KeyError, wp)).
  { intros d0. unfold get_peer. run_with Hp. rewrite Hk. reflexivity. }
  split.
  { pose proof (frame_peers w) as [F _]. rewrite Hp in F. exact F. }
  split; [apply G|].
  split; [unfold get_peer_enabled, bind; rewrite (G true); reflexivity|].
  split; [unfold del_peer; run_with Hp; rewrite Hk; reflexivity|].
  split; [unfold enable_peer; run_with Hp; rewrite Hk; reflexivity|].
  split; [apply (disable_peer_missing _ _ _ _ Hp Hk)|].
  intros N. pose proof (get_sectioninfo_missing _ _ _ _ N Hp Hk) as S.
  split.
  - unfold add_attr, bind. rewrite S. reflexivity.
  - unfold del_attr, bind. rewrite S. reflexivity.
Qed.

Lemma missing_peer_raises_witness :
  let k := Some (AStr "nobody") in
  let wp := snd (peers sample_object) in
  lines wp = lines sample_object
  /\ del_peer k sample_object = (Raise KeyError, wp).
Proof.
  intros k wp.
  destruct (missing_peer_raises k sample_object wp
              (match fst (peers sample_object) with Ok p => p | Raise _ => [] end)
              false "" (AInt 0) None false None false)
    as (H1 & _ & _ & H2 & _).
  - vm_compute. reflexivity.
  - vm_compute. reflexivity.
  - split; [exact H1 | exact H2].
Defined.



(** X8. [add_attr] checks its leading comment before it edits: when the
    section exists and the comment is refused, the call raises and the
    lines are what they were. *)
Theorem add_attr_bad_comment
  (k : key) (attr : string) (v : atom) (c : string) (b : bool)
  (w w0 : WGConfig) (bounds : value * value) (e : exn) :
  get_sectioninfo k w = (Ok bounds, w0) ->
  check_comment c = Raise e ->
  add_attr k attr v (Some c) b w = (Raise e, w0) /\ lines w0 = lines w.
Proof.
  intros Hs Hc. split.
  - unfold add_attr. run_with Hs. destruct bounds as [vf vl].
    unfold bind, lift. rewrite Hc. reflexivity.
  - pose proof (frame_get_sectioninfo k w) as [F _]. rewrite Hs in F. exact F.
Qed.

Lemma add_attr_bad_comment_witness :
  let w0 := snd (get_sectioninfo None sample_object) in
  add_attr None "ListenPort" (AInt 51820) (Some "port") false sample_object
  = (Raise ValueError, w0)
  /\ lines w0 = lines sample_object.
Proof.
  intros w0.
  apply (add_attr_bad_comment None "ListenPort" (AInt 51820) "port" false
           sample_object w0 (One (AInt 0), One (AInt 1)) ValueError).
  - vm_compute. reflexivity.
  - reflexivity.
Defined.

Lemma find_matches_total attr v ls idx :
  (forall i, In i idx -> decodable ls i) ->
  find_matches attr v ls idx = Ok (filter (line_matches attr v ls) idx).
Proof.
  induction idx as [|i idx IH]; intros Hd; [reflexivity|].
  destruct (Hd i (or_introl eq_refl)) as (line & [[a vs] c] & Hi & Hp).
  assert (E : line_matches attr v ls i
              = String.eqb attr a
                && match v with
                   | None => true
                   | Some x => existsb (atom_eqb x) vs
                   end).
  { unfold line_matches. rewrite Hi, Hp. reflexivity. }
  cbn [find_matches filter]. rewrite Hi, Hp. cbn [obind].
  rewrite IH by (intros j Hj; apply Hd; right; exact Hj).
  cbn [obind]. rewrite E. reflexivity.
Qed.

Lemma filter_none {A} (P : A -> bool) (l : list A) :
  (forall x, In x l -> P x = false) -> filter P l = [].
Proof.
  induction l as [|x l IH]; intros H; [reflexivity|].
  cbn. rewrite (H x (or_introl eq_refl)). apply IH.
  intros y Hy. apply H. right. exact Hy.
Qed.

(** X9. [del_attr] on a section none of whose lines (below the first) has
    the name, or the name with the value, raises [ValueError] and leaves
    the lines as they were. *)
Theorem del_attr_no_match
  (k : key) (attr : string) (v : option atom) (rm : bool)
  (w w0 : WGConfig) (vf vl : value) (f l : Z) :
  get_sectioninfo k w = (Ok (vf, vl), w0) ->
  as_int vf = Ok f -> as_int vl = Ok l ->
  (forall i, f < i <= l -> decodable (lines w) i) ->
  (forall i, f < i <= l -> line_matches attr v (lines w) i = false) ->
  del_attr k attr v rm w = (Raise ValueError, w0) /\ lines w0 = lines w.
Proof.
  intros Hs Hf Hl Hd Hn.
  assert (F : lines w0 = lines w).
  { pose proof (frame_get_sectioninfo k w) as [F _]. rewrite Hs in F. exact F. }
  split; [|exact F].
  unfold del_attr. run_with Hs.
  run_with (lift_run _ _ w0 Hf). run_with (lift_run _ _ w0 Hl).
  run_with (gets_run lines w0). rewrite F.
  assert (E : find_matches attr v (lines w) (Py.range (f + 1) (l + 1)) = Ok []).
  { rewrite find_matches_total.
    - f_equal. apply filter_none. intros i Hi. apply range_In in Hi.
      apply Hn. lia.
    - intros i Hi. apply range_In in Hi. apply Hd. lia. }
  run_with (lift_run _ _ w0 E). reflexivity.
Qed.

(** ** The bounds of the sections *)

Lemma slice_in_bounds (ls : list string) (f l : Z) :
  0 <= f <= l -> l < Py.len ls -> Py.len (Py.slice ls f (l + 1)) = l + 1 - f.
Proof.
  intros H1 H2. unfold Py.slice, Py.len in *.
  rewrite length_firstn, length_skipn.
  rewrite (clamp_in ls f) by (unfold Py.len; lia).
  rewrite (clamp_in ls (l + 1)) by (unfold Py.len; lia). lia.
Qed.

Lemma close_section_in_buffer s sd w w' N :
  records_in_buffer w ->
  (s <> None ->
   bounded sd
   /\ forall l0, sget SECTION_LASTLINE sd = Some [AInt l0] -> l0 < N) ->
  N <= Py.len (lines w) ->
  close_section s sd w = (Ok tt, w') ->
  records_in_buffer w'.
Proof.
  intros G B HN H. rewrite close_section_stamp in H.
  apply bind_ok in H as (r & w0 & Hr & H). apply lift_ok in Hr as [Hr ->].
  destruct s as [s|]; [|apply ret_ok in H as [_ ->]; exact G].
  destruct (B ltac:(discriminate)) as [(f0 & rest & l0 & HF & HL & Hb) Hlt].
  specialize (Hlt l0 HL).
  destruct (collapse_all_get _ _ _ _ Hr HF) as (cf & Hcf & Rf).
  destruct (collapse_all_get _ _ _ _ Hr HL) as (cl & Hcl & Rl).
  cbn in Hcl. inversion Hcl; subst cl. clear Hcl.
  apply bind_ok in H as (t & w1 & Ht & H).
  assert (E1 : w1 = w).
  { destruct (String.eqb s "interface").
    - apply ret_ok in Ht as [_ ->]. reflexivity.
    - apply bind_ok in Ht as (ka & w2 & Hka & Ht).
      apply gets_ok in Hka as [-> ->].
      apply bind_ok in Ht as (k & w2 & Hk & Ht). apply lift_ok in Hk as [_ ->].
      apply ret_ok in Ht as [_ ->]. reflexivity. }
  subst w1. clear Ht.
  apply bind_ok in H as (u1 & w1 & S1 & H).
  apply bind_ok in H as (vf & w2 & Hvf & H). apply orelse_ok in Hvf as [Hvf ->].
  apply bind_ok in H as (vl & w2 & Hvl & H). apply orelse_ok in Hvl as [Hvl ->].
  apply bind_ok in H as (l & w2 & Hl & H). apply lift_ok in Hl as [Hl ->].
  apply bind_ok in H as (f & w2 & Hf & H). apply lift_ok in Hf as [Hf ->].
  apply bind_ok in H as (ls & w2 & Hls & H). apply gets_ok in Hls as [-> ->].
  rewrite Rf in Hvf. inversion Hvf; subst vf. clear Hvf.
  rewrite Rl in Hvl. inversion Hvl; subst vl. clear Hvl.
  cbn in Hl. inversion Hl; subst l. clear Hl.
  assert (Ef : cf = One (AInt f0) /\ f = f0).
  { destruct rest; cbn in Hcf; inversion Hcf; subst cf; cbn in Hf;
      [inversion Hf; split; reflexivity | discriminate]. }
  destruct Ef as [-> ->]. clear Hcf Hf.
  unfold stamp in H.
  apply bind_ok in H as (u2 & w2 & S2 & H).
  apply bind_ok in H as (first & w3 & Hfirst & H).
  apply orelse_ok in Hfirst as [Hfirst ->].
  destruct names_distinct as (N1 & N2 & N3 & N4 & N5 & N6).
  pose proof (frame_store t r w) as [L1 _]. rewrite S1 in L1. cbn [snd] in L1.
  rewrite L1 in *.
  assert (Built : in_buffer (lines w)
            (rset SECTION_DISABLED (Flag (Py.startswith first MARKER))
               (rset SECTION_RAW
                  (Many (map AStr (Py.slice (lines w) f0 (l0 + 1)))) r))).
  { exists f0, l0, first.
    split; [rewrite !rget_rset_other by assumption; exact Rf|].
    split; [rewrite !rget_rset_other by assumption; exact Rl|].
    split; [lia|]. split; [lia|].
    split; [apply (slice_first (lines w) f0 (l0 + 1) first); [lia | exact Hfirst]|].
    split; [rewrite rget_rset_other by assumption; apply rget_rset_same|].
    split; [apply slice_in_bounds; lia | apply rget_rset_same]. }
  destruct G as [Gi Gp]. destruct t as [|k].
  - apply store_interface_ok in S1, S2, H. subst. split.
    + intros r0 Hr0. cbn in Hr0. inversion Hr0; subst r0. right. exact Built.
    + intros p k r0 Hp Hk. exact (Gp p k r0 Hp Hk).
  - apply store_peer_ok in S1 as (p0 & P0 & ->).
    apply store_peer_ok in S2 as (p1 & P1 & ->).
    apply store_peer_ok in H as (p2 & P2 & ->).
    cbn in P1. inversion P1; subst p1. clear P1.
    cbn in P2. inversion P2; subst p2. clear P2.
    split.
    + intros r0 Hr0. exact (Gi r0 Hr0).
    + intros p k' r0 Hp Hk. cbn in Hp. inversion Hp; subst p. clear Hp.
      rewrite !pset_pset in Hk. cbn [lines with_peers].
      destruct (key_eqb k' k) eqn:E.
      * apply key_eqb_eq in E. subst k'. rewrite pget_pset_same in Hk.
        inversion Hk; subst r0. exact Built.
      * assert (Nk : k' <> k).
        { intros ->. rewrite (proj2 (key_eqb_eq k k) eq_refl) in E.
          discriminate. }
        rewrite pget_pset_other in Hk by exact Nk.
        exact (Gp p0 k' r0 P0 Hk).
Qed.

Lemma parse_step_in_buffer i raw loc w loc' w' :
  records_in_buffer w -> open_section i loc -> last_below i loc ->
  i < Py.len (lines w) ->
  parse_step i raw loc w = (Ok loc', w') ->
  records_in_buffer w' /\ last_below (i + 1) loc'.
Proof.
  intros G [[Hi Hcur] Hopen] Hlast Hlen H. unfold parse_step in H.
  destruct names_distinct as (N1 & _).
  destruct (Py.is_empty _).
  { apply ret_ok in H as [-> ->]. split; [exact G|].
    intros Hs l0 Hl0. specialize (Hlast Hs l0 Hl0). lia. }
  destruct (Py.startswith _ "[").
  { apply bind_ok in H as (u & w1 & Hc & H). destruct u.
    assert (G1 : records_in_buffer w1).
    { apply (close_section_in_buffer _ _ _ _ i G) in Hc; [exact Hc | | lia].
      intros Hs.
      destruct (Hopen Hs) as (f0 & rest & l0 & h & A & B & C & D & E & F0).
      destruct (last_empty_line_in_section loc) as [e|].
      - split.
        + exists f0, rest, (e - 1). split; [|split].
          * unfold sget, sset in *. rewrite sget_sset_other by exact N1.
            exact A.
          * apply sget_sset_same.
          * specialize (F0 e eq_refl). lia.
        + intros l1 Hl1. unfold sget, sset in Hl1.
          rewrite sget_sset_same in Hl1. inversion Hl1.
          specialize (Hcur e eq_refl). lia.
      - split.
        + exists f0, rest, l0. repeat split; try assumption; lia.
        + intros l1 Hl1. exact (Hlast Hs l1 Hl1). }
    destruct (_ || _); [|discriminate H].
    apply ret_ok in H as [-> ->]. split; [exact G1|].
    intros _ l0 Hl0. cbn in Hl0. inversion Hl0. lia. }
  assert (Keep : forall sd,
    last_below (i + 1)
      (mkLocals (section loc) (sset SECTION_LASTLINE [AInt i] sd)
         (last_empty_line_in_section loc))).
  { intros sd _ l0 Hl0. cbn in Hl0. unfold sget, sset in Hl0.
    rewrite sget_sset_same in Hl0. inversion Hl0. lia. }
  destruct (Py.startswith _ "#").
  { apply ret_ok in H as [-> ->]. split; [exact G | apply Keep]. }
  apply bind_ok in H as ([[attr value] c] & w1 & Hp & H).
  apply lift_ok in Hp as [Hp ->]. apply ret_ok in H as [-> ->].
  split; [exact G | apply Keep].
Qed.

Lemma parse_loop_in_buffer ls : forall i loc w loc' w',
  peers_good w -> records_in_buffer w ->
  open_section i loc -> last_below i loc ->
  i + Py.len ls = Py.len (lines w) ->
  parse_loop i ls loc w = (Ok loc', w') ->
  records_in_buffer w' /\ open_section (Py.len (lines w)) loc'
  /\ last_below (Py.len (lines w)) loc' /\ lines w' = lines w.
Proof.
  induction ls as [|line ls IH]; intros i loc w loc' w' P G O B Hi H;
    cbn [parse_loop] in H.
  - apply ret_ok in H as [-> ->]. unfold Py.len in Hi at 1. cbn in Hi.
    rewrite Z.add_0_r in Hi. subst i.
    split; [exact G|]. split; [exact O|]. split; [exact B | reflexivity].
  - apply bind_ok in H as (loc1 & w1 & H1 & H).
    assert (Hlen : i < Py.len (lines w)).
    { unfold Py.len in Hi at 1. cbn [List.length] in Hi. lia. }
    destruct (parse_step_good _ _ _ _ _ _ P O H1) as [P1 O1].
    destruct (parse_step_in_buffer _ _ _ _ _ _ G O B Hlen H1) as [G1 B1].
    pose proof (frame_parse_step i line loc w) as [F _]. rewrite H1 in F.
    cbn [snd] in F.
    destruct (IH (i + 1) loc1 w1 loc' w' P1 G1 O1 B1) as (G2 & O2 & B2 & F2).
    + rewrite F. unfold Py.len in Hi at 1. cbn [List.length] in Hi.
      unfold Py.len at 1. lia.
    + exact H.
    + rewrite F in *. split; [exact G2|]. split; [exact O2|].
      split; [exact B2 | exact F2].
Qed.

Lemma parse_lines_records w w' :
  parse_lines w = (Ok tt, w') -> records_in_buffer w'.
Proof.
  rewrite parse_lines_loop. intros H.
  apply bind_ok in H as (loc & w1 & Hl & H).
  assert (P0 : peers_good (cleared w)).
  { intros p k r Hp Hk. cbn in Hp. inversion Hp; subst p. discriminate Hk. }
  assert (G0 : records_in_buffer (cleared w)).
  { split.
    - intros r Hr. cbn in Hr. inversion Hr. left. reflexivity.
    - intros p k r Hp Hk. cbn in Hp. inversion Hp; subst p. discriminate Hk. }
  assert (O0 : open_section 0 start).
  { split; cbn.
    - split; [lia|]. intros e He. inversion He. lia.
    - intros Hs. contradiction. }
  assert (B0 : last_below 0 start) by (intros Hs; contradiction).
  destruct (parse_loop_in_buffer _ _ _ _ _ _ P0 G0 O0 B0 eq_refl Hl)
    as (G1 & [_ O1] & B1 & F1).
  change (lines (cleared w)) with (lines w) in *.
  pose proof (frame_close_section (section loc) (data loc) w1) as [F2 _].
  rewrite H in F2. cbn [snd] in F2.
  apply (close_section_in_buffer _ _ _ _ (Py.len (lines w)) G1) in H;
    [exact H | | rewrite F1; lia].
  intros Hs. destruct (O1 Hs) as (f0 & rest & l0 & h & A & B & C & D & _).
  split.
  - exists f0, rest, l0. repeat split; try assumption; lia.
  - intros l1 Hl1. exact (B1 Hs l1 Hl1).
Qed.

(** X10. After a parse that returns, every peer record, and the interface
    record when the buffer has an interface section, has integer bounds
    [0 <= first <= last < len(lines)], has for raw lines the lines
    [lines[first:last+1]], all of them, and is flagged disabled exactly
    when line [first] starts with the disable marker; the lines are those
    parsed. *)
Theorem parse_lines_in_buffer (w w' : WGConfig) :
  parse_lines w = (Ok tt, w') ->
  records_in_buffer w' /\ lines w' = lines w.
Proof.
  intros H. split; [exact (parse_lines_records w w' H)|].
  pose proof (frame_parse_lines w) as [F _]. rewrite H in F. exact F.
Qed.

Lemma parse_lines_in_buffer_witness :
  records_in_buffer (snd (parse_lines sample_object))
  /\ lines (snd (parse_lines sample_object)) = lines sample_object.
Proof.
  apply (parse_lines_in_buffer sample_object). vm_compute. reflexivity.
Defined.

(** ** What the edits of a peer do to the lines *)

(** The section of a record that lies in the buffer: the lines before it,
    its own lines, the lines after it. *)
Lemma section_split (ls : list string) (r : record) :
  in_buffer ls r ->
  exists f l pre sec post,
    rget SECTION_FIRSTLINE r = Some (One (AInt f))
    /\ rget SECTION_LASTLINE r = Some (One (AInt l))
    /\ 0 <= f <= l
    /\ ls = pre ++ sec ++ post
    /\ Py.len pre = f /\ Py.len sec = l + 1 - f
    /\ raw_lines r = map AStr sec.
Proof.
  intros (f & l & first & Rf & Rl & Hb & Hl & _ & Rraw & Hlen & _).
  exists f, l, (firstn (Z.to_nat f) ls), (Py.slice ls f (l + 1)),
    (skipn (Z.to_nat (l + 1)) ls).
  split; [exact Rf|]. split; [exact Rl|]. split; [exact Hb|].
  split; [|split; [|split]].
  - unfold Py.slice.
    rewrite (clamp_in ls f) by (unfold Py.len in *; lia).
    rewrite (clamp_in ls (l + 1)) by (unfold Py.len in *; lia).
    rewrite <- (firstn_skipn (Z.to_nat f) ls) at 1. f_equal.
    rewrite <- (firstn_skipn (Z.to_nat (l + 1) - Z.to_nat f)
                  (skipn (Z.to_nat f) ls)) at 1.
    f_equal. rewrite skipn_skipn. f_equal. lia.
  - unfold Py.len in *. rewrite length_firstn. lia.
  - exact Hlen.
  - unfold raw_lines. rewrite Rraw. reflexivity.
Qed.

Lemma map_section_app edit f l a : forall i b,
  map_section edit f l i (a ++ b)
  = map_section edit f l i a ++ map_section edit f l (i + Py.len a) b.
Proof.
  induction a as [|x a IH]; intros i b.
  - cbn. unfold Py.len. cbn. rewrite Z.add_0_r. reflexivity.
  - cbn [app map_section]. rewrite IH. f_equal. f_equal. f_equal.
    unfold Py.len. cbn [List.length]. lia.
Qed.

Lemma map_section_outside edit f l a : forall i,
  i + Py.len a <= f \/ l < i -> map_section edit f l i a = a.
Proof.
  induction a as [|x a IH]; intros i H; [reflexivity|].
  unfold Py.len in H. cbn [List.length] in H. cbn [map_section].
  replace ((f <=? i) && (i <=? l)) with false
    by (symmetry; apply andb_false_iff;
        destruct H; [left; apply Z.leb_gt | right; apply Z.leb_gt]; lia).
  f_equal. apply IH. unfold Py.len. lia.
Qed.

Lemma map_section_inside edit f l a : forall i,
  f <= i -> i + Py.len a <= l + 1 -> map_section edit f l i a = map edit a.
Proof.
  induction a as [|x a IH]; intros i H1 H2; [reflexivity|].
  unfold Py.len in H2. cbn [List.length] in H2. cbn [map_section map].
  replace ((f <=? i) && (i <=? l)) with true
    by (symmetry; apply andb_true_iff; split; apply Z.leb_le; lia).
  f_equal. apply IH; [lia | unfold Py.len; lia].
Qed.

Lemma map_section_split edit f l pre sec post :
  Py.len pre = f -> Py.len sec = l + 1 - f ->
  map_section edit f l 0 (pre ++ sec ++ post) = pre ++ map edit sec ++ post.
Proof.
  intros H1 H2. rewrite !map_section_app.
  rewrite (map_section_outside edit f l pre) by lia.
  rewrite (map_section_inside edit f l sec) by lia.
  rewrite (map_section_outside edit f l post) by lia. reflexivity.
Qed.

(** The peer found by the read of [peers] on an object in step with its
    lines has its section in the buffer. *)
Lemma coherent_in_buffer k w p wp r :
  coherent w -> peers w = (Ok p, wp) -> pget k p = Some r ->
  in_buffer (lines w) r
  /\ exists w0, parse_lines w0 = (Ok tt, wp) /\ lines wp = lines w.
Proof.
  intros C Hp Hk. destruct (coherent_peers _ _ _ C Hp) as (w0 & Hparse & Fl).
  split; [|exists w0; split; assumption].
  destruct (parse_lines_records _ _ Hparse) as [_ G].
  rewrite <- Fl. exact (G p k r (peers_ok _ _ _ Hp) Hk).
Qed.

(** X11. On an object in step with its lines, [disable_peer] on a peer that
    is enabled returns, puts the disable marker in front of each line of
    the peer's section and of no other line, and leaves the records
    unbuilt; the peer then reads as disabled. *)
Theorem disable_peer_marks_section
  (k : key) (w wp : WGConfig) (p : peer_map) (r : record) :
  coherent w ->
  peers w = (Ok p, wp) -> pget k p = Some r -> is_disabled r = false ->
  exists w1 pre sec post,
    disable_peer k w = (Ok tt, w1)
    /\ lines w = pre ++ sec ++ post
    /\ raw_lines r = map AStr sec
    /\ lines w1 = pre ++ map (String.append MARKER) sec ++ post
    /\ unbuilt w1
    /\ fst (get_peer_enabled k w1) = Ok false.
Proof.
  intros C Hp Hk Hd.
  destruct (coherent_in_buffer _ _ _ _ _ C Hp Hk) as [B (w0 & Hparse & Fl)].
  pose proof (peers_ok _ _ _ Hp) as Hc.
  destruct (section_split _ _ B)
    as (f & l & pre & sec & post & Rf & Rl & Hb & E & L1 & L2 & Hraw).
  exists (edited (String.append MARKER) f l wp), pre, sec, post.
  assert (Lines : lines (edited (String.append MARKER) f l wp)
                  = pre ++ map (String.append MARKER) sec ++ post).
  { cbn [edited lines with_peers with_interface with_lines].
    rewrite Fl, E. apply map_section_split; assumption. }
  split; [|split; [exact E | split; [exact Hraw | split; [exact Lines|]]]].
  { rewrite (disable_peer_found _ _ _ _ _ Hp Hk), Hd.
    apply edit_run; assumption. }
  split; [split; reflexivity|].
  destruct (reparse_after_edit (String.append MARKER) k w0 p wp r f l
              normal_marker Hparse Hc Hk Rf Rl)
    as (p1 & wp1 & r1 & Hp1 & Hk1 & G1 & Rf1 & Rl1 & Lw).
  destruct G1 as (f' & l' & first1 & Rf' & Rl' & _ & Hfirst & _ & Rdis).
  rewrite Rf1 in Rf'. inversion Rf'; subst f'.
  rewrite Rl1 in Rl'. inversion Rl'; subst l'.
  apply slice_first in Hfirst; [|lia].
  rewrite Lw, map_section_nth in Hfirst.
  destruct (nth_error (lines wp) (Z.to_nat f)) as [x|]; [|discriminate].
  cbn [option_map] in Hfirst.
  assert (In_range : (f <=? 0 + Z.of_nat (Z.to_nat f))
                     && (0 + Z.of_nat (Z.to_nat f) <=? l) = true)
    by (apply andb_true_iff; split; apply Z.leb_le; lia).
  rewrite In_range in Hfirst.
  assert (Hd1 : is_disabled r1 = true).
  { unfold is_disabled. rewrite Rdis. injection Hfirst as <-.
    apply startswith_marker. }
  pose proof (get_peer_enabled_built k wp1 p1 r1 (peers_ok _ _ _ Hp1) Hk1) as Q.
  unfold get_peer_enabled, get_peer in *. unfold bind at 1.
  unfold bind at 1 in Q.
  rewrite (bind_run _ _ _ _ _ Hp1). rewrite Hk1. cbn.
  fold (is_disabled r1). rewrite Hd1. reflexivity.
Qed.

(** X12. On an object in step with its lines, [enable_peer] on a peer the
    map has returns, removes every disable marker from each line of the
    peer's section, leaves the other lines as they are and the records
    unbuilt; on a section without a marker it changes no line. *)
Theorem enable_peer_strips_section
  (k : key) (w wp : WGConfig) (p : peer_map) (r : record) :
  coherent w ->
  peers w = (Ok p, wp) -> pget k p = Some r ->
  exists w1 pre sec post,
    enable_peer k w = (Ok tt, w1)
    /\ lines w = pre ++ sec ++ post
    /\ raw_lines r = map AStr sec
    /\ lines w1 = pre ++ map (Py.replace MARKER "") sec ++ post
    /\ unbuilt w1
    /\ ((forall s, In s sec -> Py.replace MARKER "" s = s) ->
        lines w1 = lines w).
Proof.
  intros C Hp Hk.
  destruct (coherent_in_buffer _ _ _ _ _ C Hp Hk) as [B (w0 & Hparse & Fl)].
  destruct (section_split _ _ B)
    as (f & l & pre & sec & post & Rf & Rl & Hb & E & L1 & L2 & Hraw).
  exists (edited (Py.replace MARKER "") f l wp), pre, sec, post.
  assert (Lines : lines (edited (Py.replace MARKER "") f l wp)
                  = pre ++ map (Py.replace MARKER "") sec ++ post).
  { cbn [edited lines with_peers with_interface with_lines].
    rewrite Fl, E. apply map_section_split; assumption. }
  split; [|split; [exact E | split; [exact Hraw | split; [exact Lines|]]]].
  { rewrite (enable_peer_found _ _ _ _ _ Hp Hk). apply edit_run; assumption. }
  split; [split; reflexivity|].
  intros Hfree. rewrite Lines, E. f_equal. f_equal.
  clear -Hfree. induction sec as [|x sec IH]; [reflexivity|].
  cbn. rewrite (Hfree x (or_introl eq_refl)). f_equal. apply IH.
  intros s Hs. apply Hfree. right. exact Hs.
Qed.

Lemma firstn_snoc {A} (ls : list A) (n : nat) (x : A) :
  nth_error ls n = Some x -> firstn (S n) ls = firstn n ls ++ [x].
Proof.
  revert n. induction ls as [|y ls IH]; intros n H.
  - destruct n; discriminate H.
  - destruct n as [|n]; cbn in H.
    + inversion H. reflexivity.
    + cbn [firstn app]. f_equal. apply IH, H.
Qed.

Lemma slice_head {A} (ls : list A) (n : Z) :
  0 <= n <= Py.len ls -> Py.slice ls 0 n = firstn (Z.to_nat n) ls.
Proof.
  intros H. unfold Py.slice.
  rewrite (clamp_in ls 0) by lia. rewrite (clamp_in ls n) by lia.
  cbn [Z.to_nat skipn]. rewrite Nat.sub_0_r. reflexivity.
Qed.

Lemma app_length_eq {A} (a b c d : list A) :
  a ++ b = c ++ d -> List.length a = List.length c -> a = c /\ b = d.
Proof.
  revert c. induction a as [|x a IH]; intros [|y c] H L; cbn in *;
    try discriminate.
  - split; [reflexivity | exact H].
  - inversion H; subst. destruct (IH c H2 ltac:(lia)) as [-> ->].
    split; reflexivity.
Qed.

(** X13. On an object in step with its lines, [del_peer] on a peer the map
    has returns and removes the lines of the peer's section, together with
    the line right before them when that line is empty, and no other line;
    the records are left unbuilt. *)
Theorem del_peer_removes_section
  (k : key) (w wp : WGConfig) (p : peer_map) (r : record) :
  coherent w ->
  peers w = (Ok p, wp) -> pget k p = Some r ->
  exists w1 pre sep sec post,
    del_peer k w = (Ok tt, w1)
    /\ lines w = pre ++ sep ++ sec ++ post
    /\ raw_lines r = map AStr sec
    /\ (sep = [""] \/ (sep = [] /\ forall pre', pre <> pre' ++ [""]))
    /\ lines w1 = pre ++ post
    /\ unbuilt w1.
Proof.
  intros C Hp Hk.
  destruct (coherent_in_buffer _ _ _ _ _ C Hp Hk) as [B (w0 & Hparse & Fl)].
  destruct (section_split _ _ B)
    as (f & l & pre & sec & post & Rf & Rl & Hb & E & L1 & L2 & Hraw).
  assert (Tail : Py.slice_from (lines wp) (l + 1) = post).
  { unfold Py.slice_from. rewrite Fl.
    rewrite clamp_in
      by (rewrite E; unfold Py.len in *; rewrite !length_app; lia).
    rewrite E, app_assoc. rewrite skipn_app.
    rewrite skipn_all2 by (unfold Py.len in *; rewrite length_app; lia).
    replace (Z.to_nat (l + 1) - List.length (pre ++ sec))%nat with O
      by (unfold Py.len in *; rewrite length_app; lia).
    reflexivity. }
  assert (Head : forall n, 0 <= n <= f ->
            (if n >? 0 then Py.slice (lines wp) 0 n else [])
            = firstn (Z.to_nat n) pre).
  { intros n Hn. rewrite Fl.
    destruct (n >? 0) eqn:En.
    - rewrite slice_head
        by (rewrite E; unfold Py.len in *; rewrite !length_app; lia).
      rewrite E, firstn_app.
      replace (Z.to_nat n - List.length pre)%nat with O
        by (unfold Py.len in *; lia).
      cbn [firstn]. apply app_nil_r.
    - rewrite Z.gtb_ltb in En. apply Z.ltb_ge in En.
      replace n with 0 by lia. reflexivity. }
  assert (Run : forall f',
    0 <= f' <= f ->
    (f' <- ret f' ;;
     let head := if f' >? 0 then Py.slice (lines wp) 0 f' else [] in
     l <- lift (as_int (One (AInt l))) ;;
     modify (with_lines (head ++ Py.slice_from (lines wp) (l + 1))) ;;;
     invalidate_data) wp
    = (Ok tt,
       with_peers None
         (with_interface None
            (with_lines (firstn (Z.to_nat f') pre ++ post) wp)))).
  { intros f' Hf'. unfold bind, ret, lift, modify, invalidate_data. cbn.
    rewrite Tail. change (f' >? 0) with (f' >? 0).
    rewrite (Head f' Hf'). reflexivity. }
  unfold del_peer. run_with Hp. rewrite Hk, Rf, Rl.
  run_with (orelse_run KeyError _ _ wp (eq_refl (Some (One (AInt f))))).
  run_with (orelse_run KeyError _ _ wp (eq_refl (Some (One (AInt l))))).
  run_with (lift_run _ _ wp (eq_refl (Ok f) : as_int (One (AInt f)) = Ok f)).
  run_with (gets_run lines wp).
  destruct (f >? 0) eqn:Ef.
  - rewrite Z.gtb_ltb in Ef. apply Z.ltb_lt in Ef.
    assert (Hprev : exists prev,
              Py.index (lines wp) (f - 1) = Some prev
              /\ nth_error pre (Z.to_nat (f - 1)) = Some prev).
    { assert (Hn : (Z.to_nat (f - 1) < List.length pre)%nat)
        by (unfold Py.len in *; lia).
      destruct (nth_error pre (Z.to_nat (f - 1))) as [prev|] eqn:Ep;
        [|apply nth_error_None in Ep; lia].
      exists prev. split; [|reflexivity].
      replace (f - 1) with (Z.of_nat (Z.to_nat (f - 1))) by lia.
      rewrite index_nat, Fl, E, nth_error_app1 by exact Hn. exact Ep. }
    destruct Hprev as (prev & Hi & Hn).
    assert (Blk : (prev <- orelse IndexError (Py.index (lines wp) (f - 1)) ;;
                   ret (if Py.is_empty prev then f - 1 else f)) wp
                  = (Ok (if Py.is_empty prev then f - 1 else f), wp)).
    { run_with (orelse_run IndexError _ _ wp Hi). reflexivity. }
    unfold bind at 1. rewrite Blk.
    assert (Split : pre = firstn (Z.to_nat (f - 1)) pre ++ [prev]).
    { rewrite <- (firstn_snoc _ _ _ Hn).
      replace (S (Z.to_nat (f - 1))) with (List.length pre)
        by (unfold Py.len in *; lia).
      symmetry. apply firstn_all. }
    destruct (Py.is_empty prev) eqn:Eprev.
    + destruct prev; [|discriminate Eprev].
      exists (with_peers None
                (with_interface None
                   (with_lines (firstn (Z.to_nat (f - 1)) pre ++ post) wp))),
        (firstn (Z.to_nat (f - 1)) pre), [""], sec, post.
      split; [apply (Run (f - 1)); lia|].
      split; [rewrite E; rewrite Split at 1; rewrite <- !app_assoc;
              reflexivity|].
      split; [exact Hraw|]. split; [left; reflexivity|].
      split; [reflexivity | split; reflexivity].
    + exists (with_peers None
                (with_interface None
                   (with_lines (firstn (Z.to_nat f) pre ++ post) wp))),
        pre, [], sec, post.
      split; [apply (Run f); lia|].
      split; [exact E|]. split; [exact Hraw|].
      split.
      { right. split; [reflexivity|]. intros pre' Hpre'.
        rewrite Split in Hpre'. apply app_length_eq in Hpre' as [_ Hx].
        - inversion Hx. subst prev. discriminate Eprev.
        - apply (f_equal (@List.length string)) in Hpre'.
          rewrite !length_app in Hpre'. cbn in Hpre'. lia. }
      split; [|split; reflexivity].
      cbn [lines with_peers with_interface with_lines].
      replace (Z.to_nat f) with (List.length pre) by (unfold Py.len in *; lia).
      rewrite firstn_all. reflexivity.
  - rewrite Z.gtb_ltb in Ef. apply Z.ltb_ge in Ef.
    assert (Hf0 : f = 0) by lia.
    assert (Hpre : pre = []).
    { destruct pre; [reflexivity | unfold Py.len in L1; cbn in L1; lia]. }
    subst pre. clear L1. subst f.
    exists (with_peers None
              (with_interface None (with_lines (firstn 0 [] ++ post) wp))),
      [], [], sec, post.
    split; [apply (Run 0); lia|].
    split; [exact E|]. split; [exact Hraw|].
    split; [right; split; [reflexivity|]; intros [|x pre']; discriminate|].
    split; [reflexivity | split; reflexivity].
Qed.

Lemma disable_peer_marks_section_witness :
  let k := Some (AStr "BBB=") in
  exists w1 pre sec post,
    disable_peer k sample_object = (Ok tt, w1)
    /\ lines sample_object = pre ++ sec ++ post
    /\ raw_lines (record_of k (peers_of sample_object)) = map AStr sec
    /\ lines w1 = pre ++ map (String.append MARKER) sec ++ post
    /\ unbuilt w1
    /\ fst (get_peer_enabled k w1) = Ok false.
Proof.
  intros k.
  apply (disable_peer_marks_section k sample_object
           (snd (peers sample_object)) (peers_of sample_object)).
  - left. split; reflexivity.
  - vm_compute. reflexivity.
  - vm_compute. reflexivity.
  - vm_compute. reflexivity.
Defined.

Lemma enable_peer_strips_section_witness :
  let k := Some (AStr "k") in
  exists w1 pre sec post,
    enable_peer k disabled_config = (Ok tt, w1)
    /\ lines disabled_config = pre ++ sec ++ post
    /\ raw_lines (record_of k (peers_of disabled_config)) = map AStr sec
    /\ lines w1 = pre ++ map (Py.replace MARKER "") sec ++ post
    /\ unbuilt w1
    /\ ((forall s, In s sec -> Py.replace MARKER "" s = s) ->
        lines w1 = lines disabled_config).
Proof.
  intros k.
  apply (enable_peer_strips_section k disabled_config
           (snd (peers disabled_config)) (peers_of disabled_config)).
  - left. split; reflexivity.
  - vm_compute. reflexivity.
  - vm_compute. reflexivity.
Defined.

Lemma del_peer_removes_section_witness :
  let k := Some (AStr "BBB=") in
  exists w1 pre sep sec post,
    del_peer k sample_object = (Ok tt, w1)
    /\ lines sample_object = pre ++ sep ++ sec ++ post
    /\ raw_lines (record_of k (peers_of sample_object)) = map AStr sec
    /\ (sep = [""] \/ (sep = [] /\ forall pre', pre <> pre' ++ [""]))
    /\ lines w1 = pre ++ post
    /\ unbuilt w1.
Proof.
  intros k.
  apply (del_peer_removes_section k sample_object
           (snd (peers sample_object)) (peers_of sample_object)).
  - left. split; reflexivity.
  - vm_compute. reflexivity.
  - vm_compute. reflexivity.
Defined.

Lemma del_attr_no_match_witness :
  let w0 := snd (get_sectioninfo None sample_object) in
  del_attr None "ListenPort" None true sample_object = (Raise ValueError, w0)
  /\ lines w0 = lines sample_object.
Proof.
  intros w0.
  apply (del_attr_no_match None "ListenPort" None true sample_object w0
           (One (AInt 0)) (One (AInt 1)) 0 1).
  - vm_compute. reflexivity.
  - reflexivity.
  - reflexivity.
  - intros i Hi. assert (i = 1) as -> by lia.
    eexists. eexists. split; reflexivity.
  - intros i Hi. assert (i = 1) as -> by lia. reflexivity.
Defined.

(** ** Buffers that do not parse, buffers without a section *)

Lemma parse_loop_app a : forall i b loc w,
  parse_loop i (a ++ b) loc w
  = (loc' <- parse_loop i a loc ;; parse_loop (i + Py.len a) b loc') w.
Proof.
  induction a as [|x a IH]; intros i b loc w.
  - cbn. unfold Py.len. cbn. rewrite Z.add_0_r. reflexivity.
  - cbn [app parse_loop]. unfold bind. cbv beta.
    destruct (parse_step i x loc w) as [[loc1|e] w1]; [|reflexivity].
    rewrite IH. unfold bind, Py.len. cbn [List.length].
    replace (i + Z.of_nat (S (List.length a)))
      with (i + 1 + Z.of_nat (List.length a)) by lia.
    reflexivity.
Qed.

Lemma parse_step_unsupported i line loc w :
  unsupported_header line ->
  exists e w', parse_step i line loc w = (Raise e, w').
Proof.
  intros (H1 & H2 & H3). unfold parse_step. fold (normal line).
  rewrite H1, H2. fold (section_name line). rewrite H3.
  unfold bind. destruct (close_section _ _ w) as [[u|e] w1].
  - exists ValueError, w1. reflexivity.
  - exists e, w1. reflexivity.
Qed.

(** X14. A buffer with a header line of a section that is neither
    [interface] nor [peer] does not parse: [parse_lines] raises, and so does
    every read of the records of an object whose records are unbuilt. *)
Theorem unsupported_section_raises
  (w : WGConfig) (pre post : list string) (line : string) :
  lines w = pre ++ line :: post ->
  unsupported_header line ->
  exists e w',
    parse_lines w = (Raise e, w')
    /\ (unbuilt w ->
        interface w = (Raise e, w') /\ peers w = (Raise e, w')).
Proof.
  intros E H.
  assert (P : exists e w', parse_lines w = (Raise e, w')).
  { rewrite parse_lines_loop, E. unfold bind at 1. rewrite parse_loop_app.
    unfold bind at 1.
    destruct (parse_loop 0 pre start (cleared w)) as [[loc1|e] w1];
      [|exists e, w1; reflexivity].
    cbn [parse_loop]. unfold bind at 1.
    destruct (parse_step_unsupported (0 + Py.len pre) line loc1 w1 H)
      as (e & w2 & ->).
    exists e, w2. reflexivity. }
  destruct P as (e & w' & P). exists e, w'. split; [exact P|].
  intros [Ui Up]. split.
  - unfold interface, bind, gets. rewrite Ui, P. reflexivity.
  - unfold peers, bind, gets. rewrite Up, P. reflexivity.
Qed.

Lemma unsupported_section_raises_witness :
  exists e w',
    parse_lines unsupported_config = (Raise e, w')
    /\ (unbuilt unsupported_config ->
        interface unsupported_config = (Raise e, w')
        /\ peers unsupported_config = (Raise e, w')).
Proof.
  apply (unsupported_section_raises unsupported_config
           ["[Interface]"; "ListenPort = 1"; ""; "[Peer]"; "PublicKey = k"; ""]
           [] "[Foo]").
  - reflexivity.
  - repeat split.
Defined.

Lemma split_not_nil sep s : Py.split sep s <> [].
Proof.
  destruct s as [|c s]; cbn; [discriminate|].
  destruct (Ascii.eqb c sep); [discriminate|].
  destruct (Py.split sep s); discriminate.
Qed.

Lemma parse_line_valued line a v c : parse_line line = Ok (a, v, c) -> v <> [].
Proof.
  unfold parse_line.
  destruct (Py.partition "=" line) as [[attr m] value].
  destruct (Py.partition "#" value) as [[p0 p1] p2].
  destruct (Py.isnumeric (Py.strip p0)).
  - destruct (Py.int (Py.strip p0)); intros H; inversion H. discriminate.
  - intros H. inversion H. intros E. apply map_eq_nil in E.
    exact (split_not_nil _ _ E).
Qed.

Lemma all_valued_sset k v sd :
  v <> [] -> all_valued sd -> all_valued (sset k v sd).
Proof.
  intros Hv H. induction H as [|[k' v'] sd Hk Hsd IH]; cbn.
  - constructor; [exact Hv | constructor].
  - destruct (String.eqb k k'); constructor; assumption.
Qed.

Lemma collapse_all_valued sd : all_valued sd -> exists r, collapse_all sd = Ok r.
Proof.
  induction 1 as [|[k v] sd Hv _ [r IH]]; cbn.
  - exists []. reflexivity.
  - destruct v as [|a [|b v]]; [contradiction Hv; reflexivity | |];
      cbn; rewrite IH; cbn; eexists; reflexivity.
Qed.

Lemma parse_step_plain i line loc w :
  plain_line line -> section loc = None -> all_valued (data loc) ->
  exists loc',
    parse_step i line loc w = (Ok loc', w)
    /\ section loc' = None /\ all_valued (data loc').
Proof.
  intros [H1 ([[a v] c] & H2)] Hs Hv. unfold parse_step. fold (normal line).
  rewrite H1.
  destruct (Py.is_empty (normal line)).
  { eexists. split; [reflexivity|]. split; assumption. }
  destruct (Py.startswith (normal line) "#").
  { eexists. split; [reflexivity|]. split; [exact Hs|].
    apply all_valued_sset; [discriminate | exact Hv]. }
  unfold bind, lift. rewrite H2. eexists. split; [reflexivity|].
  split; [exact Hs|]. cbn [data].
  apply all_valued_sset; [discriminate|].
  apply all_valued_sset; [|exact Hv].
  intros E. apply app_eq_nil in E as [_ E].
  exact (parse_line_valued _ _ _ _ H2 E).
Qed.

Lemma parse_loop_plain ls : forall i loc w,
  Forall plain_line ls -> section loc = None -> all_valued (data loc) ->
  exists loc',
    parse_loop i ls loc w = (Ok loc', w)
    /\ section loc' = None /\ all_valued (data loc').
Proof.
  induction ls as [|line ls IH]; intros i loc w H Hs Hv.
  - exists loc. split; [reflexivity | split; assumption].
  - inversion H as [|? ? Hl Hrest]; subst.
    destruct (parse_step_plain i line loc w Hl Hs Hv)
      as (loc1 & H1 & Hs1 & Hv1).
    destruct (IH (i + 1) loc1 w Hrest Hs1 Hv1) as (loc2 & H2 & Hs2 & Hv2).
    exists loc2. cbn [parse_loop]. rewrite (bind_run _ _ _ _ _ H1).
    split; [exact H2 | split; assumption].
Qed.

(** X15. A buffer without a header line (the empty buffer among them),
    whose lines [parse_line] reads, parses into an empty interface record
    and an empty peer map; on such an object [get_interface] returns the
    empty record, [get_peers] the empty list, and [add_attr] and [del_attr]
    on the interface raise [KeyError] without an edit. *)
Theorem no_section_parse
  (w : WGConfig) (attr : string) (v : atom) (c : option string)
  (b d : bool) (vo : option atom) (rm : bool) :
  Forall plain_line (lines w) ->
  parse_lines w = (Ok tt, cleared w)
  /\ (unbuilt w ->
      get_interface d w = (Ok [], cleared w)
      /\ get_peers true b d w = (Ok (inl []), cleared w)
      /\ add_attr None attr v c b w = (Raise KeyError, cleared w)
      /\ del_attr None attr vo rm w = (Raise KeyError, cleared w)).
Proof.
  intros H.
  assert (P : parse_lines w = (Ok tt, cleared w)).
  { rewrite parse_lines_loop.
    destruct (parse_loop_plain (lines w) 0 start (cleared w) H eq_refl
                (Forall_nil _)) as (loc & Hl & Hs & Hv).
    rewrite (bind_run _ _ _ _ _ Hl). unfold close_section.
    destruct (collapse_all_valued _ Hv) as [r Hr].
    unfold bind, lift. rewrite Hr, Hs. reflexivity. }
  split; [exact P|]. intros [Ui Up].
  assert (I : interface w = (Ok [], cleared w)).
  { unfold interface, bind, gets. rewrite Ui, P. reflexivity. }
  assert (Q : peers w = (Ok [], cleared w)).
  { unfold peers, bind, gets. rewrite Up, P. reflexivity. }
  assert (S : get_sectioninfo None w = (Raise KeyError, cleared w)).
  { unfold get_sectioninfo. rewrite (bind_run _ _ _ _ _ I). reflexivity. }
  split; [unfold get_interface; rewrite (bind_run _ _ _ _ _ I);
          destruct d; reflexivity|].
  split; [unfold get_peers; rewrite (bind_run _ _ _ _ _ Q); reflexivity|].
  split.
  - unfold add_attr, bind. rewrite S. reflexivity.
  - unfold del_attr, bind. rewrite S. reflexivity.
Qed.

Lemma no_section_parse_witness :
  let w := mkWG "PublicKey" ["# nothing yet"; ""; "Address = 10.0.0.1"]
             None None in
  parse_lines w = (Ok tt, cleared w)
  /\ (unbuilt w ->
      get_interface false w = (Ok [], cleared w)
      /\ get_peers true false false w = (Ok (inl []), cleared w)
      /\ add_attr None "ListenPort" (AInt 1) None false w
         = (Raise KeyError, cleared w)
      /\ del_attr None "Address" None true w = (Raise KeyError, cleared w)).
Proof.
  intros w.
  apply (no_section_parse w "ListenPort" (AInt 1) None false false None true).
  repeat constructor; eexists; reflexivity.
Defined.

(** ** The codec, there and back *)

Lemma sapp_assoc (a b c : string) : ((a ++ b) ++ c = a ++ (b ++ c))%string.
Proof. induction a as [|x a IH]; cbn; [reflexivity | rewrite IH; reflexivity]. Qed.

Lemma sapp_nil_r (a : string) : (a ++ "")%string = a.
Proof. induction a as [|x a IH]; cbn; [reflexivity | rewrite IH; reflexivity]. Qed.

Lemma lacks_app c a b : lacks c (a ++ b) = lacks c a && lacks c b.
Proof.
  unfold lacks. induction a as [|x a IH]; cbn; [reflexivity|].
  rewrite IH. apply andb_assoc.
Qed.

Lemma partition_sep sep a b :
  lacks sep a = true ->
  Py.partition sep (a ++ String sep b) = (a, String sep "", b).
Proof.
  unfold lacks. induction a as [|x a IH]; cbn; intros H.
  - rewrite Ascii.eqb_refl. reflexivity.
  - apply andb_true_iff in H as [Hx Ha]. apply negb_true_iff in Hx.
    rewrite Hx, (IH Ha). reflexivity.
Qed.

Lemma partition_none sep a :
  lacks sep a = true -> Py.partition sep a = (a, "", "").
Proof.
  unfold lacks. induction a as [|x a IH]; cbn; intros H; [reflexivity|].
  apply andb_true_iff in H as [Hx Ha]. apply negb_true_iff in Hx.
  rewrite Hx, (IH Ha). reflexivity.
Qed.

Lemma split_sep sep a b :
  lacks sep a = true ->
  Py.split sep (a ++ String sep b) = a :: Py.split sep b.
Proof.
  unfold lacks. induction a as [|x a IH]; cbn; intros H.
  - rewrite Ascii.eqb_refl. reflexivity.
  - apply andb_true_iff in H as [Hx Ha]. apply negb_true_iff in Hx.
    rewrite Hx, (IH Ha). reflexivity.
Qed.

Lemma split_none sep a : lacks sep a = true -> Py.split sep a = [a].
Proof.
  unfold lacks. induction a as [|x a IH]; cbn; intros H; [reflexivity|].
  apply andb_true_iff in H as [Hx Ha]. apply negb_true_iff in Hx.
  rewrite Hx, (IH Ha). reflexivity.
Qed.

Lemma lstrip_length s : (String.length (Py.lstrip s) <= String.length s)%nat.
Proof.
  induction s as [|c s IH]; cbn; [lia|].
  destruct (Py.is_space c); cbn; lia.
Qed.

Lemma rstrip_length s : (String.length (Py.rstrip s) <= String.length s)%nat.
Proof.
  induction s as [|c s IH]; cbn; [lia|].
  destruct (Py.is_space c && Py.is_empty (Py.rstrip s)); cbn; lia.
Qed.

(** A string that [strip] leaves as it is does not start with a blank, and
    [rstrip] leaves it as it is. *)
Lemma trimmed_cons c s :
  Py.strip (String c s) = String c s ->
  Py.is_space c = false /\ Py.rstrip (String c s) = String c s.
Proof.
  unfold Py.strip. cbn [Py.lstrip]. destruct (Py.is_space c) eqn:E.
  - intros H. apply (f_equal String.length) in H.
    pose proof (rstrip_length (Py.lstrip s)). pose proof (lstrip_length s).
    cbn in H. lia.
  - intros H. split; [reflexivity | exact H].
Qed.

Lemma rstrip_app_kept a b :
  Py.rstrip b <> "" -> Py.rstrip (a ++ b) = (a ++ Py.rstrip b)%string.
Proof.
  intros H. induction a as [|c a IH]; cbn; [reflexivity|].
  rewrite IH. destruct (a ++ Py.rstrip b)%string eqn:E.
  - destruct a; [contradiction | discriminate E].
  - cbn. rewrite andb_false_r. reflexivity.
Qed.

Lemma rstrip_app_blank s : Py.rstrip (s ++ " ") = Py.rstrip s.
Proof.
  induction s as [|c s IH]; [reflexivity|]. cbn. rewrite IH. reflexivity.
Qed.

(** A padded trimmed string strips to itself. *)
Lemma strip_padded_left s : Py.strip s = s -> Py.strip (String " " s) = s.
Proof. intros H. exact H. Qed.

Lemma strip_padded s :
  Py.strip s = s -> Py.strip (String " " (s ++ " ")) = s.
Proof.
  intros H. change (Py.strip (String " " (s ++ " "))) with (Py.strip (s ++ " ")).
  destruct s as [|c s]; [reflexivity|].
  destruct (trimmed_cons c s H) as [Hc Hr].
  unfold Py.strip. cbn [String.append Py.lstrip]. rewrite Hc.
  change (String c (s ++ " ")) with (String c s ++ " ")%string.
  rewrite rstrip_app_blank. exact Hr.
Qed.

Lemma join_cons sep x y ys :
  Py.join sep (x :: y :: ys) = (x ++ sep ++ Py.join sep (y :: ys))%string.
Proof. reflexivity. Qed.

Lemma join_plain xs :
  xs <> [] -> Forall plain_value xs ->
  Py.strip (Py.join ", " xs) = Py.join ", " xs
  /\ Py.join ", " xs <> ""
  /\ lacks "#" (Py.join ", " xs) = true.
Proof.
  intros N H. induction H as [|x xs (Hx1 & Hx2 & Hx3 & Hx4) Hxs IH];
    [contradiction|].
  destruct xs as [|y ys].
  - cbn. repeat split; assumption.
  - destruct (IH ltac:(discriminate)) as (J1 & J2 & J3).
    rewrite join_cons. set (J := Py.join ", " (y :: ys)) in *.
    destruct x as [|c x]; [contradiction|].
    destruct (trimmed_cons c x Hx2) as [Hc Hr].
    split; [|split].
    + unfold Py.strip. cbn [String.append Py.lstrip]. rewrite Hc.
      change (String c (x ++ String "," (String " " J)))
        with (String c x ++ (", " ++ J))%string.
      rewrite <- sapp_assoc. rewrite rstrip_app_kept.
      * f_equal. destruct J as [|d J']; [contradiction|].
        destruct (trimmed_cons d J' J1) as [_ HJ]. exact HJ.
      * destruct J as [|d J']; [contradiction|].
        destruct (trimmed_cons d J' J1) as [_ HJ]. rewrite HJ. discriminate.
    + discriminate.
    + rewrite !lacks_app, Hx4, J3. reflexivity.
Qed.

Lemma split_join xs x :
  Forall plain_value (x :: xs) ->
  map Py.strip (Py.split "," (Py.join ", " (x :: xs))) = x :: xs.
Proof.
  revert x. induction xs as [|y ys IH]; intros x H.
  - inversion H as [|? ? (H1 & H2 & H3 & H4) _]; subst.
    cbn [Py.join]. rewrite split_none by exact H3. cbn. rewrite H2.
    reflexivity.
  - inversion H as [|? ? (H1 & H2 & H3 & H4) Hrest]; subst.
    rewrite join_cons.
    change (x ++ ", " ++ Py.join ", " (y :: ys))%string
      with (x ++ String "," (" " ++ Py.join ", " (y :: ys)))%string.
    rewrite split_sep by exact H3. cbn [map]. rewrite H2. f_equal.
    specialize (IH y Hrest).
    destruct (Py.join ", " (y :: ys)) as [|d J] eqn:EJ.
    + destruct (join_plain (y :: ys) ltac:(discriminate) Hrest) as (_ & N & _).
      contradiction.
    + (* the blank after the comma goes with the first item *)
      cbn [String.append Py.split].
      change (Ascii.eqb " " ",") with false. cbv iota.
      cbn [Py.split] in IH.
      destruct (Ascii.eqb d ",") eqn:Ed.
      * cbn [map] in IH |- *. rewrite <- IH. reflexivity.
      * destruct (Py.split "," J) as [|z zs]; cbn [map] in IH |- *.
        -- rewrite <- IH. reflexivity.
        -- rewrite <- IH. reflexivity.
Qed.

(** X16. Decoding what [encode] wrote gives the name, the values and the
    comment back: for a trimmed name without [=], values that are not
    empty, trimmed, without comma and [#], that do not read as one number,
    and a comment that is empty or starts with [#]. *)
Theorem encode_then_parse (name : string) (xs : list string) (cm : string) :
  Py.strip name = name -> lacks "=" name = true ->
  xs <> [] -> Forall plain_value xs ->
  Py.isnumeric (Py.join ", " xs) = false ->
  (cm = "" \/ Py.startswith cm "#" = true) ->
  parse_line (encode name (map AStr xs) cm) = Ok (name, map AStr xs, cm).
Proof.
  intros Hn1 Hn2 Hx Hxs Hnum Hcm.
  destruct (join_plain xs Hx Hxs) as (J1 & J2 & J3).
  unfold encode. rewrite map_map. cbn [str_of_atom]. rewrite map_id.
  set (J := Py.join ", " xs) in *.
  set (tl := (if Py.is_empty cm then "" else " " ++ cm)%string).
  change (name ++ " = " ++ J ++ tl)%string
    with (name ++ String " " (String "=" (" " ++ J ++ tl)))%string.
  replace (name ++ String " " (String "=" (" " ++ J ++ tl)))%string
    with ((name ++ " ") ++ String "=" (" " ++ J ++ tl))%string
    by (rewrite sapp_assoc; reflexivity).
  unfold parse_line.
  rewrite partition_sep by (rewrite lacks_app, Hn2; reflexivity).
  assert (Hname : Py.strip (name ++ " ") = name)
    by exact (strip_padded name Hn1).
  rewrite Hname.
  assert (Hsplit : map (fun item => AStr (Py.strip item)) (Py.split "," J)
                   = map AStr xs).
  { rewrite <- (map_map Py.strip AStr). f_equal.
    destruct xs as [|x xs]; [contradiction|]. apply split_join, Hxs. }
  destruct Hcm as [-> | Hc].
  - (* no comment *)
    subst tl. cbn [Py.is_empty]. rewrite sapp_nil_r.
    rewrite partition_none by (rewrite lacks_app, J3; reflexivity).
    change (" " ++ J)%string with (String " " J).
    rewrite (strip_padded_left J J1), Hnum, Hsplit. reflexivity.
  - (* a comment that starts with # *)
    destruct cm as [|h cm']; [discriminate Hc|].
    rewrite startswith_char in Hc. apply Ascii.eqb_eq in Hc. subst h.
    subst tl. cbn [Py.is_empty].
    replace (" " ++ J ++ " " ++ String "#" cm')%string
      with ((" " ++ J ++ " ") ++ String "#" cm')%string
      by (rewrite !sapp_assoc; reflexivity).
    rewrite partition_sep by (rewrite !lacks_app, J3; reflexivity).
    change (" " ++ J ++ " ")%string with (String " " (J ++ " ")).
    rewrite (strip_padded J J1), Hnum, Hsplit. reflexivity.
Qed.

Lemma encode_then_parse_witness :
  parse_line (encode "AllowedIPs" (map AStr ["10.0.0.1/32"; "10.0.0.2/32"])
                "# two")
  = Ok ("AllowedIPs", map AStr ["10.0.0.1/32"; "10.0.0.2/32"], "# two").
Proof.
  apply encode_then_parse.
  - reflexivity.
  - reflexivity.
  - discriminate.
  - repeat constructor; discriminate.
  - reflexivity.
  - right. reflexivity.
Defined.

(** *** Integers *)

Lemma digits_decimal d :
  Py.all_chars Py.is_decimal (NilEmpty.string_of_uint d) = true.
Proof. induction d; cbn; try reflexivity; exact IHd. Qed.

Lemma int_digits_acc d : forall acc,
  Py.int_digits (Z.pos acc) (NilEmpty.string_of_uint d)
  = Some (Z.pos (Pos.of_uint_acc d acc)).
Proof.
  induction d; intros acc; cbn [NilEmpty.string_of_uint Py.int_digits
                                  Pos.of_uint_acc];
    try reflexivity;
    match goal with
    | |- context [Py.is_decimal ?c] =>
        change (Py.is_decimal c) with true; cbv iota
    end;
    match goal with
    | |- Py.int_digits ?a _ = Some (Z.pos (Pos.of_uint_acc _ ?b)) =>
        replace a with (Z.pos b)
          by (unfold Py.digit_value;
              match goal with
              | |- context [Z.of_N ?x] =>
                  let y := eval vm_compute in (Z.of_N x) in
                  change (Z.of_N x) with y
              end; lia)
    end;
    apply IHd.
Qed.

Lemma int_digits_zero d :
  Py.int_digits 0 (NilEmpty.string_of_uint d) = Some (Z.of_N (Pos.of_uint d)).
Proof.
  induction d; cbn [NilEmpty.string_of_uint Py.int_digits Pos.of_uint];
    try reflexivity;
    match goal with
    | |- context [Py.is_decimal ?c] =>
        change (Py.is_decimal c) with true; cbv iota
    end;
    [exact IHd | ..];
    match goal with
    | |- Py.int_digits ?a _ = Some (Z.of_N (N.pos (Pos.of_uint_acc _ ?b))) =>
        change a with (Z.pos b)
    end;
    apply int_digits_acc.
Qed.

Lemma nilzero_digits d :
  Py.is_empty (NilZero.string_of_uint d) = false
  /\ Py.all_chars Py.is_decimal (NilZero.string_of_uint d) = true
  /\ Py.int (NilZero.string_of_uint d) = Some (Z.of_N (Pos.of_uint d)).
Proof.
  destruct d; [repeat split | ..];
    (split; [reflexivity|]);
    (split; [apply (digits_decimal (_ d))|]);
    unfold Py.int; apply (int_digits_zero (_ d)).
Qed.

(** The decimal writing of a natural number: digits only, at least one, and
    [int] reads the number back. *)
Lemma str_of_int_digits z :
  0 <= z ->
  Py.is_empty (Py.str_of_int z) = false
  /\ Py.all_chars Py.is_decimal (Py.str_of_int z) = true
  /\ Py.int (Py.str_of_int z) = Some z.
Proof.
  intros Hz. destruct z as [|p|p]; [repeat split | | lia].
  unfold Py.str_of_int. cbn [Z.to_int NilZero.string_of_int].
  destruct (nilzero_digits (Pos.to_uint p)) as (H1 & H2 & H3).
  rewrite Unsigned.of_to in H3. repeat split; assumption.
Qed.

Lemma decimal_lacks c s :
  Py.is_decimal c = false ->
  Py.all_chars Py.is_decimal s = true -> lacks c s = true.
Proof.
  intros Hc. unfold lacks. induction s as [|x s IH]; cbn; [reflexivity|].
  intros H. apply andb_true_iff in H as [Hx Hs]. rewrite (IH Hs).
  destruct (Ascii.eqb x c) eqn:E; [|reflexivity].
  apply Ascii.eqb_eq in E. subst x. rewrite Hc in Hx. discriminate.
Qed.

Lemma decimal_space c : Py.is_decimal c = true -> Py.is_space c = false.
Proof.
  unfold Py.is_decimal, Py.is_space. intros H.
  apply andb_true_iff in H as [H1 H2].
  apply N.leb_le in H1. apply N.leb_le in H2.
  repeat rewrite orb_false_iff. repeat split;
    try (apply andb_false_iff; (left; apply N.leb_gt; lia)
                                || (right; apply N.leb_gt; lia));
    apply N.eqb_neq; lia.
Qed.

Lemma decimal_rstrip s :
  Py.all_chars Py.is_decimal s = true -> Py.rstrip s = s.
Proof.
  induction s as [|c s IH]; [reflexivity|]. cbn. intros H.
  apply andb_true_iff in H as [Hc Hs].
  rewrite (decimal_space c Hc), (IH Hs). reflexivity.
Qed.

Lemma decimal_trimmed s :
  Py.all_chars Py.is_decimal s = true -> Py.strip s = s.
Proof.
  intros H. unfold Py.strip. destruct s as [|c s]; [reflexivity|].
  cbn [Py.lstrip]. pose proof H as H'. cbn in H'.
  apply andb_true_iff in H' as [Hc _]. rewrite (decimal_space c Hc).
  apply decimal_rstrip, H.
Qed.

(** X17. The line [add_attr] writes for a new attribute with an integer
    value decodes to that integer, for an integer that is not negative
    and is below [10 ^ 4300], which an interpreter that limits the digits
    of a conversion still writes and reads: for a trimmed name without
    [=], [parse_line] of [name = n] is the name, the one value [n] and no
    comment. *)
Theorem int_value_roundtrip (name : string) (n : Z) :
  Py.strip name = name -> lacks "=" name = true -> 0 <= n < 10 ^ 4300 ->
  parse_line (attr_line name (AInt n)) = Ok (name, [AInt n], "").
Proof.
  intros Hn1 Hn2 [Hz _].
  destruct (str_of_int_digits n Hz) as (D1 & D2 & D3).
  unfold attr_line. cbn [str_of_atom]. set (D := Py.str_of_int n) in *.
  change (name ++ " = " ++ D)%string
    with (name ++ String " " (String "=" (String " " D)))%string.
  replace (name ++ String " " (String "=" (String " " D)))%string
    with ((name ++ " ") ++ String "=" (String " " D))%string
    by (rewrite sapp_assoc; reflexivity).
  unfold parse_line.
  rewrite partition_sep by (rewrite lacks_app, Hn2; reflexivity).
  assert (Hname : Py.strip (name ++ " ") = name)
    by exact (strip_padded name Hn1).
  rewrite Hname.
  rewrite partition_none
    by (change (String " " D) with (" " ++ D)%string;
        rewrite lacks_app, (decimal_lacks "#" D eq_refl D2); reflexivity).
  rewrite (strip_padded_left D (decimal_trimmed D D2)).
  unfold Py.isnumeric. rewrite D1, (all_decimal_numeric D D2), D3.
  reflexivity.
Qed.

Lemma int_value_roundtrip_witness :
  parse_line (attr_line "ListenPort" (AInt 51820))
  = Ok ("ListenPort", [AInt 51820], "").
Proof.
  apply int_value_roundtrip;
    [reflexivity | reflexivity | split; [lia | vm_compute; reflexivity]].
Defined.

(** ** The keys [get_peers] lists *)

Lemma pset_keys k r p :
  map fst (pset k r p) = if pmem k p then map fst p else map fst p ++ [k].
Proof.
  unfold pset, pmem, Dict.mem.
  induction p as [|[k' r'] p IH]; cbn; [reflexivity|].
  destruct (key_eqb k k') eqn:E; cbn; [reflexivity|].
  rewrite IH. destruct (Dict.get key_eqb k p); reflexivity.
Qed.

Lemma pget_in k p : pget k p <> None <-> In k (map fst p).
Proof.
  unfold pget. induction p as [|[k' r'] p IH]; cbn.
  - split; [intros H; contradiction | intros []].
  - destruct (key_eqb k k') eqn:E.
    + apply key_eqb_eq in E. subst k'. split; [left; reflexivity | discriminate].
    + rewrite IH. split; [right; assumption | intros [H | H]; [|exact H]].
      subst k'. rewrite (eqb_refl key_eqb key_eqb_eq) in E. discriminate E.
Qed.

Lemma pset_distinct k r p : NoDup (map fst p) -> NoDup (map fst (pset k r p)).
Proof.
  intros H. rewrite pset_keys. unfold pmem, Dict.mem.
  destruct (Dict.get key_eqb k p) eqn:E; [exact H|].
  apply NoDup_app; [exact H | repeat constructor; intros [] | ].
  intros x Hx [<- | []]. apply pget_in in Hx. apply Hx. exact E.
Qed.

Lemma keeps_distinct_bind {A B} (m : M A) (f : A -> M B) :
  keeps_distinct m -> (forall a, keeps_distinct (f a)) ->
  keeps_distinct (bind m f).
Proof.
  intros Hm Hf w H. unfold bind. specialize (Hm w H).
  destruct (m w) as [[a|e] w1]; cbn in *; [apply Hf; exact Hm | exact Hm].
Qed.

Lemma keeps_distinct_lift {A} (o : outcome A) : keeps_distinct (lift o).
Proof. intros w H. exact H. Qed.

Lemma keeps_distinct_ret {A} (a : A) : keeps_distinct (ret a).
Proof. intros w H. exact H. Qed.

Lemma keeps_distinct_raise {A} e : keeps_distinct (@raise A e).
Proof. intros w H. exact H. Qed.

Lemma keeps_distinct_gets {A} (f : WGConfig -> A) : keeps_distinct (gets f).
Proof. intros w H. exact H. Qed.

Lemma keeps_distinct_orelse {A} e (o : option A) : keeps_distinct (orelse e o).
Proof. destruct o; intros w H; exact H. Qed.

Lemma keeps_distinct_store t r : keeps_distinct (store t r).
Proof.
  intros w H. destruct t as [|k]; cbn; [exact H|].
  unfold bind, gets. destruct (_peers w) as [p|] eqn:E; cbn; [|exact H].
  intros p' Hp'. cbn in Hp'. injection Hp' as <-.
  apply pset_distinct, H, E.
Qed.

Ltac keeps_distinct_steps :=
  repeat first
    [ apply keeps_distinct_lift | apply keeps_distinct_ret
    | apply keeps_distinct_raise | apply keeps_distinct_gets
    | apply keeps_distinct_orelse | apply keeps_distinct_store
    | apply keeps_distinct_bind; [ | intros ? ]
    | match goal with
      | |- keeps_distinct (match ?x with _ => _ end) => destruct x
      | |- keeps_distinct (if ?x then _ else _) => destruct x
      end ].

Lemma keeps_distinct_close_section s sd : keeps_distinct (close_section s sd).
Proof.
  unfold close_section.
  repeat (keeps_distinct_steps; try apply keeps_distinct_store).
Qed.

Lemma keeps_distinct_parse_step i raw loc :
  keeps_distinct (parse_step i raw loc).
Proof.
  unfold parse_step.
  repeat (keeps_distinct_steps; try apply keeps_distinct_store).
Qed.

Lemma keeps_distinct_parse_loop ls : forall i loc,
  keeps_distinct (parse_loop i ls loc).
Proof.
  induction ls as [|line ls IH]; intros i loc; cbn [parse_loop].
  - intros w H. exact H.
  - apply keeps_distinct_bind;
      [apply keeps_distinct_parse_step | intros a; apply IH].
Qed.

(** A parse builds a peer map with one entry per key. *)
Lemma parse_lines_distinct w : distinct_keys (snd (parse_lines w)).
Proof.
  rewrite parse_lines_loop.
  apply (keeps_distinct_bind _ _ (keeps_distinct_parse_loop _ _ _)
           (fun loc => keeps_distinct_close_section _ _)).
  intros p Hp. cbn in Hp. injection Hp as <-. constructor.
Qed.

Lemma coherent_distinct w p wp :
  coherent w -> peers w = (Ok p, wp) -> NoDup (map fst p).
Proof.
  intros C Hp. destruct (coherent_peers w p wp C Hp) as (w0 & Hparse & _).
  pose proof (parse_lines_distinct w0) as D. rewrite Hparse in D.
  apply D. cbn. exact (peers_ok _ _ _ Hp).
Qed.

Lemma pget_distinct k r p :
  NoDup (map fst p) -> (In (k, r) p <-> pget k p = Some r).
Proof.
  unfold pget. induction p as [|[k' r'] p IH]; cbn; intros D.
  - split; [intros [] | discriminate].
  - inversion D as [|? ? Hn D']; subst.
    destruct (key_eqb k k') eqn:E.
    + apply key_eqb_eq in E. subst k'. split.
      * intros [H | H]; [injection H as ->; reflexivity|].
        exfalso. apply Hn. apply (in_map fst) in H. exact H.
      * intros H. injection H as ->. left. reflexivity.
    + rewrite <- (IH D'). split; [intros [H | H]; [|exact H] | right; assumption].
      injection H as -> _. rewrite (eqb_refl key_eqb key_eqb_eq) in E.
      discriminate E.
Qed.

Lemma get_peer_enabled_run k w p wp :
  peers w = (Ok p, wp) ->
  get_peer_enabled k w
  = match pget k p with
    | Some r => (Ok (negb (is_disabled r)), wp)
    | None => (Raise KeyError, wp)
    end.
Proof.
  intros Hp. unfold get_peer_enabled, get_peer, bind. rewrite Hp.
  destruct (pget k p); reflexivity.
Qed.

Lemma filter_all {A} (l : list A) : filter (fun _ => true) l = l.
Proof. induction l as [|x l IH]; cbn; [reflexivity | rewrite IH; reflexivity]. Qed.

(** X18. On an object in step with its lines, [get_peers] with
    [include_disabled] lists exactly the keys of the peer map, each once;
    without it, it lists exactly the keys for which [get_peer_enabled]
    returns [True]; and with [keys_only] off and both flags on it is the
    peer map itself. *)
Theorem get_peers_keys (w wp : WGConfig) (p : peer_map) (d : bool) :
  coherent w -> peers w = (Ok p, wp) ->
  exists every enabled,
    get_peers true true d w = (Ok (inl every), wp)
    /\ get_peers true false d w = (Ok (inl enabled), wp)
    /\ get_peers false true true w = (Ok (inr p), wp)
    /\ NoDup every /\ NoDup enabled
    /\ (forall k, In k every <-> pget k p <> None)
    /\ (forall k, In k enabled <-> get_peer_enabled k w = (Ok true, wp)).
Proof.
  intros C Hp. pose proof (coherent_distinct w p wp C Hp) as D.
  set (f := fun kv : key * record => negb (is_disabled (snd kv))).
  exists (map fst p), (map fst (filter f p)).
  split; [|split; [|split; [|split; [|split; [|split]]]]].
  - unfold get_peers. run_with Hp. cbn [orb]. rewrite filter_all. reflexivity.
  - unfold get_peers. run_with Hp. reflexivity.
  - unfold get_peers. run_with Hp. cbn [orb]. rewrite filter_all.
    unfold get_filtered_dictionary, ret. f_equal. f_equal. f_equal.
    clear. induction p as [|[k r] p IH]; cbn; [reflexivity|].
    f_equal. exact IH.
  - exact D.
  - clear -D. induction p as [|[k r] p IH]; cbn; [constructor|].
    inversion D as [|? ? Hn D']; subst. destruct (f (k, r)); cbn.
    + constructor; [|apply IH, D']. intros H. apply Hn.
      apply in_map_iff in H as ([k' r'] & E & H). cbn in E. subst k'.
      apply filter_In in H as [H _]. apply (in_map fst) in H. exact H.
    + apply IH, D'.
  - intros k. symmetry. apply pget_in.
  - intros k. split.
    + intros H. apply in_map_iff in H as ([k' r] & E & H). cbn in E. subst k'.
      apply filter_In in H as [H Hf]. apply (pget_distinct _ _ _ D) in H.
      rewrite (get_peer_enabled_run _ _ _ _ Hp), H.
      unfold f in Hf. cbn in Hf. rewrite Hf. reflexivity.
    + intros H. rewrite (get_peer_enabled_run _ _ _ _ Hp) in H.
      destruct (pget k p) as [r|] eqn:Hk; [|discriminate H].
      injection H as H.
      apply in_map_iff. exists (k, r). split; [reflexivity|].
      apply filter_In. split; [apply (pget_distinct _ _ _ D); exact Hk|].
      exact H.
Qed.

Lemma get_peers_keys_witness :
  let w := two_peers_config in
  exists every enabled,
    get_peers true true false w = (Ok (inl every), snd (peers w))
    /\ get_peers true false false w = (Ok (inl enabled), snd (peers w))
    /\ get_peers false true true w = (Ok (inr (peers_of w)), snd (peers w))
    /\ NoDup every /\ NoDup enabled
    /\ (forall k, In k every <-> pget k (peers_of w) <> None)
    /\ (forall k, In k enabled
                  <-> get_peer_enabled k w = (Ok true, snd (peers w))).
Proof.
  intros w.
  apply (get_peers_keys w (snd (peers w)) (peers_of w) false).
  - left. split; reflexivity.
  - vm_compute. reflexivity.
Defined.

(** ** What [parse_line] returns *)

Lemma partition_parts sep s :
  lacks sep (fst (fst (Py.partition sep s))) = true
  /\ ((snd (fst (Py.partition sep s)) = "" /\ snd (Py.partition sep s) = "")
      \/ snd (fst (Py.partition sep s)) = String sep "").
Proof.
  unfold lacks. induction s as [|c s IH]; cbn.
  - split; [reflexivity | left; split; reflexivity].
  - destruct (Ascii.eqb c sep) eqn:E; cbn.
    + split; [reflexivity | right; reflexivity].
    + destruct (Py.partition sep s) as [[a m] b]. cbn in *.
      rewrite E. cbn. exact IH.
Qed.

Lemma all_chars_lstrip p s :
  Py.all_chars p s = true -> Py.all_chars p (Py.lstrip s) = true.
Proof.
  induction s as [|c s IH]; cbn; [reflexivity|].
  intros H. destruct (Py.is_space c); [|exact H].
  apply andb_true_iff in H as [_ H]. apply IH, H.
Qed.

Lemma lacks_strip c s : lacks c s = true -> lacks c (Py.strip s) = true.
Proof.
  intros H. unfold lacks, Py.strip.
  apply all_chars_rstrip, all_chars_lstrip, H.
Qed.

Lemma lstrip_head s :
  Py.lstrip s = ""
  \/ exists c s', Py.lstrip s = String c s' /\ Py.is_space c = false.
Proof.
  induction s as [|c s IH]; cbn; [left; reflexivity|].
  destruct (Py.is_space c) eqn:E; [exact IH|].
  right. exists c, s. split; [reflexivity | exact E].
Qed.

Lemma strip_idempotent s : Py.strip (Py.strip s) = Py.strip s.
Proof.
  unfold Py.strip. destruct (lstrip_head s) as [-> | (c & s' & -> & E)];
    [reflexivity|].
  assert (R : Py.rstrip (String c s') = String c (Py.rstrip s'))
    by (cbn [Py.rstrip]; rewrite E; reflexivity).
  rewrite R. cbn [Py.lstrip]. rewrite E, <- R. apply rstrip_idempotent.
Qed.

Lemma split_parts sep s :
  Forall (fun x => lacks sep x = true) (Py.split sep s).
Proof.
  unfold lacks. induction s as [|c s IH]; cbn.
  - constructor; [reflexivity | constructor].
  - destruct (Ascii.eqb c sep) eqn:E.
    + constructor; [reflexivity | exact IH].
    + destruct (Py.split sep s) as [|x xs].
      * constructor; [cbn; rewrite E; reflexivity | constructor].
      * inversion IH as [|? ? Hx Hxs]; subst.
        constructor; [cbn; rewrite E; exact Hx | exact Hxs].
Qed.

Lemma split_lacks c sep s :
  lacks c s = true -> Forall (fun x => lacks c x = true) (Py.split sep s).
Proof.
  unfold lacks. induction s as [|d s IH]; cbn; intros H.
  - constructor; [reflexivity | constructor].
  - apply andb_true_iff in H as [Hd H]. specialize (IH H).
    destruct (Ascii.eqb d sep).
    + constructor; [reflexivity | exact IH].
    + destruct (Py.split sep s) as [|x xs].
      * constructor; [cbn; rewrite Hd; reflexivity | constructor].
      * inversion IH as [|? ? Hx Hxs]; subst.
        constructor; [cbn; rewrite Hd; exact Hx | exact Hxs].
Qed.

Lemma int_digits_nonneg s : forall acc n,
  0 <= acc -> Py.int_digits acc s = Some n -> 0 <= n.
Proof.
  induction s as [|c s IH]; cbn [Py.int_digits]; intros acc n Ha H.
  - injection H as <-. exact Ha.
  - destruct (Py.is_decimal c) eqn:E; [|discriminate H].
    apply (IH _ _) in H; [exact H|].
    unfold Py.is_decimal in E. apply andb_true_iff in E as [E _].
    apply N.leb_le in E. unfold Py.digit_value. lia.
Qed.

(** X19. What [parse_line] returns is in normal form: the name has no
    blanks around it and no [=], the comment is empty or starts with [#],
    and the values are one integer that is not negative, or one or more
    strings, each without blanks around it, without comma and without
    [#]. *)
Theorem parse_line_normal_form
  (line name : string) (vs : list atom) (cm : string) :
  parse_line line = Ok (name, vs, cm) ->
  Py.strip name = name /\ lacks "=" name = true
  /\ (cm = "" \/ Py.startswith cm "#" = true)
  /\ vs <> [] /\ Forall parsed_atom vs
  /\ ((exists n, vs = [AInt n]) \/ (exists xs, vs = map AStr xs)).
Proof.
  unfold parse_line.
  pose proof (partition_parts "=" line) as [Pa _].
  destruct (Py.partition "=" line) as [[a m] v]. cbn [fst snd] in Pa.
  pose proof (partition_parts "#" v) as [P0 P1].
  destruct (Py.partition "#" v) as [[p0 p1] p2]. cbn [fst snd] in P0, P1.
  intros H.
  assert (Hname : Py.strip (Py.strip a) = Py.strip a
                  /\ lacks "=" (Py.strip a) = true
                  /\ ((p1 ++ p2)%string = ""
                      \/ Py.startswith (p1 ++ p2) "#" = true)).
  { split; [apply strip_idempotent | split; [apply lacks_strip, Pa|]].
    destruct P1 as [[-> ->] | ->]; [left; reflexivity | right].
    cbn. destruct p2; reflexivity. }
  destruct Hname as (N1 & N2 & N3).
  destruct (Py.isnumeric (Py.strip p0)) eqn:Num.
  - destruct (Py.int (Py.strip p0)) as [n|] eqn:I; [|discriminate H].
    injection H as <- <- <-.
    split; [exact N1 | split; [exact N2 | split; [exact N3|]]].
    split; [discriminate | split; [|left; exists n; reflexivity]].
    constructor; [|constructor]. cbn. unfold Py.int in I.
    destruct (Py.is_empty (Py.strip p0)); [discriminate I|].
    apply (int_digits_nonneg _ _ _ (Z.le_refl 0) I).
  - injection H as <- <- <-.
    split; [exact N1 | split; [exact N2 | split; [exact N3|]]].
    split; [|split].
    + intros E. apply map_eq_nil in E. exact (split_not_nil _ _ E).
    + pose proof (split_parts "," (Py.strip p0)) as S1.
      pose proof (split_lacks "#" "," (Py.strip p0) (lacks_strip _ _ P0)) as S2.
      induction (Py.split "," (Py.strip p0)) as [|x xs IH]; cbn;
        [constructor|].
      inversion S1; inversion S2; subst.
      constructor; [|apply IH; assumption].
      cbn. split; [apply strip_idempotent|].
      split; apply lacks_strip; assumption.
    + right. exists (map Py.strip (Py.split "," (Py.strip p0))).
      rewrite map_map. reflexivity.
Qed.

Lemma parse_line_normal_form_witness :
  let line := "  AllowedIPs = 10.0.0.2/32 , 10.0.1.0/24   # lan " in
  let name := "AllowedIPs" in
  let vs := [AStr "10.0.0.2/32"; AStr "10.0.1.0/24"] in
  let cm := "# lan " in
  Py.strip name = name /\ lacks "=" name = true
  /\ (cm = "" \/ Py.startswith cm "#" = true)
  /\ vs <> [] /\ Forall parsed_atom vs
  /\ ((exists n, vs = [AInt n]) \/ (exists xs, vs = map AStr xs)).
Proof.
  intros line name vs cm.
  apply (parse_line_normal_form line name vs cm). reflexivity.
Defined.


(** ** The lines [del_attr] deletes *)

Lemma len_cons {A} (x : A) l : Py.len (x :: l) = 1 + Py.len l.
Proof. unfold Py.len. cbn [List.length]. lia. Qed.

Lemma len_app {A} (a b : list A) : Py.len (a ++ b) = Py.len a + Py.len b.
Proof. unfold Py.len. rewrite length_app. lia. Qed.

Lemma len_nonneg {A} (l : list A) : 0 <= Py.len l.
Proof. unfold Py.len. lia. Qed.

Lemma drop_where_ext P Q ls : forall i,
  (forall j, i <= j < i + Py.len ls -> P j = Q j) ->
  drop_where P i ls = drop_where Q i ls.
Proof.
  induction ls as [|x ls IH]; intros i H; cbn [drop_where]; [reflexivity|].
  pose proof (len_nonneg ls) as L. rewrite len_cons in H.
  rewrite (H i) by lia. rewrite (IH (i + 1)) by (intros j Hj; apply H; lia).
  reflexivity.
Qed.

Lemma drop_where_none P ls : forall i,
  (forall j, i <= j < i + Py.len ls -> P j = false) ->
  drop_where P i ls = ls.
Proof.
  induction ls as [|x ls IH]; intros i H; cbn [drop_where]; [reflexivity|].
  pose proof (len_nonneg ls) as L. rewrite len_cons in H.
  rewrite (H i) by lia. rewrite (IH (i + 1)) by (intros j Hj; apply H; lia).
  reflexivity.
Qed.

Lemma drop_where_app P a : forall i b,
  drop_where P i (a ++ b)
  = drop_where P i a ++ drop_where P (i + Py.len a) b.
Proof.
  induction a as [|x a IH]; intros i b; cbn [drop_where app].
  - replace (i + Py.len (@nil string)) with i by (cbn; lia). reflexivity.
  - rewrite IH, len_cons.
    replace (i + 1 + Py.len a) with (i + (1 + Py.len a)) by lia.
    destruct (P i); reflexivity.
Qed.

(** Deleting line [m] after the lines above it were dealt with. *)
Lemma drop_where_delete P Q pre x post :
  (forall j, j < Py.len pre -> Q j = P j) ->
  Q (Py.len pre) = true ->
  (forall j, Py.len pre <= j -> P j = false) ->
  (forall j, Py.len pre < j -> Q j = false) ->
  drop_where P 0 (pre ++ post) = drop_where Q 0 (pre ++ x :: post).
Proof.
  intros H1 H2 H3 H4. rewrite !drop_where_app. cbn [drop_where Z.add].
  rewrite H2. f_equal.
  - apply drop_where_ext. intros j Hj. symmetry. apply H1. lia.
  - rewrite !drop_where_none; [reflexivity | |];
      intros j Hj; [apply H4 | apply H3]; lia.
Qed.

Lemma delete_at {A} (pre post : list A) (x : A) :
  Py.delete (pre ++ x :: post) (Py.len pre) = Some (pre ++ post).
Proof.
  unfold Py.delete. rewrite position_in.
  - unfold Py.len. rewrite Nat2Z.id.
    rewrite firstn_app, Nat.sub_diag, firstn_all. cbn [firstn].
    rewrite app_nil_r.
    replace (S (List.length pre)) with (List.length pre + 1)%nat by lia.
    rewrite skipn_app, skipn_all2 by lia.
    replace (List.length pre + 1 - List.length pre)%nat with 1%nat by lia.
    reflexivity.
  - rewrite len_app, len_cons. pose proof (len_nonneg pre).
    pose proof (len_nonneg post). lia.
Qed.

Lemma range_snoc a b : a <= b -> Py.range a (b + 1) = Py.range a b ++ [b].
Proof.
  intros H. unfold Py.range.
  replace (Z.to_nat (b + 1 - a)) with (S (Z.to_nat (b - a))) by lia.
  rewrite seq_S, map_app. cbn [map Nat.add]. f_equal. f_equal. lia.
Qed.

Ltac zbool :=
  repeat match goal with
    | |- context [?a <? ?b] => destruct (Z.ltb_spec a b)
    | |- context [?a <=? ?b] => destruct (Z.leb_spec a b)
    end;
  cbn [andb]; first [reflexivity | exfalso; lia].

(** The second loop of [del_attr] without a value, on the lines of
    [range(a, a + n)] that pass the test: they are deleted, from the last
    to the first, and no other line. *)
Lemma del_attr_lines_range P : forall (n : nat) a w,
  0 <= a -> a + Z.of_nat n <= Py.len (lines w) ->
  exists w',
    del_attr_lines None (rev (filter P (Py.range a (a + Z.of_nat n)))) w
    = (Ok tt, w')
    /\ lines w'
       = drop_where (fun i => (a <=? i) && (i <? a + Z.of_nat n) && P i) 0
           (lines w)
    /\ keyattr w' = keyattr w.
Proof.
  induction n as [|n IH]; intros a w Ha Hb.
  - rewrite range_nil by lia. cbn. exists w.
    split; [reflexivity | split; [|reflexivity]].
    symmetry. apply drop_where_none. intros j Hj. zbool.
  - replace (a + Z.of_nat (S n)) with (a + Z.of_nat n + 1) in * by lia.
    set (b := a + Z.of_nat n) in *.
    rewrite range_snoc by lia. rewrite filter_app, rev_app_distr.
    cbn [filter]. destruct (P b) eqn:Pb; cbn [rev app].
    + destruct (index_split (lines w) b) with (x := nth (Z.to_nat b) (lines w) "")
        as (pre & post & E & L); [lia | |].
      { unfold Py.index. rewrite position_in by lia.
        apply nth_error_nth'. unfold Py.len in Hb. lia. }
      set (x := nth (Z.to_nat b) (lines w) "") in *.
      cbn [del_attr_lines].
      assert (Hd : del_attr_line None b w
                   = (Ok tt, with_lines (pre ++ post) w)).
      { unfold del_attr_line. unfold bind at 1. cbn [gets].
        rewrite E, <- L, delete_at. reflexivity. }
      run_with Hd.
      destruct (IH a (with_lines (pre ++ post) w)) as (w' & R & Lw & Kw);
        [lia | |].
      { cbn [lines with_lines]. rewrite E, len_app, len_cons in Hb.
        rewrite len_app. fold b. lia. }
      exists w'. fold b in R, Lw. split; [exact R | split; [|exact Kw]].
      rewrite Lw. cbn [lines with_lines]. rewrite E.
      apply drop_where_delete.
      * intros j Hj. replace (j <? b + 1) with (j <? b) by lia. reflexivity.
      * rewrite L, Pb. replace (a <=? b) with true by lia.
        replace (b <? b + 1) with true by lia. reflexivity.
      * intros j Hj. replace (j <? b) with false by lia.
        rewrite andb_false_r. reflexivity.
      * intros j Hj. replace (j <? b + 1) with false by lia.
        rewrite andb_false_r. reflexivity.
    + destruct (IH a w) as (w' & R & Lw & Kw); [lia | fold b; lia |].
      exists w'. fold b in R, Lw. split; [exact R | split; [|exact Kw]].
      rewrite Lw. apply drop_where_ext. intros j Hj.
      destruct (Z.eq_dec j b) as [-> | Nb].
      * rewrite Pb, !andb_false_r. reflexivity.
      * replace (j <? b + 1) with (j <? b) by lia. reflexivity.
Qed.

(** X20. [del_attr] without a value and without the removal of leading
    comments, on a section one of whose lines below the first is named
    [attr], returns, deletes from the section every line named [attr] and
    no other line, and leaves the records unbuilt. *)
Theorem del_attr_drops_named_lines
  (k : key) (attr : string) (w w0 : WGConfig) (vf vl : value) (f l : Z) :
  get_sectioninfo k w = (Ok (vf, vl), w0) ->
  as_int vf = Ok f -> as_int vl = Ok l -> 0 <= f ->
  (forall i, f < i <= l -> decodable (lines w) i) ->
  (exists i, f < i <= l /\ name_is attr (lines w) i = true) ->
  exists w',
    del_attr k attr None false w = (Ok tt, w')
    /\ lines w'
       = drop_where (fun i => (f <? i) && (i <=? l) && name_is attr (lines w) i)
           0 (lines w)
    /\ unbuilt w' /\ keyattr w' = keyattr w.
Proof.
  intros Hs Hf Hl F0 Hdec (m & Hm & Nm).
  pose proof (frame_get_sectioninfo k w) as [Fl Fk]. rewrite Hs in Fl, Fk.
  cbn [snd] in Fl, Fk.
  assert (Same : forall i, line_matches attr None (lines w) i
                           = name_is attr (lines w) i).
  { intros i. unfold line_matches, name_is.
    destruct (Py.index (lines w) i) as [line|]; [|reflexivity].
    destruct (parse_line line) as [[[a v] c]|]; [|reflexivity].
    apply andb_true_r. }
  assert (Hl1 : l < Py.len (lines w)).
  { destruct (Hdec l) as (line & r & Hi & _); [lia|].
    unfold Py.index in Hi.
    destruct (Py.position (lines w) l) eqn:P; [|discriminate Hi].
    unfold Py.position in P. replace (l <? 0) with false in P by lia.
    destruct ((0 <=? l) && (l <? Py.len (lines w))) eqn:B; [|discriminate P].
    apply andb_true_iff in B as [_ B]. lia. }
  assert (Hfind : find_matches attr None (lines w) (Py.range (f + 1) (l + 1))
                  = Ok (filter (line_matches attr None (lines w))
                          (Py.range (f + 1) (l + 1)))).
  { apply find_matches_total. intros i Hi. apply range_In in Hi.
    apply Hdec. lia. }
  assert (Hin : In m (filter (line_matches attr None (lines w))
                        (Py.range (f + 1) (l + 1)))).
  { apply filter_In. split; [apply range_In; lia | rewrite Same; exact Nm]. }
  destruct (del_attr_lines_range (line_matches attr None (lines w))
              (Z.to_nat (l - f)) (f + 1) w0) as (w1 & R & Lw & Kw);
    [lia | rewrite Fl; lia |].
  replace (f + 1 + Z.of_nat (Z.to_nat (l - f))) with (l + 1) in R, Lw by lia.
  unfold del_attr. run_with Hs.
  rewrite (bind_run _ _ _ _ _ (lift_run _ _ _ Hf)).
  rewrite (bind_run _ _ _ _ _ (lift_run _ _ _ Hl)).
  rewrite (bind_run _ _ _ _ _ (gets_run _ _)). rewrite Fl.
  rewrite (bind_run _ _ _ _ _ (lift_run _ _ _ Hfind)).
  destruct (filter (line_matches attr None (lines w))
              (Py.range (f + 1) (l + 1))) as [|first rest] eqn:Found;
    [destruct Hin|].
  run_with R. unfold invalidate_data, bind, ret, modify.
  eexists. split; [reflexivity|]. cbn.
  split; [|split; [split; reflexivity | rewrite Kw; exact Fk]].
  rewrite Lw, Fl. apply drop_where_ext. intros j _. rewrite Same.
  replace (f + 1 <=? j) with (f <? j) by lia.
  replace (j <? l + 1) with (j <=? l) by lia. reflexivity.
Qed.

Lemma del_attr_drops_named_lines_witness :
  let w := two_peers_config in
  let k := Some (AStr "k2") in
  exists w',
    del_attr k "AllowedIPs" None false w = (Ok tt, w')
    /\ lines w'
       = drop_where
           (fun i => (6 <? i) && (i <=? 8) && name_is "AllowedIPs" (lines w) i)
           0 (lines w)
    /\ unbuilt w' /\ keyattr w' = keyattr w.
Proof.
  intros w k.
  apply (del_attr_drops_named_lines k "AllowedIPs" w
           (snd (get_sectioninfo k w)) (One (AInt 6)) (One (AInt 8)) 6 8).
  - vm_compute. reflexivity.
  - reflexivity.
  - reflexivity.
  - lia.
  - intros i Hi.
    assert (i = 7 \/ i = 8) as [-> | ->] by lia;
      (eexists; eexists; split; reflexivity).
  - exists 8. split; [lia | reflexivity].
Defined.

(** ** A peer that was added is found *)

Lemma store_filed t r w : can_file t w -> store t r w = (Ok tt, filed t r w).
Proof.
  destruct t as [|k]; cbn; [reflexivity|].
  intros H. unfold bind, gets. destruct (_peers w); [reflexivity|].
  contradiction.
Qed.

Lemma filed_filed t r r' w : filed t r' (filed t r w) = filed t r' w.
Proof.
  destruct t as [|k]; cbn; [reflexivity|].
  unfold with_peers. cbn. destruct (_peers w); cbn; [|reflexivity].
  rewrite pset_pset. reflexivity.
Qed.

Lemma can_file_filed t r w : can_file t w -> can_file t (filed t r w).
Proof.
  destruct t as [|k]; cbn; [trivial|].
  destruct (_peers w); [discriminate | intros H; contradiction].
Qed.

(** What [close_section] does when nothing in it raises. *)
Lemma close_section_run s sd w r t vf vl f l first :
  collapse_all sd = Ok r ->
  target_of s (keyattr w) r = Ok t -> can_file t w ->
  rget SECTION_FIRSTLINE r = Some vf -> rget SECTION_LASTLINE r = Some vl ->
  as_int vf = Ok f -> as_int vl = Ok l ->
  Py.index (Py.slice (lines w) f (l + 1)) 0 = Some first ->
  close_section (Some s) sd w
  = (Ok tt, filed t (closed_record r (lines w) f l first) w).
Proof.
  intros Hr Ht Hc Hvf Hvl Hf Hl Hfirst.
  assert (Lf : forall r', lines (filed t r' w) = lines w)
    by (intros r'; destruct t; reflexivity).
  rewrite close_section_stamp.
  rewrite (bind_run _ _ _ _ _ (lift_run _ _ _ Hr)).
  assert (Tt : (if String.eqb s "interface" then ret TInterface
                else ka <- gets keyattr ;;
                     k <- lift (peer_key ka r) ;;
                     ret (TPeer k)) w = (Ok t, w)).
  { unfold target_of in Ht. destruct (String.eqb s "interface").
    - injection Ht as <-. reflexivity.
    - unfold bind, gets, lift, ret. cbn.
      destruct (peer_key (keyattr w) r) as [k|]; [|discriminate Ht].
      cbn in Ht. injection Ht as <-. reflexivity. }
  rewrite (bind_run _ _ _ _ _ Tt).
  rewrite (bind_run _ _ _ _ _ (store_filed t r w Hc)).
  rewrite (bind_run _ _ _ _ _ (orelse_run _ _ _ _ Hvf)).
  rewrite (bind_run _ _ _ _ _ (orelse_run _ _ _ _ Hvl)).
  rewrite (bind_run _ _ _ _ _ (lift_run _ _ _ Hl)).
  rewrite (bind_run _ _ _ _ _ (lift_run _ _ _ Hf)).
  rewrite (bind_run _ _ _ _ _ (gets_run _ _)). rewrite Lf.
  unfold stamp.
  rewrite (bind_run _ _ _ _ _
             (store_filed t _ _ (can_file_filed t r w Hc))).
  rewrite filed_filed.
  rewrite (bind_run _ _ _ _ _ (orelse_run _ _ _ _ Hfirst)).
  rewrite (store_filed t _ _ (can_file_filed t _ w Hc)), filed_filed.
  reflexivity.
Qed.

(** A [close_section] that returns went through every step. *)
Lemma close_section_inv s sd w w' :
  close_section (Some s) sd w = (Ok tt, w') ->
  exists r t vf vl f l first,
    collapse_all sd = Ok r
    /\ target_of s (keyattr w) r = Ok t /\ can_file t w
    /\ rget SECTION_FIRSTLINE r = Some vf /\ rget SECTION_LASTLINE r = Some vl
    /\ as_int vf = Ok f /\ as_int vl = Ok l
    /\ Py.index (Py.slice (lines w) f (l + 1)) 0 = Some first.
Proof.
  intros H. rewrite close_section_stamp in H.
  apply bind_ok in H as (r & w0 & Hr & H). apply lift_ok in Hr as [Hr ->].
  apply bind_ok in H as (t & w1 & Ht & H).
  assert (E1 : w1 = w /\ target_of s (keyattr w) r = Ok t).
  { unfold target_of. destruct (String.eqb s "interface").
    - apply ret_ok in Ht as [-> ->]. split; reflexivity.
    - apply bind_ok in Ht as (ka & w2 & Hka & Ht).
      apply gets_ok in Hka as [-> ->].
      apply bind_ok in Ht as (k & w2 & Hk & Ht). apply lift_ok in Hk as [Hk ->].
      apply ret_ok in Ht as [-> ->]. rewrite Hk. split; reflexivity. }
  destruct E1 as [-> Tt]. clear Ht.
  apply bind_ok in H as (u1 & w1 & S1 & H).
  assert (Hc : can_file t w).
  { destruct t as [|k]; cbn; [trivial|].
    apply store_peer_ok in S1 as (p0 & P0 & _). rewrite P0. discriminate. }
  rewrite (store_filed t r w Hc) in S1. injection S1 as _ <-.
  apply bind_ok in H as (vf & w2 & Hvf & H). apply orelse_ok in Hvf as [Hvf ->].
  apply bind_ok in H as (vl & w2 & Hvl & H). apply orelse_ok in Hvl as [Hvl ->].
  apply bind_ok in H as (l & w2 & Hl & H). apply lift_ok in Hl as [Hl ->].
  apply bind_ok in H as (f & w2 & Hf & H). apply lift_ok in Hf as [Hf ->].
  apply bind_ok in H as (ls & w2 & Hls & H). apply gets_ok in Hls as [-> ->].
  unfold stamp in H.
  apply bind_ok in H as (u2 & w2 & S2 & H).
  apply bind_ok in H as (first & w3 & Hfirst & H).
  apply orelse_ok in Hfirst as [Hfirst ->].
  assert (Lf : lines (filed t r w) = lines w) by (destruct t; reflexivity).
  rewrite Lf in Hfirst.
  exists r, t, vf, vl, f, l, first.
  repeat (split; [assumption|]). exact Hfirst.
Qed.

Lemma slice_app_in {A} (ls extra : list A) (f b : Z) :
  0 <= f <= b -> b <= Py.len ls ->
  Py.slice (ls ++ extra) f b = Py.slice ls f b.
Proof.
  intros H1 H2. unfold Py.slice.
  pose proof (len_nonneg extra) as Le.
  rewrite (clamp_in (ls ++ extra) f) by (rewrite len_app; lia).
  rewrite (clamp_in (ls ++ extra) b) by (rewrite len_app; lia).
  rewrite (clamp_in ls f) by lia. rewrite (clamp_in ls b) by lia.
  rewrite skipn_app, firstn_app, length_skipn.
  unfold Py.len in H2.
  replace (Z.to_nat b - Z.to_nat f - (List.length ls - Z.to_nat f))%nat
    with 0%nat by lia.
  cbn [firstn]. apply app_nil_r.
Qed.

Lemma bounded_collapsed sd r vf vl f l f0 rest l0 :
  collapse_all sd = Ok r ->
  sget SECTION_FIRSTLINE sd = Some (AInt f0 :: rest) ->
  sget SECTION_LASTLINE sd = Some [AInt l0] ->
  rget SECTION_FIRSTLINE r = Some vf -> rget SECTION_LASTLINE r = Some vl ->
  as_int vf = Ok f -> as_int vl = Ok l ->
  f = f0 /\ l = l0.
Proof.
  intros Hr HF HL Hvf Hvl Hf Hl.
  destruct (collapse_all_get _ _ _ _ Hr HF) as (cf & Hcf & Rf).
  destruct (collapse_all_get _ _ _ _ Hr HL) as (cl & Hcl & Rl).
  rewrite Rf in Hvf. injection Hvf as <-.
  rewrite Rl in Hvl. injection Hvl as <-.
  cbn in Hcl. injection Hcl as <-. cbn in Hl. injection Hl as <-.
  split; [|reflexivity].
  destruct rest; cbn in Hcf; injection Hcf as <-; cbn in Hf;
    [injection Hf as <-; reflexivity | discriminate Hf].
Qed.

(** A section closed within the first [N] lines is closed in the same way
    when lines are appended to the buffer. *)
Lemma close_section_grow s sd w w' N extra :
  (s <> None ->
   bounded sd
   /\ forall l0, sget SECTION_LASTLINE sd = Some [AInt l0] -> l0 < N) ->
  N <= Py.len (lines w) ->
  close_section s sd w = (Ok tt, w') ->
  close_section s sd (with_lines (lines w ++ extra) w)
  = (Ok tt, with_lines (lines w ++ extra) w').
Proof.
  intros B HN H. destruct s as [s|].
  - destruct (B ltac:(discriminate)) as [(f0 & rest & l0 & HF & HL & Hb) Hlt].
    specialize (Hlt l0 HL).
    destruct (close_section_inv _ _ _ _ H)
      as (r & t & vf & vl & f & l & first
          & Hr & Ht & Hc & Hvf & Hvl & Hf & Hl & Hfirst).
    destruct (bounded_collapsed _ _ _ _ _ _ _ _ _ Hr HF HL Hvf Hvl Hf Hl)
      as [-> ->].
    rewrite (close_section_run _ _ _ _ _ _ _ _ _ _
               Hr Ht Hc Hvf Hvl Hf Hl Hfirst) in H.
    injection H as <-.
    assert (Sl : Py.slice (lines w ++ extra) f0 (l0 + 1)
                 = Py.slice (lines w) f0 (l0 + 1))
      by (apply slice_app_in; lia).
    rewrite (close_section_run s sd (with_lines (lines w ++ extra) w)
               r t vf vl f0 l0 first Hr Ht).
    + cbn [lines with_lines]. unfold closed_record. rewrite Sl.
      destruct t; reflexivity.
    + destruct t; exact Hc.
    + exact Hvf.
    + exact Hvl.
    + exact Hf.
    + exact Hl.
    + cbn [lines with_lines]. rewrite Sl. exact Hfirst.
  - rewrite close_section_stamp in *.
    apply bind_ok in H as (r & w0 & Hr & H). apply lift_ok in Hr as [Hr ->].
    apply ret_ok in H as [_ ->].
    rewrite (bind_run _ _ _ _ _ (lift_run _ _ _ Hr)). reflexivity.
Qed.

Lemma parse_step_grow i raw loc w loc' w' extra :
  open_section i loc -> last_below i loc -> i < Py.len (lines w) ->
  parse_step i raw loc w = (Ok loc', w') ->
  parse_step i raw loc (with_lines (lines w ++ extra) w)
  = (Ok loc', with_lines (lines w ++ extra) w').
Proof.
  intros [[Hi Hcur] Hopen] Hlast Hlen H. unfold parse_step in *.
  destruct names_distinct as (N1 & _).
  destruct (Py.is_empty _).
  { apply ret_ok in H as [-> ->]. reflexivity. }
  destruct (Py.startswith _ "[").
  { apply bind_ok in H as (u & w1 & Hc & H). destruct u.
    apply (close_section_grow _ _ _ _ i extra) in Hc; [| |lia].
    - rewrite (bind_run _ _ _ _ _ Hc).
      destruct (_ || _); [|discriminate H].
      apply ret_ok in H as [-> ->]. reflexivity.
    - intros Hs.
      destruct (Hopen Hs) as (f0 & rest & l0 & h & A & B & C & D & E & F0).
      destruct (last_empty_line_in_section loc) as [e|].
      + split.
        * exists f0, rest, (e - 1). split; [|split].
          -- unfold sget, sset in *. rewrite sget_sset_other by exact N1.
             exact A.
          -- apply sget_sset_same.
          -- specialize (F0 e eq_refl). lia.
        * intros l1 Hl1. unfold sget, sset in Hl1.
          rewrite sget_sset_same in Hl1. inversion Hl1.
          specialize (Hcur e eq_refl). lia.
      + split.
        * exists f0, rest, l0. repeat split; try assumption; lia.
        * intros l1 Hl1. exact (Hlast Hs l1 Hl1). }
  destruct (Py.startswith _ "#").
  { apply ret_ok in H as [-> ->]. reflexivity. }
  apply bind_ok in H as ([[attr value] c] & w1 & Hp & H).
  apply lift_ok in Hp as [Hp ->]. apply ret_ok in H as [-> ->].
  rewrite (bind_run _ _ _ _ _ (lift_run _ _ _ Hp)). reflexivity.
Qed.

Lemma parse_loop_grow extra ls : forall i loc w loc' w',
  peers_good w -> records_in_buffer w ->
  open_section i loc -> last_below i loc ->
  i + Py.len ls = Py.len (lines w) ->
  parse_loop i ls loc w = (Ok loc', w') ->
  parse_loop i ls loc (with_lines (lines w ++ extra) w)
  = (Ok loc', with_lines (lines w ++ extra) w').
Proof.
  induction ls as [|line ls IH]; intros i loc w loc' w' P G O B Hi H;
    cbn [parse_loop] in *.
  - apply ret_ok in H as [-> ->]. reflexivity.
  - apply bind_ok in H as (loc1 & w1 & H1 & H).
    rewrite len_cons in Hi. pose proof (len_nonneg ls) as Ll.
    assert (Hlen : i < Py.len (lines w)) by lia.
    destruct (parse_step_good _ _ _ _ _ _ P O H1) as [P1 O1].
    destruct (parse_step_in_buffer _ _ _ _ _ _ G O B Hlen H1) as [G1 B1].
    pose proof (frame_parse_step i line loc w) as [F _]. rewrite H1 in F.
    cbn [snd] in F.
    rewrite (bind_run _ _ _ _ _
               (parse_step_grow _ _ _ _ _ _ extra O B Hlen H1)).
    rewrite <- F. apply (IH (i + 1) loc1 w1 loc' w' P1 G1 O1 B1).
    + rewrite F. lia.
    + exact H.
Qed.

Lemma prefix_head c d p s :
  d <> c -> String.prefix (String d p) (String c s) = false.
Proof.
  intros N. cbn [String.prefix].
  destruct (ascii_dec d c); [contradiction | reflexivity].
Qed.

Lemma replace_lacks s : lacks "#" s = true -> Py.replace MARKER "" s = s.
Proof.
  unfold Py.replace, lacks.
  induction s as [|c s IH]; cbn [Py.replace_from Py.all_chars];
    [reflexivity|].
  intros H. apply andb_true_iff in H as [Hc H].
  apply negb_true_iff in Hc. apply Ascii.eqb_neq in Hc.
  unfold MARKER at 1. rewrite prefix_head by congruence.
  rewrite (IH H). reflexivity.
Qed.

Lemma trimmed_rstrip s : s <> "" -> Py.strip s = s -> Py.rstrip s = s.
Proof.
  destruct s as [|c s]; [contradiction|]. intros _ H.
  apply (trimmed_cons c s H).
Qed.

Lemma trimmed_lstrip s t :
  s <> "" -> Py.strip s = s -> Py.lstrip (s ++ t) = (s ++ t)%string.
Proof.
  destruct s as [|c s]; [contradiction|]. intros _ H.
  destruct (trimmed_cons c s H) as [E _]. cbn. rewrite E. reflexivity.
Qed.

(** The line [add_peer] writes for the key, as the parser sees it. *)
Lemma key_line_normal ka key :
  plain_name ka -> plain_value key ->
  let line := (ka ++ " = " ++ key)%string in
  normal line = line
  /\ Py.is_empty line = false
  /\ Py.startswith line "[" = false
  /\ Py.startswith line "#" = false.
Proof.
  intros (K0 & K1 & K2 & K3 & K4 & K5) (V0 & V1 & V2 & V3) line.
  assert (Hash : lacks "#" line = true).
  { unfold line. rewrite !lacks_app, K3, V3. reflexivity. }
  assert (Hstrip : Py.strip line = line).
  { unfold Py.strip, line. rewrite (trimmed_lstrip ka _ K0 K1).
    replace (ka ++ " = " ++ key)%string with ((ka ++ " = ") ++ key)%string
      by apply sapp_assoc.
    rewrite rstrip_app_kept; rewrite (trimmed_rstrip key V0 V1);
      [reflexivity | exact V0]. }
  split; [unfold normal; rewrite (replace_lacks _ Hash); exact Hstrip|].
  destruct ka as [|c ka']; [contradiction|].
  split; [reflexivity|]. unfold line. cbn [String.append].
  rewrite !startswith_char. rewrite startswith_char in K4.
  split; [exact K4|].
  unfold lacks in K3. cbn in K3. apply andb_true_iff in K3 as [K3 _].
  apply negb_true_iff in K3. exact K3.
Qed.

Lemma key_line_parse ka key :
  Py.strip ka = ka -> lacks "=" ka = true ->
  plain_value key -> Py.isnumeric key = false ->
  parse_line (ka ++ " = " ++ key) = Ok (ka, [AStr key], "").
Proof.
  intros K1 K2 (V0 & V1 & V2 & V3) Hnum.
  change (ka ++ " = " ++ key)%string
    with (ka ++ String " " (String "=" (String " " key)))%string.
  replace (ka ++ String " " (String "=" (String " " key)))%string
    with ((ka ++ " ") ++ String "=" (String " " key))%string
    by (rewrite sapp_assoc; reflexivity).
  unfold parse_line.
  rewrite partition_sep by (rewrite lacks_app, K2; reflexivity).
  assert (Hname : Py.strip (ka ++ " ") = ka) by exact (strip_padded ka K1).
  rewrite Hname.
  rewrite partition_none
    by (change (String " " key) with (" " ++ key)%string;
        rewrite lacks_app, V3; reflexivity).
  rewrite (strip_padded_left key V1), Hnum, (split_none _ _ V2).
  cbn [map]. rewrite V1. reflexivity.
Qed.

Lemma collapse_all_sset sd : forall r name v v',
  collapse_all sd = Ok r -> collapse v = Ok v' ->
  collapse_all (sset name v sd) = Ok (rset name v' r).
Proof.
  unfold sset, rset.
  induction sd as [|[k0 v0] sd IH]; intros r name v v' Hr Hv; cbn in *.
  - injection Hr as <-. rewrite Hv. reflexivity.
  - destruct (collapse v0) as [c0|] eqn:C0; [|discriminate Hr]. cbn in Hr.
    destruct (collapse_all sd) as [r0|] eqn:R0; [|discriminate Hr].
    cbn in Hr. injection Hr as <-.
    destruct (String.eqb name k0) eqn:E; cbn; rewrite ?E.
    + rewrite Hv. cbn. rewrite R0. reflexivity.
    + rewrite C0. cbn. rewrite (IH r0 name v v' eq_refl Hv). cbn.
      rewrite ?E. reflexivity.
Qed.

Lemma slice_nonempty (ls : list string) (f b : Z) :
  0 <= f < b -> f < Py.len ls ->
  exists x, Py.index (Py.slice ls f b) 0 = Some x.
Proof.
  intros H1 H2.
  destruct (index_split ls f (nth (Z.to_nat f) ls "")) as (pre & post & E & L);
    [lia | |].
  { unfold Py.index. rewrite position_in by lia.
    apply nth_error_nth'. unfold Py.len in H2. lia. }
  set (x := nth (Z.to_nat f) ls "") in *. exists x.
  unfold Py.slice. rewrite (clamp_in ls f) by lia.
  assert (C : (Z.to_nat f < Py.clamp ls b)%nat).
  { unfold Py.clamp. replace (b <? 0) with false by lia. lia. }
  rewrite E at 2. unfold Py.len in L.
  replace (Z.to_nat f) with (List.length pre) in * by lia.
  rewrite skipn_app, skipn_all, Nat.sub_diag. cbn [skipn app].
  destruct (Py.clamp ls b - List.length pre)%nat as [|m] eqn:D; [lia|].
  reflexivity.
Qed.

Lemma slice_tail {A} (a b : list A) :
  Py.slice (a ++ b) (Py.len a) (Py.len a + Py.len b) = b.
Proof.
  pose proof (len_nonneg a) as La. pose proof (len_nonneg b) as Lb.
  unfold Py.slice.
  rewrite (clamp_in (a ++ b) (Py.len a)) by (rewrite len_app; lia).
  rewrite (clamp_in (a ++ b) (Py.len a + Py.len b)) by (rewrite len_app; lia).
  unfold Py.len. rewrite Nat2Z.id.
  rewrite skipn_app, skipn_all, Nat.sub_diag. cbn [skipn app].
  replace (Z.to_nat (Z.of_nat (List.length a) + Z.of_nat (List.length b))
           - List.length a)%nat with (List.length b) by lia.
  apply firstn_all.
Qed.

Lemma pget_pset_mem k' k r m :
  pget k' (pset k r m) <> None <-> k' = k \/ pget k' m <> None.
Proof.
  destruct (key_eqb k' k) eqn:E.
  - apply key_eqb_eq in E. subst k'. rewrite pget_pset_same.
    split; [left; reflexivity | discriminate].
  - assert (N : k' <> k).
    { intros ->. rewrite (eqb_refl key_eqb key_eqb_eq) in E. discriminate E. }
    rewrite (pget_pset_other _ _ _ _ N).
    split; [right; assumption | intros [H | H]; [contradiction | exact H]].
Qed.

Lemma underscore_names ka :
  Py.startswith ka "_" = false ->
  String.eqb ka SECTION_FIRSTLINE = false
  /\ String.eqb ka SECTION_LASTLINE = false
  /\ String.eqb SECTION_RAW ka = false
  /\ String.eqb SECTION_DISABLED ka = false.
Proof.
  intros H.
  repeat split; apply String.eqb_neq; intros E; subst ka; discriminate H.
Qed.

(** The section open at the end of the buffer is closed by the header of
    the peer that was appended; every key filed before stays filed. *)
Lemma close_before_added (wA wp : WGConfig) loc extra :
  let n := Py.len (lines wA) in
  let W := with_lines (lines wA ++ extra) wA in
  Py.startswith (keyattr wA) "_" = false ->
  _peers wA <> None ->
  open_section n loc -> last_below n loc ->
  close_section (section loc) (data loc) wA = (Ok tt, wp) ->
  exists wB pB,
    close_section (section loc)
      (sset SECTION_LASTLINE [AInt (n - 1)] (data loc)) W = (Ok tt, wB)
    /\ lines wB = lines wA ++ extra /\ keyattr wB = keyattr wA
    /\ _peers wB = Some pB
    /\ (forall k' p, _peers wp = Some p -> pget k' p <> None ->
                     pget k' pB <> None).
Proof.
  intros n W Hu HP [[Hn Hcur] Hopen] Hlast H.
  destruct (underscore_names _ Hu) as (E1 & E2 & E3 & E4).
  destruct names_distinct as (N1 & N2 & N3 & N4 & N5 & N6).
  destruct (_peers wA) as [pA|] eqn:PA; [clear HP | contradiction].
  destruct (section loc) as [s|] eqn:Hs.
  - destruct (Hopen ltac:(discriminate))
      as (f0 & rest & l0 & h & HF & HL & Hf0 & Hh & Hhn & _).
    destruct (close_section_inv _ _ _ _ H)
      as (r & t & vf & vl & f & l & first
          & Hr & Ht & Hc & Hvf & Hvl & Hf & Hl & Hfirst).
    destruct (bounded_collapsed _ _ _ _ _ _ _ _ _ Hr HF HL Hvf Hvl Hf Hl)
      as [-> ->].
    rewrite (close_section_run _ _ _ _ _ _ _ _ _ _
               Hr Ht Hc Hvf Hvl Hf Hl Hfirst) in H.
    injection H as <-.
    set (r' := rset SECTION_LASTLINE (One (AInt (n - 1))) r).
    assert (Hr' : collapse_all (sset SECTION_LASTLINE [AInt (n - 1)] (data loc))
                  = Ok r')
      by (apply (collapse_all_sset _ _ _ _ _ Hr); reflexivity).
    assert (Ht' : target_of s (keyattr W) r' = Ok t).
    { unfold target_of in *. destruct (String.eqb s "interface"); [exact Ht|].
      unfold peer_key in *. unfold r'. cbn [keyattr W with_lines].
      rewrite rget_rset_other; [exact Ht|].
      apply String.eqb_neq. exact E2. }
    destruct (slice_nonempty (lines W) f0 (n - 1 + 1)) as [first' Hfirst'].
    { lia. }
    { unfold W. cbn [lines with_lines]. rewrite len_app.
      pose proof (len_nonneg extra). fold n. lia. }
    exists (filed t (closed_record r' (lines W) f0 (n - 1) first') W),
      (match t with
       | TInterface => pA
       | TPeer k0 => pset k0 (closed_record r' (lines W) f0 (n - 1) first') pA
       end).
    split.
    { apply (close_section_run s _ W r' t vf (One (AInt (n - 1))) f0 (n - 1)
               first' Hr' Ht').
      - destruct t; exact Hc.
      - unfold r'. rewrite rget_rset_other by exact N1. exact Hvf.
      - apply rget_rset_same.
      - exact Hf.
      - reflexivity.
      - exact Hfirst'. }
    split; [destruct t; reflexivity|].
    split; [destruct t; reflexivity|].
    destruct t as [|k0]; cbn [filed _peers with_peers with_interface W with_lines];
      rewrite PA; cbn [option_map].
    + split; [reflexivity|]. intros k' p Hp Hk. injection Hp as <-. exact Hk.
    + split; [reflexivity|]. intros k' p Hp Hk. injection Hp as <-.
      apply pget_pset_mem. apply pget_pset_mem in Hk. exact Hk.
  - rewrite close_section_stamp in *.
    apply bind_ok in H as (r & w0 & Hr & H). apply lift_ok in Hr as [Hr ->].
    apply ret_ok in H as [_ ->].
    exists W, pA.
    split.
    { rewrite (bind_run _ _ _ _ _
                 (lift_run _ _ _
                    (collapse_all_sset _ _ SECTION_LASTLINE [AInt (n - 1)]
                       (One (AInt (n - 1))) Hr eq_refl))).
      reflexivity. }
    split; [reflexivity|]. split; [reflexivity|].
    split; [exact PA|]. intros k' p Hp Hk. rewrite PA in Hp.
    injection Hp as <-. exact Hk.
Qed.

(** The three lines [add_peer] appends, read after the buffer they were
    appended to: the peer is filed under its key, enabled, with the key
    attribute for only attribute. *)
Lemma added_peer_parse key (wA wp : WGConfig) loc :
  let ka := keyattr wA in
  let line := (ka ++ " = " ++ key)%string in
  let n := Py.len (lines wA) in
  let W := with_lines (lines wA ++ [""; "[Peer]"; line]) wA in
  plain_name ka -> plain_value key -> Py.isnumeric key = false ->
  _peers wA <> None ->
  open_section n loc -> last_below n loc ->
  close_section (section loc) (data loc) wA = (Ok tt, wp) ->
  exists loc' wB wC pB rec,
    parse_loop n [""; "[Peer]"; line] loc W = (Ok loc', wB)
    /\ close_section (section loc') (data loc') wB = (Ok tt, wC)
    /\ _peers wC = Some (pset (Some (AStr key)) rec pB)
    /\ get_filtered_dictionary rec false = [(ka, One (AStr key))]
    /\ is_disabled rec = false
    /\ (forall k' p, _peers wp = Some p -> pget k' p <> None ->
                     pget k' pB <> None).
Proof.
  intros ka line n W Hka Hkey Hnum HP O B H.
  pose proof Hka as (K0 & K1 & K2 & K3 & K4 & K5).
  destruct (underscore_names _ K5) as (E1 & E2 & E3 & E4).
  destruct (key_line_normal ka key Hka Hkey) as (L1 & L2 & L3 & L4).
  fold line in L1, L2, L3, L4.
  destruct (close_before_added wA wp loc [""; "[Peer]"; line] K5 HP O B H)
    as (wB & pB & HB & LB & KB & PB & Keep).
  fold n W in HB.
  set (sd3 := [(SECTION_FIRSTLINE, [AInt (n + 1)]);
               (SECTION_LASTLINE, [AInt (n + 1 + 1)]);
               (ka, [AStr key])]).
  set (r3 := [(SECTION_FIRSTLINE, One (AInt (n + 1)));
              (SECTION_LASTLINE, One (AInt (n + 1 + 1)));
              (ka, One (AStr key))]).
  set (rec := closed_record r3 (lines wB) (n + 1) (n + 1 + 1) "[Peer]").
  exists (mkLocals (Some "peer") sd3 None), wB,
    (filed (TPeer (Some (AStr key))) rec wB), pB, rec.
  split; [|split; [|split; [|split; [|split]]]].
  - cbn [parse_loop].
    assert (S1 : parse_step n "" loc W
                 = (Ok (mkLocals (section loc) (data loc) (Some n)), W))
      by reflexivity.
    rewrite (bind_run _ _ _ _ _ S1).
    assert (S2 : parse_step (n + 1) "[Peer]"
                   (mkLocals (section loc) (data loc) (Some n)) W
                 = (Ok (mkLocals (Some "peer")
                          (sset SECTION_LASTLINE [AInt (n + 1)]
                             (sset SECTION_FIRSTLINE [AInt (n + 1)] []))
                          None), wB)).
    { unfold parse_step.
      change (Py.strip (Py.replace MARKER "" "[Peer]")) with "[Peer]".
      change (Py.is_empty "[Peer]") with false.
      change (Py.startswith "[Peer]" "[") with true. cbv iota.
      cbn [last_empty_line_in_section section data].
      change (Py.lower (fst (fst (Py.partition "]" (Py.tail "[Peer]")))))
        with "peer".
      rewrite (bind_run _ _ _ _ _ HB). reflexivity. }
    rewrite (bind_run _ _ _ _ _ S2).
    assert (S3 : parse_step (n + 1 + 1) line
                   (mkLocals (Some "peer")
                      (sset SECTION_LASTLINE [AInt (n + 1)]
                         (sset SECTION_FIRSTLINE [AInt (n + 1)] []))
                      None) wB
                 = (Ok (mkLocals (Some "peer") sd3 None), wB)).
    { unfold parse_step.
      change (Py.strip (Py.replace MARKER "" line)) with (normal line).
      rewrite L1, L2, L3, L4.
      rewrite (bind_run _ _ _ _ _
                 (lift_run _ _ _ (key_line_parse ka key K1 K2 Hkey Hnum))).
      cbn [section data last_empty_line_in_section].
      change (sset SECTION_LASTLINE [AInt (n + 1)]
                (sset SECTION_FIRSTLINE [AInt (n + 1)] []))
        with [(SECTION_FIRSTLINE, [AInt (n + 1)]);
              (SECTION_LASTLINE, [AInt (n + 1)])].
      unfold sget at 1. cbn [Dict.get]. rewrite E1, E2. cbn [app].
      unfold sset at 2. cbn [Dict.set]. rewrite E1, E2. reflexivity. }
    rewrite (bind_run _ _ _ _ _ S3). reflexivity.
  - cbn [section data].
    apply (close_section_run "peer" sd3 wB r3 (TPeer (Some (AStr key)))
             (One (AInt (n + 1))) (One (AInt (n + 1 + 1))) (n + 1) (n + 1 + 1)
             "[Peer]").
    + reflexivity.
    + unfold target_of, peer_key, r3, rget. cbn [String.eqb Ascii.eqb Bool.eqb].
      rewrite KB. fold ka. cbn [Dict.get]. rewrite E1, E2, String.eqb_refl.
      reflexivity.
    + cbn. rewrite PB. discriminate.
    + reflexivity.
    + reflexivity.
    + reflexivity.
    + reflexivity.
    + rewrite LB.
      change (lines wA ++ [""; "[Peer]"; line])
        with (lines wA ++ [""] ++ ["[Peer]"; line]).
      rewrite app_assoc.
      pose proof (slice_tail (lines wA ++ [""]) ["[Peer]"; line]) as T.
      rewrite len_app in T. fold n in T.
      replace (n + 1 + 1 + 1) with (n + Py.len [""] + Py.len ["[Peer]"; line])
        by (unfold Py.len; cbn; lia).
      replace (n + 1) with (n + Py.len [""]) at 1 by (unfold Py.len; cbn; lia).
      rewrite T. reflexivity.
  - cbn [filed _peers with_peers]. rewrite PB. reflexivity.
  - unfold rec, closed_record, r3, rset. cbn [Dict.set].
    change (String.eqb SECTION_RAW SECTION_FIRSTLINE) with false.
    change (String.eqb SECTION_RAW SECTION_LASTLINE) with false.
    cbv iota. rewrite E3. cbn [Dict.set].
    change (String.eqb SECTION_DISABLED SECTION_FIRSTLINE) with false.
    change (String.eqb SECTION_DISABLED SECTION_LASTLINE) with false.
    change (String.eqb SECTION_DISABLED SECTION_RAW) with false.
    cbv iota. rewrite E4.
    unfold get_filtered_dictionary. cbn [filter fst]. fold ka. rewrite K5.
    reflexivity.
  - unfold is_disabled, rec, closed_record. rewrite rget_rset_same.
    reflexivity.
  - exact Keep.
Qed.

(** X21. On an object in step with its lines, [add_peer] with a key the
    peer map does not have, and without a leading comment, returns, and the
    peer is then found: [get_peer] returns the key attribute with the key
    and nothing else, [get_peer_enabled] returns [True], and every peer the
    map had is still in the map.  The key is not empty, has no blanks
    around it, no comma and no [#], and is not numeric; the name of the key
    attribute has no blanks around it, no [=] and no [#], and starts
    neither with [[] nor with an underscore. *)
Theorem add_peer_then_found (key : string) (w wp : WGConfig) (p : peer_map) :
  coherent w -> peers w = (Ok p, wp) -> pget (Some (AStr key)) p = None ->
  plain_name (keyattr w) -> plain_value key -> Py.isnumeric key = false ->
  exists w1 w2 p2,
    add_peer (Some (AStr key)) None w = (Ok tt, w1)
    /\ peers w1 = (Ok p2, w2)
    /\ get_peer (Some (AStr key)) false w1
       = (Ok [(keyattr w, One (AStr key))], w2)
    /\ get_peer_enabled (Some (AStr key)) w1 = (Ok true, w2)
    /\ (forall k', pget k' p <> None -> pget k' p2 <> None).
Proof.
  intros C Hp Hk Hka Hkey Hnum.
  destruct (coherent_peers w p wp C Hp) as (w0 & Hparse & Lwp).
  pose proof (frame_peers w) as [_ Fk]. rewrite Hp in Fk. cbn [snd] in Fk.
  pose proof (frame_parse_lines w0) as [F0l F0k].
  rewrite Hparse in F0l, F0k. cbn [snd] in F0l, F0k.
  pose proof (peers_ok _ _ _ Hp) as Pwp.
  rewrite parse_lines_loop in Hparse.
  apply bind_ok in Hparse as (loc & wA & Hloop & Hclose).
  assert (P0 : peers_good (cleared w0)).
  { intros p' k r Hp' Hk'. cbn in Hp'. injection Hp' as <-. discriminate Hk'. }
  assert (G0 : records_in_buffer (cleared w0)).
  { split.
    - intros r Hr. cbn in Hr. injection Hr as <-. left. reflexivity.
    - intros p' k r Hp' Hk'. cbn in Hp'. injection Hp' as <-.
      discriminate Hk'. }
  assert (O0 : open_section 0 start).
  { split; cbn.
    - split; [lia|]. intros e He. injection He as <-. lia.
    - intros Hs. contradiction. }
  assert (B0 : last_below 0 start) by (intros Hs; contradiction).
  destruct (parse_loop_in_buffer _ _ _ _ _ _ P0 G0 O0 B0 eq_refl Hloop)
    as (_ & O1 & B1 & F1).
  pose proof (frame_parse_loop (lines w0) 0 start (cleared w0)) as [_ KA].
  rewrite Hloop in KA. cbn [snd] in KA.
  assert (HPA : _peers wA <> None).
  { pose proof (keeps_built_parse_loop (lines w0) 0 start (cleared w0)) as K.
    rewrite Hloop in K. apply K. discriminate. }
  change (lines (cleared w0)) with (lines w0) in *.
  change (keyattr (cleared w0)) with (keyattr w0) in *.
  assert (KAw : keyattr wA = keyattr w) by congruence.
  set (line := (keyattr w ++ " = " ++ key)%string).
  set (tl := [""; "[Peer]"; line]).
  pose proof (parse_loop_grow tl _ _ _ _ _ _ P0 G0 O0 B0 eq_refl Hloop)
    as Hgrow.
  change (lines (cleared w0)) with (lines w0) in Hgrow.
  destruct (added_peer_parse key wA wp loc) as
    (loc' & wB & wC & pB & rec & Htail & Hfinal & PC & Hrec & Hen & Keep);
    try assumption.
  { rewrite KAw. exact Hka. }
  { rewrite F1. exact O1. }
  { rewrite F1. exact B1. }
  rewrite KAw, F1 in Htail. fold line tl in Htail. rewrite KAw in Hrec.
  set (w1 := mkWG (keyattr w0) (lines w0 ++ tl) None None).
  assert (HA : add_peer (Some (AStr key)) None w = (Ok tt, w1)).
  { unfold add_peer. run_with Hp. unfold pmem, Dict.mem. fold pget.
    rewrite Hk.
    unfold handle_leading_comment, append_line, invalidate_data, bind, ret,
      modify, gets.
    cbn. rewrite <- !app_assoc. cbn [app]. unfold w1, tl, line.
    rewrite <- Fk, <- F0k, <- F0l. reflexivity. }
  assert (HP1 : parse_lines w1 = (Ok tt, wC)).
  { rewrite parse_lines_loop.
    change (cleared w1) with (with_lines (lines w0 ++ tl) (cleared w0)).
    change (lines w1) with (lines w0 ++ tl).
    unfold bind. rewrite parse_loop_app. unfold bind.
    rewrite Hgrow. rewrite Z.add_0_l, Htail. exact Hfinal. }
  assert (HQ : peers w1 = (Ok (pset (Some (AStr key)) rec pB), wC)).
  { apply peers_unbuilt; [reflexivity | split; [exact HP1 | exact PC]]. }
  exists w1, wC, (pset (Some (AStr key)) rec pB).
  split; [exact HA|]. split; [exact HQ|]. split; [|split].
  - unfold get_peer. run_with HQ. rewrite pget_pset_same, Hrec. reflexivity.
  - rewrite (get_peer_enabled_run _ _ _ _ HQ), pget_pset_same, Hen.
    reflexivity.
  - intros k' Hk'. apply pget_pset_mem. right. exact (Keep k' p Pwp Hk').
Qed.

Lemma add_peer_then_found_witness :
  let w := sample_object in
  exists w1 w2 p2,
    add_peer (Some (AStr "CCC=")) None w = (Ok tt, w1)
    /\ peers w1 = (Ok p2, w2)
    /\ get_peer (Some (AStr "CCC=")) false w1
       = (Ok [(keyattr w, One (AStr "CCC="))], w2)
    /\ get_peer_enabled (Some (AStr "CCC=")) w1 = (Ok true, w2)
    /\ (forall k', pget k' (peers_of w) <> None -> pget k' p2 <> None).
Proof.
  intros w.
  apply (add_peer_then_found "CCC=" w (snd (peers w)) (peers_of w)).
  - left. split; reflexivity.
  - vm_compute. reflexivity.
  - vm_compute. reflexivity.
  - repeat split; try reflexivity; discriminate.
  - repeat split; try reflexivity; discriminate.
  - reflexivity.
Defined.

(** ** A file that was initialized *)

(** X22. [initialize_file] raises exactly when its leading comment is
    refused, and then it has already emptied the buffer, while the records
    are those it found; otherwise the buffer is the comment, if any, and
    the header [[Interface]], and the records are unbuilt.  A new object
    has an interface without attributes and no peer. *)
Theorem initialize_file_spec
  (c : option string) (w : WGConfig) (ka : string) (b d : bool) :
  (exists w',
     initialize_file c w
     = (match c with Some x => check_comment x | None => Ok tt end, w')
     /\ keyattr w' = keyattr w
     /\ match c with
        | Some x =>
            match check_comment x with
            | Ok _ => lines w' = [x; "[Interface]"] /\ unbuilt w'
            | Raise _ =>
                lines w' = [] /\ _interface w' = _interface w
                /\ _peers w' = _peers w
            end
        | None => lines w' = ["[Interface]"] /\ unbuilt w'
        end)
  /\ lines (new_object ka) = ["[Interface]"]
  /\ fst (get_interface false (new_object ka)) = Ok []
  /\ fst (get_peers true b d (new_object ka)) = Ok (inl []).
Proof.
  split; [|split; [reflexivity | split; [reflexivity|]]].
  - unfold initialize_file, handle_leading_comment, append_line,
      invalidate_data, bind, lift, modify, ret.
    destruct c as [x|]; cbn.
    + destruct (check_comment x) as [[]|e]; cbn.
      * eexists. split; [reflexivity|]. cbn.
        split; [reflexivity | split; [reflexivity | split; reflexivity]].
      * eexists. split; [reflexivity|]. cbn.
        split; [reflexivity | split; [reflexivity | split; reflexivity]].
    + eexists. split; [reflexivity|]. cbn.
      split; [reflexivity | split; [reflexivity | split; reflexivity]].
  - destruct b; reflexivity.
Qed.

(** * The parse of a whole buffer *)

(** ** One turn of the loop, by the kind of the line *)

Lemma parse_step_blank i line loc w :
  classify line = Some Blank ->
  parse_step i line loc w
  = (Ok (mkLocals (section loc) (data loc) (Some i)), w).
Proof.
  unfold classify, parse_step. fold (normal line). intros H.
  destruct (Py.is_empty (normal line)); [reflexivity|].
  destruct (Py.startswith (normal line) "["); [discriminate H|].
  destruct (Py.startswith (normal line) "#"); [discriminate H|].
  destruct (parse_line (normal line)) as [[[a v] c]|]; discriminate H.
Qed.

Lemma parse_step_comment i line loc w :
  classify line = Some Comment ->
  parse_step i line loc w
  = (Ok (mkLocals (section loc)
           (sset SECTION_LASTLINE [AInt i] (data loc))
           (last_empty_line_in_section loc)), w).
Proof.
  unfold classify, parse_step. fold (normal line). intros H.
  destruct (Py.is_empty (normal line)); [discriminate H|].
  destruct (Py.startswith (normal line) "["); [discriminate H|].
  destruct (Py.startswith (normal line) "#"); [reflexivity|].
  destruct (parse_line (normal line)) as [[[a v] c]|]; discriminate H.
Qed.

Lemma parse_step_attr i line loc w a v :
  classify line = Some (Attr a v) ->
  parse_step i line loc w = (Ok (extended i loc a v), w)
  /\ v <> [].
Proof.
  unfold classify, parse_step. fold (normal line). intros H.
  destruct (Py.is_empty (normal line)); [discriminate H|].
  destruct (Py.startswith (normal line) "["); [discriminate H|].
  destruct (Py.startswith (normal line) "#"); [discriminate H|].
  destruct (parse_line (normal line)) as [[[a' v'] c]|] eqn:P;
    [|discriminate H].
  injection H as <- <-. split; [reflexivity|].
  exact (parse_line_valued _ _ _ _ P).
Qed.

Lemma parse_step_header i line loc w name :
  classify line = Some (Header name) ->
  parse_step i line loc w
  = (close_section (section loc) (closing_data loc) ;;;
     (if String.eqb name "interface" || String.eqb name "peer"
      then ret (opened i loc name)
      else raise ValueError)) w.
Proof.
  unfold classify, parse_step. fold (normal line). intros H.
  destruct (Py.is_empty (normal line)); [discriminate H|].
  destruct (Py.startswith (normal line) "[").
  - injection H as <-. reflexivity.
  - destruct (Py.startswith (normal line) "#"); [discriminate H|].
    destruct (parse_line (normal line)) as [[[a v] c]|]; discriminate H.
Qed.

(** ** Closing a section of a well-formed buffer *)

Lemma collapse_all_none sd : forall r name,
  collapse_all sd = Ok r -> sget name sd = None -> rget name r = None.
Proof.
  unfold sget, rget.
  induction sd as [|[k0 v0] sd IH]; intros r name Hr Hn; cbn in *.
  - injection Hr as <-. reflexivity.
  - destruct (collapse v0) as [c0|]; [|discriminate Hr]. cbn in Hr.
    destruct (collapse_all sd) as [r0|]; [|discriminate Hr].
    cbn in Hr. injection Hr as <-. cbn.
    destruct (String.eqb name k0); [discriminate Hn|].
    exact (IH r0 name eq_refl Hn).
Qed.

Lemma filed_built t rec w :
  (_peers w <> None -> _peers (filed t rec w) <> None)
  /\ (_interface w <> None -> _interface (filed t rec w) <> None)
  /\ lines (filed t rec w) = lines w
  /\ keyattr (filed t rec w) = keyattr w.
Proof.
  destruct t as [|k]; cbn.
  - repeat split; [trivial | discriminate].
  - repeat split; [|trivial].
    destruct (_peers w); [discriminate | trivial].
Qed.

(** A section whose data are as a well-formed buffer leaves them is closed
    without an exception. *)
Lemma close_section_total s sd w :
  all_valued sd ->
  (forall s0, s = Some s0 ->
     exists f0 l0,
       sget SECTION_FIRSTLINE sd = Some [AInt f0]
       /\ sget SECTION_LASTLINE sd = Some [AInt l0]
       /\ 0 <= f0 <= l0 /\ f0 < Py.len (lines w)
       /\ (String.eqb s0 "interface" = false ->
           _peers w <> None
           /\ (sget (keyattr w) sd = None
               \/ exists a, sget (keyattr w) sd = Some [a]))) ->
  exists w',
    close_section s sd w = (Ok tt, w')
    /\ (_peers w <> None -> _peers w' <> None)
    /\ (_interface w <> None -> _interface w' <> None).
Proof.
  intros Hv Hs. destruct (collapse_all_valued sd Hv) as [r Hr].
  destruct s as [s0|].
  - destruct (Hs s0 eq_refl) as (f0 & l0 & HF & HL & Hb & Hlen & Hk).
    destruct (collapse_all_get _ _ _ _ Hr HF) as (cf & Hcf & Rf).
    destruct (collapse_all_get _ _ _ _ Hr HL) as (cl & Hcl & Rl).
    cbn in Hcf, Hcl. injection Hcf as <-. injection Hcl as <-.
    assert (Ht : exists t, target_of s0 (keyattr w) r = Ok t /\ can_file t w).
    { unfold target_of. destruct (String.eqb s0 "interface").
      - exists TInterface. split; [reflexivity | exact I].
      - destruct (Hk eq_refl) as [HP [Hn | [a Ha]]].
        + exists (TPeer None). unfold peer_key.
          rewrite (collapse_all_none _ _ _ Hr Hn). split; [reflexivity | exact HP].
        + destruct (collapse_all_get _ _ _ _ Hr Ha) as (ca & Hca & Ra).
          cbn in Hca. injection Hca as <-.
          exists (TPeer (Some a)). unfold peer_key. rewrite Ra.
          split; [reflexivity | exact HP]. }
    destruct Ht as (t & Ht & Hc).
    destruct (slice_nonempty (lines w) f0 (l0 + 1)) as [first Hfirst];
      [lia | exact Hlen |].
    eexists. split.
    + apply (close_section_run s0 sd w r t _ _ f0 l0 first Hr Ht Hc Rf Rl
               eq_refl eq_refl Hfirst).
    + destruct (filed_built t (closed_record r (lines w) f0 l0 first) w)
        as (B1 & B2 & _). split; assumption.
  - exists w. rewrite close_section_stamp.
    rewrite (bind_run _ _ _ _ _ (lift_run _ _ _ Hr)).
    split; [reflexivity | split; trivial].
Qed.

Lemma sget_lastline_other name x sd :
  String.eqb name SECTION_LASTLINE = false ->
  sget name (sset SECTION_LASTLINE x sd) = sget name sd.
Proof.
  intros E. apply sget_sset_other. apply String.eqb_neq. exact E.
Qed.

Lemma at_most_one_lastline ka x sd :
  (sget ka sd = None \/ exists a, sget ka sd = Some [a]) ->
  sget ka (sset SECTION_LASTLINE [AInt x] sd) = None
  \/ exists a, sget ka (sset SECTION_LASTLINE [AInt x] sd) = Some [a].
Proof.
  intros H. destruct (String.eqb ka SECTION_LASTLINE) eqn:E.
  - apply String.eqb_eq in E. subst ka. right. exists (AInt x).
    apply sget_sset_same.
  - rewrite (sget_lastline_other _ _ _ E). exact H.
Qed.

(** The section open before line [i] of a well-formed buffer is closed
    without an exception, with its data as they are or with the last line
    the header of the next section gives it. *)
Lemma tidy_close ka peer keyed loc i w sd :
  tidy ka peer keyed loc -> open_section i loc ->
  i <= Py.len (lines w) -> keyattr w = ka -> _peers w <> None ->
  sd = data loc \/ sd = closing_data loc ->
  exists w',
    close_section (section loc) sd w = (Ok tt, w')
    /\ _peers w' <> None
    /\ (_interface w <> None -> _interface w' <> None).
Proof.
  intros [Hv Ht] [[Hi Hcur] Hopen] Hlen Hka HP Hsd.
  destruct names_distinct as (N1 & _).
  assert (Hsd' : sd = data loc
                 \/ exists e, last_empty_line_in_section loc = Some e
                              /\ sd = sset SECTION_LASTLINE [AInt (e - 1)]
                                        (data loc)).
  { destruct Hsd as [-> | ->]; [left; reflexivity|].
    unfold closing_data.
    destruct (last_empty_line_in_section loc) as [e|];
      [right; exists e; split; reflexivity | left; reflexivity]. }
  clear Hsd.
  destruct (close_section_total (section loc) sd w) as (w' & Hc & B1 & B2).
  - destruct Hsd' as [-> | (e & _ & ->)]; [exact Hv|].
    apply all_valued_sset; [discriminate | exact Hv].
  - intros s0 Hs0.
    destruct (Ht s0 Hs0) as ([f1 HF1] & Hint & Hpeer).
    destruct (Hopen ltac:(rewrite Hs0; discriminate))
      as (f0 & rest & l0 & h & HF & HL & Hf0 & Hh & Hhi & Hcur').
    rewrite HF1 in HF. injection HF as <- <-.
    assert (Key : String.eqb s0 "interface" = false ->
                  forall sd',
                    sd' = data loc
                    \/ (exists x, sd' = sset SECTION_LASTLINE [AInt x]
                                          (data loc)) ->
                    _peers w <> None
                    /\ (sget (keyattr w) sd' = None
                        \/ exists a, sget (keyattr w) sd' = Some [a])).
    { intros E sd' Hsd. split; [exact HP|]. rewrite Hka.
      rewrite Hint in E. apply negb_false_iff in E.
      destruct (Hpeer E) as [Hone _].
      destruct Hsd as [-> | [x ->]];
        [exact Hone | apply at_most_one_lastline, Hone]. }
    destruct Hsd' as [-> | (e & He & ->)].
    + exists f1, l0. split; [exact HF1|]. split; [exact HL|].
      split; [lia|]. split; [lia|].
      intros E. apply (Key E). left. reflexivity.
    + exists f1, (e - 1). split.
      { unfold sget, sset in *. rewrite sget_sset_other by exact N1.
        exact HF1. }
      split; [apply sget_sset_same|].
      specialize (Hcur' e He). split; [lia|]. split; [lia|].
      intros E. apply (Key E). right. exists (e - 1). reflexivity.
  - exists w'. split; [exact Hc|]. split; [apply B1, HP | exact B2].
Qed.

Lemma supported_name name :
  String.eqb name "interface" || String.eqb name "peer" = true ->
  String.eqb name "interface" = negb (String.eqb name "peer").
Proof.
  intros H. apply orb_true_iff in H as [H | H]; apply String.eqb_eq in H;
    subst name; reflexivity.
Qed.

(** One turn of the loop on a line of a well-formed buffer. *)
Lemma parse_step_wf ka i line rest loc w peer keyed :
  keyattr w = ka -> parsing w -> open_section i loc ->
  i < Py.len (lines w) -> tidy ka peer keyed loc ->
  well_formed_from ka peer keyed (line :: rest) = true ->
  exists loc' w' peer' keyed',
    parse_step i line loc w = (Ok loc', w')
    /\ parsing w' /\ open_section (i + 1) loc'
    /\ tidy ka peer' keyed' loc'
    /\ well_formed_from ka peer' keyed' rest = true.
Proof.
  intros Hka (HP & HI & HG) O Hlen T W.
  destruct names_distinct as (N1 & _).
  assert (Next : forall loc' w',
            parse_step i line loc w = (Ok loc', w') ->
            _peers w' <> None -> _interface w' <> None ->
            parsing w' /\ open_section (i + 1) loc').
  { intros loc' w' H B1 B2.
    destruct (parse_step_good _ _ _ _ _ _ HG O H) as [G1 O1].
    split; [split; [exact B1 | split; [exact B2 | exact G1]] | exact O1]. }
  cbn [well_formed_from] in W.
  destruct (classify line) as [[|name| |a v]|] eqn:C; [| | | |discriminate W].
  - (* a blank line *)
    pose proof (parse_step_blank i line loc w C) as H.
    destruct (Next _ _ H HP HI) as [P1 O1].
    exists (mkLocals (section loc) (data loc) (Some i)), w, peer, keyed.
    split; [exact H|]. split; [exact P1|]. split; [exact O1|].
    split; [exact T | exact W].
  - (* a header *)
    apply andb_true_iff in W as [Sup W].
    destruct (tidy_close ka peer keyed loc i w (closing_data loc) T O
                ltac:(lia) Hka HP (or_intror eq_refl))
      as (w' & Hc & B1 & B2).
    assert (H : parse_step i line loc w = (Ok (opened i loc name), w')).
    { rewrite (parse_step_header i line loc w name C).
      rewrite (bind_run _ _ _ _ _ Hc), Sup. reflexivity. }
    destruct (Next _ _ H B1 (B2 HI)) as [P1 O1].
    exists (opened i loc name), w', (String.eqb name "peer"), false.
    split; [exact H|]. split; [exact P1|]. split; [exact O1|].
    split; [|exact W].
    split.
    + unfold opened. cbn [data].
      apply all_valued_sset; [discriminate|].
      apply all_valued_sset; [discriminate | constructor].
    + intros s Hs. cbn in Hs. injection Hs as <-.
      split; [eexists; reflexivity|].
      split; [apply supported_name, Sup|].
      intros _. unfold opened. cbn [data]. split.
      * apply at_most_one_lastline.
        destruct (String.eqb ka SECTION_FIRSTLINE) eqn:E.
        -- apply String.eqb_eq in E. rewrite E. right. eexists.
           apply sget_sset_same.
        -- left. unfold sget, sset. cbn. rewrite E. reflexivity.
      * intros _ Hu. destruct (underscore_names _ Hu) as (E1 & E2 & _).
        rewrite (sget_lastline_other _ _ _ E2).
        unfold sget, sset. cbn. rewrite E1. reflexivity.
  - (* a comment *)
    pose proof (parse_step_comment i line loc w C) as H.
    destruct (Next _ _ H HP HI) as [P1 O1].
    eexists. exists w, peer, keyed.
    split; [exact H|]. split; [exact P1|]. split; [exact O1|].
    split; [|exact W].
    destruct T as [Hv Ht]. split; cbn [data section].
    + apply all_valued_sset; [discriminate | exact Hv].
    + intros s Hs. destruct (Ht s Hs) as ([f1 HF1] & Hint & Hpeer).
      split.
      { exists f1. unfold sget, sset in *.
        rewrite sget_sset_other by exact N1. exact HF1. }
      split; [exact Hint|].
      intros Hp. destruct (Hpeer Hp) as [Hone Hnone]. split.
      * apply at_most_one_lastline, Hone.
      * intros Hk Hu. destruct (underscore_names _ Hu) as (_ & E2 & _).
        rewrite (sget_lastline_other _ _ _ E2). exact (Hnone Hk Hu).
  - (* an attribute *)
    apply andb_true_iff in W as [W Wrest].
    apply andb_true_iff in W as [W Wk].
    apply andb_true_iff in W as [_ Wa]. apply negb_true_iff in Wa.
    destruct (parse_step_attr i line loc w a v C) as [H Hv0].
    destruct (Next _ _ H HP HI) as [P1 O1].
    exists (extended i loc a v), w, peer, (keyed || String.eqb a ka).
    split; [exact H|]. split; [exact P1|]. split; [exact O1|].
    split; [|exact Wrest].
    destruct (underscore_names _ Wa) as (A1 & A2 & _).
    destruct T as [Hv Ht]. split; unfold extended; cbn [data section].
    + apply all_valued_sset; [discriminate|].
      apply all_valued_sset; [|exact Hv].
      intros E. apply app_eq_nil in E as [_ E]. exact (Hv0 E).
    + intros s Hs. destruct (Ht s Hs) as ([f1 HF1] & Hint & Hpeer).
      split.
      { exists f1. unfold sget, sset in *.
        rewrite sget_sset_other by exact N1.
        rewrite sget_sset_other; [exact HF1|].
        intros E. rewrite <- E, String.eqb_refl in A1. discriminate A1. }
      split; [exact Hint|].
      intros Hp. destruct (Hpeer Hp) as [Hone Hnone].
      rewrite Hp in Wk. cbn [andb] in Wk.
      destruct (String.eqb a ka) eqn:Eak.
      * apply String.eqb_eq in Eak. subst a.
        apply andb_true_iff in Wk as [Wk1 Wk2].
        apply negb_true_iff in Wk1. apply Nat.eqb_eq in Wk2.
        destruct v as [|x [|y v]]; try discriminate Wk2.
        rewrite (Hnone Wk1 Wa). cbn [app].
        assert (S1 : sget ka (sset SECTION_LASTLINE [AInt i]
                                (sset ka [x] (data loc))) = Some [x]).
        { rewrite (sget_lastline_other _ _ _ A2). apply sget_sset_same. }
        split; [right; exists x; exact S1|].
        rewrite orb_true_r. intros D. discriminate D.
      * rewrite orb_false_r.
        assert (Nk : ka <> a).
        { intros ->. rewrite String.eqb_refl in Eak. discriminate Eak. }
        split.
        -- apply at_most_one_lastline.
           unfold sget, sset in *. rewrite sget_sset_other by exact Nk.
           exact Hone.
        -- intros Hk Hu. destruct (underscore_names _ Hu) as (_ & E2 & _).
           rewrite (sget_lastline_other _ _ _ E2).
           unfold sget, sset in *. rewrite sget_sset_other by exact Nk.
           exact (Hnone Hk Hu).
Qed.

Lemma parse_loop_wf ka ls : forall i loc w peer keyed,
  keyattr w = ka -> parsing w -> open_section i loc ->
  i + Py.len ls = Py.len (lines w) -> tidy ka peer keyed loc ->
  well_formed_from ka peer keyed ls = true ->
  exists loc' w' peer' keyed',
    parse_loop i ls loc w = (Ok loc', w')
    /\ parsing w' /\ open_section (Py.len (lines w)) loc'
    /\ tidy ka peer' keyed' loc'
    /\ lines w' = lines w /\ keyattr w' = ka.
Proof.
  induction ls as [|line ls IH]; intros i loc w peer keyed Hka P O Hi T W.
  - exists loc, w, peer, keyed. cbn in Hi. rewrite Z.add_0_r in Hi. subst i.
    split; [reflexivity|]. split; [exact P|]. split; [exact O|].
    split; [exact T|]. split; [reflexivity | exact Hka].
  - rewrite len_cons in Hi. pose proof (len_nonneg ls) as Ll.
    destruct (parse_step_wf ka i line ls loc w peer keyed Hka P O
                ltac:(lia) T W)
      as (loc1 & w1 & peer1 & keyed1 & H1 & P1 & O1 & T1 & W1).
    pose proof (frame_parse_step i line loc w) as [Fl Fk].
    rewrite H1 in Fl, Fk. cbn [snd] in Fl, Fk.
    destruct (IH (i + 1) loc1 w1 peer1 keyed1) as
      (loc2 & w2 & peer2 & keyed2 & H2 & P2 & O2 & T2 & L2 & K2);
      try assumption.
    + congruence.
    + rewrite Fl. lia.
    + exists loc2, w2, peer2, keyed2. cbn [parse_loop].
      rewrite (bind_run _ _ _ _ _ H1). rewrite Fl in *.
      split; [exact H2|]. split; [exact P2|]. split; [exact O2|].
      split; [exact T2|]. split; [exact L2 | exact K2].
Qed.

(** A well-formed buffer is parsed without an exception. *)
Lemma parse_lines_wf w :
  well_formed (keyattr w) (lines w) = true ->
  exists w', parse_lines w = (Ok tt, w') /\ _interface w' <> None.
Proof.
  intros W. rewrite parse_lines_loop.
  assert (P0 : parsing (cleared w)).
  { split; [discriminate | split; [discriminate|]].
    intros p k r Hp Hk. cbn in Hp. injection Hp as <-. discriminate Hk. }
  assert (O0 : open_section 0 start).
  { split; cbn.
    - split; [lia|]. intros e He. injection He as <-. lia.
    - intros Hs. contradiction. }
  assert (T0 : tidy (keyattr w) false false start).
  { split; [constructor|]. intros s Hs. discriminate Hs. }
  destruct (parse_loop_wf (keyattr w) (lines w) 0 start (cleared w) false
              false eq_refl P0 O0 eq_refl T0 W)
    as (loc & w1 & peer & keyed & H1 & (HP & HI & _) & O1 & T1 & L1 & K1).
  rewrite (bind_run _ _ _ _ _ H1).
  destruct (tidy_close (keyattr w) peer keyed loc (Py.len (lines w)) w1
              (data loc) T1 O1) as (w' & Hc & _ & B2).
  - rewrite L1. change (lines (cleared w)) with (lines w). lia.
  - exact K1.
  - exact HP.
  - left. reflexivity.
  - exists w'. split; [exact Hc | exact (B2 HI)].
Qed.

(** ** Parse, then write *)

Lemma written_tidy ls :
  Forall clean_line ls ->
  file_lines (Py.writelines (map add_newline ls)) = ls.
Proof.
  intros H. unfold file_lines. rewrite readlines_writelines.
  - rewrite map_map. induction H as [|s l [Hs _] _ IH]; [reflexivity|].
    cbn [map]. rewrite rstrip_add_newline, Hs, IH. reflexivity.
  - eapply Forall_impl; [|exact H]. intros s [_ Hs]. exact Hs.
Qed.

(** C1 (amended). A text without carriage return whose lines are
    well-formed is parsed and written without an exception; what is
    written is the text with the blanks at the end of each line removed
    and a line feed after each line; parsing and writing that again
    reproduces it exactly, and leaves the object as the first round trip
    did; and it is the original text exactly when every line of the
    original ends with a line feed and has no blank before it. *)
Theorem parse_write_roundtrip (w : WGConfig) (text : string) :
  lacks carriage_return text = true ->
  well_formed (keyattr w) (file_lines text) = true ->
  exists out w',
    parse_and_write text w = (Ok out, w')
    /\ out = Py.writelines (map add_newline (file_lines text))
    /\ lines w' = file_lines text
    /\ parse_and_write out w = (Ok out, w')
    /\ (tidy_text text -> out = text).
Proof.
  intros _ W.
  set (w1 := mkWG (keyattr w) (file_lines text) None None).
  assert (R : read_from_fileobj text w = (Ok tt, w1)) by reflexivity.
  destruct (parse_lines_wf w1 W) as (w2 & Hparse & HI).
  pose proof (frame_parse_lines w1) as [Fl _]. rewrite Hparse in Fl.
  cbn [snd] in Fl. change (lines w1) with (file_lines text) in Fl.
  destruct (_interface w2) as [r|] eqn:I2; [clear HI | contradiction].
  assert (Hi : interface w1 = (Ok r, w2)).
  { unfold interface. rewrite (bind_run _ _ _ _ _ (gets_run _ _)).
    change (_interface w1) with (@None record). cbv iota.
    rewrite (bind_run _ _ _ _ _ Hparse).
    rewrite (bind_run _ _ _ _ _ (gets_run _ _)), I2. reflexivity. }
  assert (First : parse_and_write text w
                  = (Ok (Py.writelines (map add_newline (file_lines text))),
                     w2)).
  { unfold parse_and_write. rewrite (bind_run _ _ _ _ _ R).
    rewrite (bind_run _ _ _ _ _ Hi).
    unfold write_to_fileobj. rewrite (bind_run _ _ _ _ _ (gets_run _ _)).
    rewrite Fl. reflexivity. }
  eexists. exists w2. split; [exact First|].
  split; [reflexivity|]. split; [exact Fl|].
  split; [exact (roundtrip_again _ _ _ _ First)|].
  intros (ls & Hls & ->). rewrite (written_tidy ls Hls). reflexivity.
Qed.

Lemma parse_write_roundtrip_witness :
  let text := Py.writelines (map add_newline sample_lines) in
  exists out w',
    parse_and_write text (new_object "PublicKey") = (Ok out, w')
    /\ out = Py.writelines (map add_newline (file_lines text))
    /\ lines w' = file_lines text
    /\ parse_and_write out (new_object "PublicKey") = (Ok out, w')
    /\ (tidy_text text -> out = text).
Proof.
  intros text.
  apply (parse_write_roundtrip (new_object "PublicKey") text).
  - reflexivity.
  - vm_compute. reflexivity.
Defined.

(** The sample, each line of it ended by a line feed, is a tidy text, and
    it is written back as it is. *)
Example roundtrip_exact_on_tidy_text :
  let text := Py.writelines (map add_newline sample_lines) in
  tidy_text text
  /\ fst (parse_and_write text (new_object "PublicKey")) = Ok text.
Proof.
  intros text. split.
  - exists sample_lines. split; [|reflexivity].
    repeat constructor.
  - vm_compute. reflexivity.
Qed.

(** C1, as stated, fails: a well-formed text with blanks at the end of a
    line, or without a line feed after its last line, is not written back
    as it was. *)
Lemma roundtrip_changes_text :
  lacks carriage_return sample_text = true
  /\ well_formed "PublicKey" (file_lines sample_text) = true
  /\ fst (parse_and_write sample_text (new_object "PublicKey"))
     = Ok (Py.writelines (map add_newline sample_lines))
  /\ Py.writelines (map add_newline sample_lines) <> sample_text.
Proof.
  split; [reflexivity|]. split; [vm_compute; reflexivity|].
  split; [vm_compute; reflexivity|].
  intros E. vm_compute in E. discriminate E.
Qed.

(** ** What a parse that returns keeps *)

(** The object after a [close_section] that returned. *)
Lemma close_section_result s sd w w' :
  close_section s sd w = (Ok tt, w') ->
  (s = None /\ w' = w)
  \/ exists s0 r t f l first,
       s = Some s0 /\ collapse_all sd = Ok r
       /\ target_of s0 (keyattr w) r = Ok t /\ can_file t w
       /\ w' = filed t (closed_record r (lines w) f l first) w.
Proof.
  intros H. destruct s as [s0|].
  - right.
    destruct (close_section_inv _ _ _ _ H)
      as (r & t & vf & vl & f & l & first
          & Hr & Ht & Hc & Hvf & Hvl & Hf & Hl & Hfirst).
    rewrite (close_section_run _ _ _ _ _ _ _ _ _ _
               Hr Ht Hc Hvf Hvl Hf Hl Hfirst) in H.
    injection H as <-.
    exists s0, r, t, f, l, first. repeat split; assumption.
  - left. split; [reflexivity|]. rewrite close_section_stamp in H.
    apply bind_ok in H as (r & w0 & Hr & H). apply lift_ok in Hr as [_ ->].
    apply ret_ok in H as [_ ->]. reflexivity.
Qed.

Lemma parse_step_inv (Q : WGConfig -> Prop) :
  (forall s sd w w', Q w -> close_section s sd w = (Ok tt, w') -> Q w') ->
  forall i raw loc w loc' w',
    Q w -> parse_step i raw loc w = (Ok loc', w') -> Q w'.
Proof.
  intros HQ i raw loc w loc' w' Hw H. unfold parse_step in H.
  destruct (Py.is_empty _).
  { apply ret_ok in H as [_ ->]. exact Hw. }
  destruct (Py.startswith _ "[").
  { apply bind_ok in H as (u & w1 & Hc & H). destruct u.
    destruct (_ || _); [|discriminate H].
    apply ret_ok in H as [_ ->]. exact (HQ _ _ _ _ Hw Hc). }
  destruct (Py.startswith _ "#").
  { apply ret_ok in H as [_ ->]. exact Hw. }
  apply bind_ok in H as ([[attr value] c] & w1 & Hp & H).
  apply lift_ok in Hp as [_ ->]. apply ret_ok in H as [_ ->]. exact Hw.
Qed.

Lemma parse_loop_inv (Q : WGConfig -> Prop) :
  (forall s sd w w', Q w -> close_section s sd w = (Ok tt, w') -> Q w') ->
  forall ls i loc w loc' w',
    Q w -> parse_loop i ls loc w = (Ok loc', w') -> Q w'.
Proof.
  intros HQ. induction ls as [|line ls IH]; intros i loc w loc' w' Hw H;
    cbn [parse_loop] in H.
  - apply ret_ok in H as [_ ->]. exact Hw.
  - apply bind_ok in H as (loc1 & w1 & H1 & H).
    exact (IH _ _ _ _ _ (parse_step_inv Q HQ _ _ _ _ _ _ Hw H1) H).
Qed.

Lemma peer_key_none ka r k :
  peer_key ka r = Ok k -> (k = None <-> rget ka r = None).
Proof.
  unfold peer_key. destruct (rget ka r) as [[a|l|b]|]; intros H;
    try discriminate H; injection H as <-;
    (split; [discriminate | discriminate]) || (split; reflexivity).
Qed.

Lemma closed_record_key ka r ls f l first :
  Py.startswith ka "_" = false ->
  rget ka (closed_record r ls f l first) = rget ka r.
Proof.
  intros Hu. destruct (underscore_names _ Hu) as (_ & _ & E3 & E4).
  unfold closed_record.
  rewrite !rget_rset_other; [reflexivity | |];
    intros ->; rewrite String.eqb_refl in *; discriminate.
Qed.

(** A parse files every record under the value of its key attribute, and
    keeps the record it has under [None], or puts another in its place. *)
Lemma close_section_by_key ka s sd w w' :
  Py.startswith ka "_" = false ->
  keyattr w = ka /\ filed_by_key w ->
  close_section s sd w = (Ok tt, w') ->
  keyattr w' = ka /\ filed_by_key w'.
Proof.
  intros Hu [Hka HK] H.
  destruct (close_section_result _ _ _ _ H)
    as [[_ ->] | (s0 & r & t & f & l & first & _ & Hr & Ht & Hc & ->)];
    [split; assumption|].
  destruct (filed_built t (closed_record r (lines w) f l first) w)
    as (_ & _ & _ & Fk).
  split; [congruence|].
  intros p k r1 Hp Hk. rewrite Fk.
  destruct t as [|k0]; [exact (HK p k r1 Hp Hk)|].
  cbn [filed _peers with_peers] in Hp.
  destruct (_peers w) as [p0|] eqn:P0; [|discriminate Hp].
  cbn in Hp. injection Hp as <-.
  unfold target_of in Ht. destruct (String.eqb s0 "interface");
    [discriminate Ht|].
  destruct (peer_key (keyattr w) r) as [k1|] eqn:Pk; [|discriminate Ht].
  cbn in Ht. injection Ht as ->.
  destruct (key_eqb k k0) eqn:E.
  - apply key_eqb_eq in E. subst k. rewrite pget_pset_same in Hk.
    injection Hk as <-. rewrite Hka, (closed_record_key _ _ _ _ _ _ Hu).
    rewrite <- Hka. exact (peer_key_none _ _ _ Pk).
  - assert (Nk : k <> k0).
    { intros ->. rewrite (eqb_refl key_eqb key_eqb_eq) in E. discriminate E. }
    rewrite (pget_pset_other _ _ _ _ Nk) in Hk. exact (HK p0 k r1 P0 Hk).
Qed.

Lemma close_section_keeps_keyless s sd w w' :
  has_keyless w -> close_section s sd w = (Ok tt, w') -> has_keyless w'.
Proof.
  intros (p & r0 & Hp & Hn) H.
  destruct (close_section_result _ _ _ _ H)
    as [[_ ->] | (s0 & r & t & f & l & first & _ & Hr & Ht & Hc & ->)];
    [exists p, r0; split; assumption|].
  destruct t as [|k0]; [exists p, r0; split; assumption|].
  cbn [filed]. unfold has_keyless. cbn [_peers with_peers]. rewrite Hp.
  cbn [option_map].
  destruct (pget None (pset k0 (closed_record r (lines w) f l first) p))
    as [r1|] eqn:E.
  - exists (pset k0 (closed_record r (lines w) f l first) p), r1.
    split; [reflexivity | exact E].
  - exfalso.
    assert (N : pget None
                  (pset k0 (closed_record r (lines w) f l first) p) <> None).
    { apply pget_pset_mem. right. rewrite Hn. discriminate. }
    exact (N E).
Qed.

(** ** A peer section without key *)

(** Closing a peer section without key files its record under [None]. *)
Lemma close_keyless ka n loc sd w w' p :
  Py.startswith ka "_" = false -> keyattr w = ka ->
  keyless_open ka n loc ->
  sd = data loc \/ sd = closing_data loc ->
  _peers w = Some p ->
  close_section (section loc) sd w = (Ok tt, w') ->
  exists rec f l,
    _peers w' = Some (pset None rec p)
    /\ rget SECTION_FIRSTLINE rec = Some (One (AInt f))
    /\ rget SECTION_LASTLINE rec = Some (One (AInt l))
    /\ f <= n <= l
    /\ raw_lines rec = map AStr (Py.slice (lines w) f (l + 1)).
Proof.
  intros Hu Hka (Hs & Hn & f0 & rest & l0 & HF & HL & Hb & Hcur) Hsd Hp H.
  destruct (underscore_names _ Hu) as (E1 & E2 & _).
  destruct names_distinct as (N1 & N2 & N3 & N4 & N5 & N6).
  assert (Sd : sget ka sd = None
               /\ sget SECTION_FIRSTLINE sd = Some (AInt f0 :: rest)
               /\ exists l1, sget SECTION_LASTLINE sd = Some [AInt l1]
                             /\ n <= l1).
  { destruct Hsd as [-> | ->];
      [split; [exact Hn | split; [exact HF | exists l0; split; [exact HL | lia]]]|].
    unfold closing_data.
    destruct (last_empty_line_in_section loc) as [e|];
      [|split; [exact Hn | split; [exact HF | exists l0; split; [exact HL | lia]]]].
    split; [rewrite (sget_lastline_other _ _ _ E2); exact Hn|].
    split.
    - unfold sget, sset in *. rewrite sget_sset_other by exact N1. exact HF.
    - exists (e - 1). split; [apply sget_sset_same|].
      specialize (Hcur e eq_refl). lia. }
  destruct Sd as (Sk & SF & l1 & SL & Hl1).
  rewrite Hs in H.
  destruct (close_section_inv _ _ _ _ H)
    as (r & t & vf & vl & f & l & first
        & Hr & Ht & Hc & Hvf & Hvl & Hf & Hl & Hfirst).
  destruct (bounded_collapsed _ _ _ _ _ _ _ _ _ Hr SF SL Hvf Hvl Hf Hl)
    as [-> ->].
  rewrite (close_section_run _ _ _ _ _ _ _ _ _ _
             Hr Ht Hc Hvf Hvl Hf Hl Hfirst) in H.
  injection H as <-.
  assert (Tn : t = TPeer None).
  { unfold target_of in Ht.
    change (String.eqb "peer" "interface") with false in Ht. cbv iota in Ht.
    unfold peer_key in Ht. rewrite Hka in Ht.
    rewrite (collapse_all_none _ _ _ Hr Sk) in Ht. cbn in Ht.
    injection Ht as <-. reflexivity. }
  subst t.
  assert (Vl : vl = One (AInt l1)).
  { destruct (collapse_all_get _ _ _ _ Hr SL) as (cl & Hcl & Rl).
    cbn in Hcl. injection Hcl as <-. congruence. }
  assert (Vf : vf = One (AInt f0)).
  { destruct (collapse_all_get _ _ _ _ Hr SF) as (cf & Hcf & Rf).
    rewrite Rf in Hvf. injection Hvf as <-.
    destruct rest; cbn in Hcf; injection Hcf as <-; [reflexivity|].
    discriminate Hf. }
  subst vf vl.
  exists (closed_record r (lines w) f0 l1 first), f0, l1.
  split; [cbn [filed _peers with_peers]; rewrite Hp; reflexivity|].
  unfold closed_record.
  split; [rewrite !rget_rset_other by assumption; exact Hvf|].
  split; [rewrite !rget_rset_other by assumption; exact Hvl|].
  split; [lia|].
  unfold raw_lines. rewrite rget_rset_other by exact N6.
  rewrite rget_rset_same. reflexivity.
Qed.

(** The lines of a section without key, read one after the other. *)
Lemma parse_loop_keyless ka n body : forall i loc w loc' w',
  Py.startswith ka "_" = false -> n < i ->
  keyless_open ka n loc ->
  Forall (keyless_line ka) body ->
  parse_loop i body loc w = (Ok loc', w') ->
  keyless_open ka n loc' /\ w' = w.
Proof.
  induction body as [|line body IH]; intros i loc w loc' w' Hu Hi K B H;
    cbn [parse_loop] in H.
  - apply ret_ok in H as [-> ->]. split; [exact K | reflexivity].
  - apply bind_ok in H as (loc1 & w1 & H1 & H).
    inversion B as [|? ? Hline Hbody]; subst.
    destruct (underscore_names _ Hu) as (E1 & E2 & _).
    destruct names_distinct as (N1 & _).
    destruct K as (Hs & Hn & f0 & rest & l0 & HF & HL & Hb & Hcur).
    assert (K1 : keyless_open ka n loc1 /\ w1 = w).
    { unfold keyless_line in Hline.
      destruct (classify line) as [[|name| |a v]|] eqn:C;
        try contradiction.
      - rewrite (parse_step_blank _ _ _ _ C) in H1. injection H1 as <- <-.
        split; [|reflexivity]. split; [exact Hs|]. split; [exact Hn|].
        exists f0, rest, l0. repeat split; try assumption; try lia.
        intros e He. cbn in He. injection He as <-. exact Hi.
      - rewrite (parse_step_comment _ _ _ _ C) in H1. injection H1 as <- <-.
        split; [|reflexivity]. split; [exact Hs|]. cbn [data].
        split; [rewrite (sget_lastline_other _ _ _ E2); exact Hn|].
        exists f0, rest, i. split.
        { unfold sget, sset in *. rewrite sget_sset_other by exact N1.
          exact HF. }
        split; [apply sget_sset_same|]. split; [lia | exact Hcur].
      - destruct (parse_step_attr i line loc w a v C) as [S _].
        rewrite S in H1. injection H1 as <- <-.
        split; [|reflexivity]. split; [exact Hs|].
        unfold extended. cbn [data last_empty_line_in_section].
        assert (Nk : ka <> a) by congruence.
        split.
        { rewrite (sget_lastline_other _ _ _ E2).
          unfold sget, sset in *. rewrite sget_sset_other by exact Nk.
          exact Hn. }
        destruct (String.eqb SECTION_FIRSTLINE a) eqn:Ea.
        + apply String.eqb_eq in Ea. subst a.
          exists f0, (rest ++ v), i. split.
          { unfold sget, sset in *. rewrite sget_sset_other by exact N1.
            rewrite HF. rewrite sget_sset_same. reflexivity. }
          split; [apply sget_sset_same|]. split; [lia | exact Hcur].
        + apply String.eqb_neq in Ea.
          exists f0, rest, i. split.
          { unfold sget, sset in *. rewrite sget_sset_other by exact N1.
            rewrite sget_sset_other by exact Ea. exact HF. }
          split; [apply sget_sset_same|]. split; [lia | exact Hcur]. }
    destruct K1 as [K1 ->].
    apply (IH (i + 1) loc1 w loc' w' Hu ltac:(lia) K1 Hbody H).
Qed.

(** Closing a section that is not a peer section without key leaves the
    record under [None] as it is. *)
Lemma close_keyed ka peer keyed loc sd w w' p :
  Py.startswith ka "_" = false -> keyattr w = ka ->
  keyed_open ka peer keyed loc -> negb peer || keyed = true ->
  sd = data loc \/ sd = closing_data loc ->
  _peers w = Some p ->
  close_section (section loc) sd w = (Ok tt, w') ->
  exists p', _peers w' = Some p' /\ pget None p' = pget None p
             /\ keyattr w' = ka.
Proof.
  intros Hu Hka (s & Hs & Hint & Hk) Hpk Hsd Hp H.
  destruct (underscore_names _ Hu) as (E1 & E2 & _).
  rewrite Hs in H.
  destruct (close_section_result _ _ _ _ H)
    as [[D _] | (s0 & r & t & f & l & first & D & Hr & Ht & Hc & ->)];
    [discriminate D|].
  injection D as <-.
  destruct (filed_built t (closed_record r (lines w) f l first) w)
    as (_ & _ & _ & Fk).
  destruct t as [|k0];
    [exists p; split; [exact Hp | split; [reflexivity | congruence]]|].
  unfold target_of in Ht.
  destruct (String.eqb s "interface") eqn:Ei; [discriminate Ht|].
  destruct (peer_key (keyattr w) r) as [k1|] eqn:Pk; [|discriminate Ht].
  cbn in Ht. injection Ht as ->.
  symmetry in Hint. apply negb_false_iff in Hint. subst peer.
  cbn in Hpk. subst keyed. specialize (Hk eq_refl).
  assert (Sk : sget ka sd <> None).
  { destruct Hsd as [-> | ->]; [exact Hk|]. unfold closing_data.
    destruct (last_empty_line_in_section loc); [|exact Hk].
    rewrite (sget_lastline_other _ _ _ E2). exact Hk. }
  assert (Nk : k0 <> None).
  { intros ->. destruct (sget ka sd) as [v0|] eqn:Sv; [|contradiction].
    destruct (collapse_all_get _ _ _ _ Hr Sv) as (c0 & _ & Rc).
    pose proof (proj1 (peer_key_none _ _ _ Pk) eq_refl) as Rn.
    rewrite Hka, Rc in Rn. discriminate Rn. }
  eexists. split; [cbn [filed _peers with_peers]; rewrite Hp; reflexivity|].
  split; [|congruence].
  apply pget_pset_other. congruence.
Qed.

Lemma parse_step_unreadable i line loc w loc' w' :
  classify line = None -> parse_step i line loc w <> (Ok loc', w').
Proof.
  unfold classify, parse_step. fold (normal line). intros C H.
  destruct (Py.is_empty (normal line)); [discriminate C|].
  destruct (Py.startswith (normal line) "["); [discriminate C|].
  destruct (Py.startswith (normal line) "#"); [discriminate C|].
  destruct (parse_line (normal line)) as [[[a v] c]|]; [discriminate C|].
  discriminate H.
Qed.

(** The header of a section, at line [i]: the section before it is closed,
    the new one is opened. *)
Lemma parse_step_header_ok i line loc w loc' w' name :
  classify line = Some (Header name) ->
  parse_step i line loc w = (Ok loc', w') ->
  close_section (section loc) (closing_data loc) w = (Ok tt, w')
  /\ loc' = opened i loc name.
Proof.
  intros C H. rewrite (parse_step_header i line loc w name C) in H.
  apply bind_ok in H as (u & w1 & Hc & H). destruct u.
  destruct (_ || _); [|discriminate H].
  apply ret_ok in H as [-> ->]. split; [exact Hc | reflexivity].
Qed.

(** One turn of the loop while sections that have their key are read: the
    record under [None] stays as it is. *)
Lemma parse_step_keyed ka i line rest loc w loc' w' peer keyed p :
  Py.startswith ka "_" = false -> keyattr w = ka ->
  keyed_open ka peer keyed loc -> _peers w = Some p ->
  parse_step i line loc w = (Ok loc', w') ->
  keyed_sections ka peer keyed (line :: rest) = true ->
  exists peer' keyed' p',
    keyed_open ka peer' keyed' loc'
    /\ keyed_sections ka peer' keyed' rest = true
    /\ _peers w' = Some p' /\ pget None p' = pget None p
    /\ keyattr w' = ka.
Proof.
  intros Hu Hka K Hp H W.
  destruct (underscore_names _ Hu) as (E1 & E2 & _).
  cbn [keyed_sections] in W.
  destruct (classify line) as [[|name| |a v]|] eqn:C.
  - rewrite (parse_step_blank _ _ _ _ C) in H. injection H as <- <-.
    exists peer, keyed, p. split; [exact K|]. split; [exact W|].
    split; [exact Hp | split; [reflexivity | exact Hka]].
  - apply andb_true_iff in W as [Wk W].
    destruct (parse_step_header_ok _ _ _ _ _ _ _ C H) as [Hc ->].
    destruct (close_keyed ka peer keyed loc (closing_data loc) w w' p
                Hu Hka K Wk (or_intror eq_refl) Hp Hc)
      as (p' & Hp' & Hn' & Hka').
    exists (negb (String.eqb name "interface")), false, p'.
    split.
    { exists name. split; [reflexivity|].
      split; [rewrite negb_involutive; reflexivity | discriminate]. }
    split; [exact W|]. split; [exact Hp' | split; [exact Hn' | exact Hka']].
  - rewrite (parse_step_comment _ _ _ _ C) in H. injection H as <- <-.
    exists peer, keyed, p. split.
    { destruct K as (s & Hs & Hint & Hk). exists s.
      split; [exact Hs|]. split; [exact Hint|]. cbn [data].
      rewrite (sget_lastline_other _ _ _ E2). exact Hk. }
    split; [exact W|]. split; [exact Hp | split; [reflexivity | exact Hka]].
  - destruct (parse_step_attr i line loc w a v C) as [S _].
    rewrite S in H. injection H as <- <-.
    exists peer, (keyed || String.eqb a ka), p. split.
    { destruct K as (s & Hs & Hint & Hk). exists s.
      split; [exact Hs|]. split; [exact Hint|].
      unfold extended. cbn [data].
      rewrite (sget_lastline_other _ _ _ E2). intros Hkeyed.
      destruct (String.eqb a ka) eqn:Ea.
      - apply String.eqb_eq in Ea. subst a.
        unfold sget, sset. rewrite sget_sset_same. discriminate.
      - rewrite orb_false_r in Hkeyed.
        unfold sget, sset in *. rewrite sget_sset_other; [exact (Hk Hkeyed)|].
        intros ->. rewrite String.eqb_refl in Ea. discriminate Ea. }
    split; [exact W|]. split; [exact Hp | split; [reflexivity | exact Hka]].
  - exfalso. exact (parse_step_unreadable _ _ _ _ _ _ C H).
Qed.

Lemma parse_loop_keyed ka ls : forall i loc w loc' w' peer keyed p,
  Py.startswith ka "_" = false -> keyattr w = ka ->
  keyed_open ka peer keyed loc -> _peers w = Some p ->
  parse_loop i ls loc w = (Ok loc', w') ->
  keyed_sections ka peer keyed ls = true ->
  exists peer' keyed' p',
    keyed_open ka peer' keyed' loc'
    /\ negb peer' || keyed' = true
    /\ _peers w' = Some p' /\ pget None p' = pget None p
    /\ keyattr w' = ka.
Proof.
  induction ls as [|line ls IH];
    intros i loc w loc' w' peer keyed p Hu Hka K Hp H W;
    cbn [parse_loop] in H.
  - apply ret_ok in H as [-> ->]. exists peer, keyed, p.
    split; [exact K|]. split; [exact W|].
    split; [exact Hp | split; [reflexivity | exact Hka]].
  - apply bind_ok in H as (loc1 & w1 & H1 & H).
    destruct (parse_step_keyed ka i line ls loc w loc1 w1 peer keyed p
                Hu Hka K Hp H1 W)
      as (peer1 & keyed1 & p1 & K1 & W1 & Hp1 & Hn1 & Hka1).
    destruct (IH (i + 1) loc1 w1 loc' w' peer1 keyed1 p1 Hu Hka1 K1 Hp1 H W1)
      as (peer2 & keyed2 & p2 & K2 & W2 & Hp2 & Hn2 & Hka2).
    exists peer2, keyed2, p2.
    split; [exact K2|]. split; [exact W2|].
    split; [exact Hp2 | split; [congruence | exact Hka2]].
Qed.

Lemma pget_without k k0 p : k <> k0 -> pget k (without k0 p) = pget k p.
Proof.
  intros N. unfold pget, without.
  induction p as [|[k1 r1] p IH]; cbn; [reflexivity|].
  destruct (key_eqb k1 k0) eqn:E1; cbn.
  - apply key_eqb_eq in E1. subst k1.
    rewrite (eqb_neq key_eqb key_eqb_eq _ _ N). exact IH.
  - destruct (key_eqb k k1); [reflexivity | exact IH].
Qed.

(** What follows from a parse that left a record under [None]. *)
Lemma keyless_lookups (w' : WGConfig) (p : peer_map) (r : record) :
  _peers w' = Some p -> pget None p = Some r -> filed_by_key w' ->
  rget (keyattr w') r = None
  /\ fst (get_peer None true w') = Ok r
  /\ (forall a r', pget (Some a) p = Some r' ->
                   rget (keyattr w') r' <> None)
  /\ (forall a d,
        let k := Some a in
        let w0 := with_peers (Some (without None p)) w' in
        fst (get_peer k d w') = fst (get_peer k d w0)
        /\ fst (get_peer_enabled k w') = fst (get_peer_enabled k w0)
        /\ (fst (del_peer k w') = fst (del_peer k w0)
            /\ lines (snd (del_peer k w')) = lines (snd (del_peer k w0)))
        /\ (fst (enable_peer k w') = fst (enable_peer k w0)
            /\ lines (snd (enable_peer k w'))
               = lines (snd (enable_peer k w0)))
        /\ (fst (disable_peer k w') = fst (disable_peer k w0)
            /\ lines (snd (disable_peer k w'))
               = lines (snd (disable_peer k w0)))).
Proof.
  intros Hp Hn HK.
  split; [apply (HK p None r Hp Hn); reflexivity|].
  split.
  { unfold get_peer. rewrite (bind_run _ _ _ _ _ (peers_built _ _ Hp)), Hn.
    reflexivity. }
  split.
  { intros a r' Hr' E. apply (HK p (Some a) r' Hp Hr') in E. discriminate E. }
  intros a d k w0.
  assert (S : same_lookup k w' w0).
  { split; [reflexivity|]. exists p, (without None p).
    split; [exact Hp | split; [reflexivity|]].
    symmetry. apply pget_without. discriminate. }
  split; [apply same_lookup_get_peer, S|].
  split; [apply same_lookup_get_peer_enabled, S|].
  split; [apply same_lookup_del_peer, S|].
  split; [apply same_lookup_enable_peer, S | apply same_lookup_disable_peer, S].
Qed.

(** A buffer with a peer section without key, parsed: after the section
    was closed the peer map has its record under [None], and at the end
    of the parse it has a record under [None], the same one when every
    later peer section has its key. *)
Lemma keyless_parse (w w' : WGConfig) (pre body post : list string)
  (header : string) :
  Py.startswith (keyattr w) "_" = false ->
  lines w = pre ++ header :: body ++ post ->
  classify header = Some (Header "peer") ->
  Forall (keyless_line (keyattr w)) body ->
  section_end post ->
  parse_lines w = (Ok tt, w') ->
  keyattr w' = keyattr w /\ filed_by_key w'
  /\ exists p r,
       _peers w' = Some p /\ pget None p = Some r
       /\ (keyed_sections (keyattr w) false false post = true ->
           exists f l,
             rget SECTION_FIRSTLINE r = Some (One (AInt f))
             /\ rget SECTION_LASTLINE r = Some (One (AInt l))
             /\ f <= Py.len pre <= l
             /\ raw_lines r = map AStr (Py.slice (lines w) f (l + 1))).
Proof.
  intros Hu HL Hh Hbody Hend H.
  set (ka := keyattr w) in *. set (n := Py.len pre).
  destruct (underscore_names _ Hu) as (E1 & E2 & _).
  rewrite parse_lines_loop in H.
  apply bind_ok in H as (locF & wF & Hloop & Hfin).
  rewrite HL, parse_loop_app in Hloop.
  apply bind_ok in Hloop as (loc1 & w1 & Hpre & Hrest).
  rewrite Z.add_0_l in Hrest. fold n in Hrest. cbn [parse_loop] in Hrest.
  apply bind_ok in Hrest as (locH & wH & Hhead & Hrest).
  rewrite parse_loop_app in Hrest.
  apply bind_ok in Hrest as (loc2 & w2 & Hb & Hpost).
  (* the lines before the section *)
  assert (P0 : peers_good (cleared w)).
  { intros p k r Hp Hk. cbn in Hp. injection Hp as <-. discriminate Hk. }
  assert (O0 : open_section 0 start).
  { split; cbn.
    - split; [lia|]. intros e He. injection He as <-. lia.
    - intros Hs. contradiction. }
  destruct (parse_loop_good _ _ _ _ _ _ P0 O0 Hpre) as [_ O1].
  rewrite Z.add_0_l in O1. fold n in O1.
  set (Q := fun x : WGConfig => keyattr x = ka /\ filed_by_key x).
  assert (HQ : forall s sd x x',
            Q x -> close_section s sd x = (Ok tt, x') -> Q x').
  { intros s sd x x' Hx Hc. exact (close_section_by_key ka s sd x x' Hu Hx Hc). }
  assert (Q0 : Q (cleared w)).
  { split; [reflexivity|]. intros p k r Hp Hk. cbn in Hp.
    injection Hp as <-. discriminate Hk. }
  pose proof (parse_loop_inv Q HQ _ _ _ _ _ _ Q0 Hpre) as Q1.
  assert (B1 : _peers w1 <> None).
  { pose proof (keeps_built_parse_loop pre 0 start (cleared w)) as K.
    rewrite Hpre in K. apply K. discriminate. }
  pose proof (frame_parse_loop pre 0 start (cleared w)) as [Fl1 _].
  rewrite Hpre in Fl1. cbn [snd] in Fl1.
  change (lines (cleared w)) with (lines w) in Fl1.
  (* the header *)
  destruct (parse_step_header_ok _ _ _ _ _ _ _ Hh Hhead) as [Hc1 ->].
  pose proof (HQ _ _ _ _ Q1 Hc1) as QH.
  assert (BH : _peers wH <> None).
  { pose proof (keeps_built_close_section (section loc1) (closing_data loc1)
                  w1 B1) as K.
    rewrite Hc1 in K. exact K. }
  pose proof (frame_close_section (section loc1) (closing_data loc1) w1)
    as [FlH _].
  rewrite Hc1 in FlH. cbn [snd] in FlH.
  destruct (_peers wH) as [pH|] eqn:PH; [clear BH | contradiction].
  assert (K1 : keyless_open ka n (opened n loc1 "peer")).
  { split; [reflexivity|]. unfold opened. cbn [data last_empty_line_in_section].
    split.
    { rewrite (sget_lastline_other _ _ _ E2).
      unfold sget, sset. cbn. rewrite E1. reflexivity. }
    destruct O1 as [[_ Hcur] _].
    eexists. exists [], n. split; [reflexivity|].
    split; [apply sget_sset_same|]. split; [|discriminate].
    destruct (last_empty_line_in_section loc1) as [e|].
    - specialize (Hcur e eq_refl). lia.
    - lia. }
  (* the lines of the section *)
  destruct (parse_loop_keyless ka n body (n + 1) _ wH loc2 w2 Hu
              ltac:(lia) K1 Hbody Hb) as [K2 ->].
  (* the end of the section *)
  destruct post as [|h post'].
  - cbn [parse_loop] in Hpost. apply ret_ok in Hpost as [-> ->].
    destruct (close_keyless ka n loc2 (data loc2) wH w' pH Hu (proj1 QH) K2
                (or_introl eq_refl) PH Hfin)
      as (rec & f & l & Hp' & Rf & Rl & Hb' & Raw).
    destruct (HQ _ _ _ _ QH Hfin) as [Ka' Fk'].
    split; [exact Ka'|]. split; [exact Fk'|].
    exists (pset None rec pH), rec.
    split; [exact Hp'|]. split; [apply pget_pset_same|].
    intros _. exists f, l. rewrite FlH, Fl1 in Raw.
    repeat split; try assumption; lia.
  - destruct Hend as [name Ch]. cbn [parse_loop] in Hpost.
    apply bind_ok in Hpost as (loc3 & w3 & Hh3 & Hpost).
    destruct (parse_step_header_ok _ _ _ _ _ _ _ Ch Hh3) as [Hc3 ->].
    destruct (close_keyless ka n loc2 (closing_data loc2) wH w3 pH Hu
                (proj1 QH) K2 (or_intror eq_refl) PH Hc3)
      as (rec & f & l & Hp3 & Rf & Rl & Hb' & Raw).
    pose proof (HQ _ _ _ _ QH Hc3) as Q3.
    pose proof (parse_loop_inv Q HQ _ _ _ _ _ _ Q3 Hpost) as QF.
    destruct (HQ _ _ _ _ QF Hfin) as [Ka' Fk'].
    assert (N3 : has_keyless w3).
    { exists (pset None rec pH), rec.
      split; [exact Hp3 | apply pget_pset_same]. }
    pose proof (parse_loop_inv has_keyless close_section_keeps_keyless
                  _ _ _ _ _ _ N3 Hpost) as NF.
    destruct (close_section_keeps_keyless _ _ _ _ NF Hfin)
      as (p & r & Hp & Hr).
    split; [exact Ka'|]. split; [exact Fk'|].
    exists p, r. split; [exact Hp|]. split; [exact Hr|].
    intros W. cbn [keyed_sections] in W. rewrite Ch in W. cbn [negb orb andb] in W.
    assert (K3 : keyed_open ka (negb (String.eqb name "interface")) false
                   (opened (n + 1 + Py.len body) loc2 name)).
    { exists name. split; [reflexivity|].
      split; [rewrite negb_involutive; reflexivity | discriminate]. }
    destruct (parse_loop_keyed ka post' _ _ _ _ _ _ _ _ Hu (proj1 Q3) K3 Hp3
                Hpost W)
      as (peerF & keyedF & pF & KF & WF & HpF & HnF & KaF).
    destruct (close_keyed ka peerF keyedF locF (data locF) wF w' pF Hu KaF KF
                WF (or_introl eq_refl) HpF Hfin)
      as (p' & Hp'' & Hn'' & _).
    rewrite Hp in Hp''. injection Hp'' as <-.
    rewrite Hn'', HnF, pget_pset_same in Hr. injection Hr as <-.
    exists f, l. rewrite FlH, Fl1 in Raw.
    repeat split; try assumption; lia.
Qed.

(** The first of two peer sections without key attribute is not in the
    peer map after the parse: the second took its place under [None]. *)
Example keyless_peer_replaced :
  fst (get_peers true true false two_keyless) = Ok (inl [None])
  /\ fst (get_peer None false two_keyless)
     = Ok [("AllowedIPs", One (AStr "10.0.0.3/32"))].
Proof. split; reflexivity. Qed.

(** C9 (amended). After a parse that returns, of a buffer with a peer
    section that has no line of the key attribute, the peer map has a
    record under [None], without key attribute, and [get_peer] with [None]
    for key returns it; it is the record of that section (the header of
    the section lies within its bounds, and its raw lines are those of the
    buffer between them) when every later peer section has its key, a
    later section without key taking its place otherwise.  A record found
    under a key other than [None] has the key attribute, and a lookup by
    such a key gives what it gives on the object without the record under
    [None]: the same result from [get_peer] and [get_peer_enabled], the
    same outcome and the same lines from [del_peer], [enable_peer] and
    [disable_peer]. *)
Theorem keyless_peer_filed_under_none
  (w w' : WGConfig) (pre body post : list string) (header : string) :
  Py.startswith (keyattr w) "_" = false ->
  lines w = pre ++ header :: body ++ post ->
  classify header = Some (Header "peer") ->
  Forall (keyless_line (keyattr w)) body ->
  section_end post ->
  parse_lines w = (Ok tt, w') ->
  exists p r,
    _peers w' = Some p /\ pget None p = Some r
    /\ rget (keyattr w) r = None
    /\ fst (get_peer None true w') = Ok r
    /\ (keyed_sections (keyattr w) false false post = true ->
        exists f l,
          rget SECTION_FIRSTLINE r = Some (One (AInt f))
          /\ rget SECTION_LASTLINE r = Some (One (AInt l))
          /\ f <= Py.len pre <= l
          /\ raw_lines r = map AStr (Py.slice (lines w) f (l + 1)))
    /\ (forall a r', pget (Some a) p = Some r' ->
                     rget (keyattr w) r' <> None)
    /\ (forall a d,
          let k := Some a in
          let w0 := with_peers (Some (without None p)) w' in
          fst (get_peer k d w') = fst (get_peer k d w0)
          /\ fst (get_peer_enabled k w') = fst (get_peer_enabled k w0)
          /\ (fst (del_peer k w') = fst (del_peer k w0)
              /\ lines (snd (del_peer k w')) = lines (snd (del_peer k w0)))
          /\ (fst (enable_peer k w') = fst (enable_peer k w0)
              /\ lines (snd (enable_peer k w'))
                 = lines (snd (enable_peer k w0)))
          /\ (fst (disable_peer k w') = fst (disable_peer k w0)
              /\ lines (snd (disable_peer k w'))
                 = lines (snd (disable_peer k w0)))).
Proof.
  intros Hu HL Hh Hbody Hend H.
  destruct (keyless_parse w w' pre body post header Hu HL Hh Hbody Hend H)
    as (Ka & Fk & p & r & Hp & Hr & Hsec).
  destruct (keyless_lookups w' p r Hp Hr Fk) as (L1 & L2 & L3 & L4).
  rewrite Ka in L1, L3.
  exists p, r. split; [exact Hp|]. split; [exact Hr|].
  split; [exact L1|]. split; [exact L2|]. split; [exact Hsec|].
  split; [exact L3 | exact L4].
Qed.

Lemma keyless_peer_filed_under_none_witness :
  let w := keyless_then_keyed in
  let w' := snd (parse_lines w) in
  exists p r,
    _peers w' = Some p /\ pget None p = Some r
    /\ rget (keyattr w) r = None
    /\ fst (get_peer None true w') = Ok r
    /\ (keyed_sections (keyattr w) false false ["[Peer]"; "PublicKey = k"]
        = true ->
        exists f l,
          rget SECTION_FIRSTLINE r = Some (One (AInt f))
          /\ rget SECTION_LASTLINE r = Some (One (AInt l))
          /\ f <= Py.len ["[Interface]"; ""] <= l
          /\ raw_lines r = map AStr (Py.slice (lines w) f (l + 1)))
    /\ (forall a r', pget (Some a) p = Some r' ->
                     rget (keyattr w) r' <> None)
    /\ (forall a d,
          let k := Some a in
          let w0 := with_peers (Some (without None p)) w' in
          fst (get_peer k d w') = fst (get_peer k d w0)
          /\ fst (get_peer_enabled k w') = fst (get_peer_enabled k w0)
          /\ (fst (del_peer k w') = fst (del_peer k w0)
              /\ lines (snd (del_peer k w')) = lines (snd (del_peer k w0)))
          /\ (fst (enable_peer k w') = fst (enable_peer k w0)
              /\ lines (snd (enable_peer k w'))
                 = lines (snd (enable_peer k w0)))
          /\ (fst (disable_peer k w') = fst (disable_peer k w0)
              /\ lines (snd (disable_peer k w'))
                 = lines (snd (disable_peer k w0)))).
Proof.
  intros w w'.
  apply (keyless_peer_filed_under_none w w' ["[Interface]"; ""]
           ["AllowedIPs = 10.0.0.2/32"; ""] ["[Peer]"; "PublicKey = k"]
           "[Peer]").
  - reflexivity.
  - reflexivity.
  - reflexivity.
  - constructor; [cbn; discriminate|]. constructor; [exact I | constructor].
  - exists "peer". reflexivity.
  - vm_compute. reflexivity.
Defined.
